(** * Authoritative game server: shallow embedding and verified properties

    The development follows the server sources:
    - [server/worldMap.js]  (collision oracle, obstacle registries)  -> [Module WorldMap]
    - [server/schema.js]    (constants and record constructors)      -> [Module Schema]
    - [server/server.js]    (handlers, tick, event loop)             -> [Module Server]

    Numbers.  JavaScript numbers are rendered as rationals [Q]: every finite
    double is a rational, positions never become NaN (they are only ever
    produced by additions, averages and [Math.max]/[Math.min] of finite
    values), and rounding of the last bit is not modelled.  Integer-valued
    quantities that the code only compares or increments (timestamps, tick
    counter, sequence numbers, tile coordinates) are [Z].

    Effects.  The module level mutable registries of the source are threaded
    explicitly as one [GameState] record; every handler returns the new
    state together with the list of messages and persistence requests it
    emitted, in emission order.  A [Map] is the list of its values in
    insertion order, read and written through its key.

    Environment.  Each handler run reads the clock once ([now]); random
    identifier suffixes are an input ([rnd]).  Incoming messages are taken
    after [JSON.parse]; input packets are well formed (key booleans and a
    numeric sequence number).  Connections are named by numbers. *)

From Stdlib Require Import ZArith QArith Qround Qabs Lia Lqa List String Ascii Bool.
From Stdlib Require Import DecimalString.
Import ListNotations.

Local Open Scope string_scope.
Local Open Scope list_scope.
Local Open Scope Z_scope.
Local Open Scope Q_scope.

(** ** JavaScript arithmetic on rationals *)

Definition Qltb (a b : Q) : bool := negb (Qle_bool b a).
Definition Qneqb (a b : Q) : bool := negb (Qeq_bool a b).

Definition Math_max (a b : Q) : Q := if Qle_bool a b then b else a.
Definition Math_min (a b : Q) : Q := if Qle_bool a b then a else b.
Definition Math_floor (a : Q) : Z := Qfloor a.
Definition Math_round (a : Q) : Z := Qfloor (a + (1 # 2)).
Definition Math_abs (a : Q) : Q := Qabs a.

(** [Math.sqrt] with a resolution of 2^-52: the least multiple of 2^-52
    whose square is at least the argument (0 on a negative argument; the
    code only takes roots of sums of squares).  With this rendering,
    comparing the root with an integer threshold agrees with comparing the
    squares (lemmas [Math_sqrt_le_iff] and [Math_sqrt_gt_iff] below). *)
Definition sqrt_scale : Z := 2 ^ 52.
Definition Math_sqrt (a : Q) : Q :=
  Qmake (Z.sqrt_up (Qceiling (a * inject_Z (sqrt_scale * sqrt_scale))))
        (Z.to_pos sqrt_scale).
Definition Math_hypot (a b : Q) : Q := Math_sqrt (a * a + b * b).

(** A JavaScript string is truthy iff it is not empty. *)
Definition truthy (s : string) : bool := negb (String.eqb s "").
Definition truthy_opt (o : option string) : bool :=
  match o with Some s => truthy s | None => false end.

(** [`${n}`] for an integer. *)
Definition show_Z (n : Z) : string := NilEmpty.string_of_int (Z.to_int n).

(** ** server/worldMap.js *)
Module WorldMap.

Definition COLLIDER_TILE_SIZE : Q := 16.
Definition MAP_WIDTH_TILES : Z := 240.
Definition MAP_HEIGHT_TILES : Z := 180.
Definition OBJECT_DEFAULT_WIDTH : Q := 48.
Definition OBJECT_DEFAULT_HEIGHT : Q := 72.

Definition BENCH_X : Q := 2760.
Definition BENCH_Y : Q := 1511.
Definition BENCH_SCALE : Q := 25 # 10.
Definition BENCH_WIDTH : Q := 64 * BENCH_SCALE.
Definition BENCH_HEIGHT : Q := 32 * BENCH_SCALE.
Definition BENCH_COLLISION_SCALE : Q := 4 # 10.

(** Entries of [staticColliders] and [objectColliders]. *)
Record Collider := mkCollider {
  c_id : string;
  c_left : Q;
  c_top : Q;
  c_width : Q;
  c_height : Q
}.

Definition staticColliders : list Collider :=
  [ mkCollider "bench"
      (BENCH_X - (BENCH_WIDTH * BENCH_COLLISION_SCALE) / 2)
      (BENCH_Y - BENCH_HEIGHT * BENCH_COLLISION_SCALE - 5)
      (BENCH_WIDTH * BENCH_COLLISION_SCALE)
      (BENCH_HEIGHT * BENCH_COLLISION_SCALE) ].

(** The two mutable registries of the module.  [dynamicColliders] is a
    [Set] of keys [`${col},${row}`]; the key is injective on integer pairs,
    so the set is kept as a duplicate-free list of pairs in insertion
    order.  [objectColliders] is a [Map] from object id to rectangle, kept
    in insertion order. *)
Record Registry := mkRegistry {
  dynamicColliders : list (Z * Z);
  objectColliders : list Collider
}.

Definition tile_eqb (a b : Z * Z) : bool :=
  (fst a =? fst b)%Z && (snd a =? snd b)%Z.

Definition toTileCoords (worldX worldY : Q) : Z * Z :=
  (Math_floor (worldX / COLLIDER_TILE_SIZE), Math_floor (worldY / COLLIDER_TILE_SIZE)).

(** [WORLD_MAP]: a fence row on top and bottom, fence columns left and
    right, grass elsewhere. *)
Definition MAP_ROWS : Z := MAP_HEIGHT_TILES.
Definition MAP_COLS : Z := MAP_WIDTH_TILES.

Definition WORLD_MAP (row col : Z) : ascii :=
  if (row =? 0)%Z || (row =? MAP_HEIGHT_TILES - 1)%Z then "#"%char
  else if (col =? 0)%Z || (col =? MAP_WIDTH_TILES - 1)%Z then "#"%char
  else "G"%char.

(** [TILE_DEFINITIONS[c]?.collidable]: both defined tiles are not collidable. *)
Definition tile_collidable (c : ascii) : bool :=
  if Ascii.eqb c "#" then false
  else if Ascii.eqb c "G" then false
  else false.

Definition hasColliderTile (r : Registry) (col row : Z) : bool :=
  existsb (tile_eqb (col, row)) (dynamicColliders r).

Definition addColliderTile (r : Registry) (col row : Z) : Registry * bool :=
  if (col <? 0)%Z || (MAP_COLS <=? col)%Z || (row <? 0)%Z || (MAP_ROWS <=? row)%Z
  then (r, false)
  else
    (mkRegistry
       (if hasColliderTile r col row then dynamicColliders r
        else dynamicColliders r ++ [(col, row)])
       (objectColliders r),
     true).

Definition removeColliderTile (r : Registry) (col row : Z) : Registry * bool :=
  (mkRegistry
     (filter (fun t => negb (tile_eqb (col, row) t)) (dynamicColliders r))
     (objectColliders r),
   hasColliderTile r col row).

(** [setColliders]: the list elements are integer pairs already. *)
Definition setColliders (r : Registry) (colliders : list (Z * Z)) : Registry :=
  fold_left
    (fun acc t =>
       let '(col, row) := t in
       if (0 <=? col)%Z && (col <? MAP_COLS)%Z && (0 <=? row)%Z && (row <? MAP_ROWS)%Z
       then mkRegistry
              (if hasColliderTile acc col row then dynamicColliders acc
               else dynamicColliders acc ++ [(col, row)])
              (objectColliders acc)
       else acc)
    colliders
    (mkRegistry [] (objectColliders r)).

Definition getColliders (r : Registry) : list (Z * Z) := dynamicColliders r.

Definition clearObjectColliders (r : Registry) : Registry :=
  mkRegistry (dynamicColliders r) [].

(** [Map.set]: replace the entry with the same key in place, else append. *)
Fixpoint collider_set (c : Collider) (l : list Collider) : list Collider :=
  match l with
  | [] => [c]
  | d :: rest =>
      if String.eqb (c_id d) (c_id c) then c :: rest
      else d :: collider_set c rest
  end.

(** [addObjectCollider]: the object is passed by its id, centre, base line
    and size; [width] and [height] are finite numbers for every normalised
    object, so the defaults are never taken. *)
Definition addObjectCollider (r : Registry) (oid : string) (x y width height : Q)
  : Registry :=
  if negb (truthy oid) then r
  else
    let collisionScale := 6 # 10 in
    let collisionWidth := width * collisionScale in
    let collisionHeight := height * collisionScale in
    mkRegistry (dynamicColliders r)
      (collider_set
         (mkCollider oid (x - collisionWidth / 2) (y - collisionHeight)
            collisionWidth collisionHeight)
         (objectColliders r)).

Definition removeObjectCollider (r : Registry) (oid : string) : Registry :=
  mkRegistry (dynamicColliders r)
    (filter (fun c => negb (String.eqb (c_id c) oid)) (objectColliders r)).

Definition getTileAt (worldX worldY : Q) : option ascii :=
  let '(col, row) := toTileCoords worldX worldY in
  if (row <? 0)%Z || (MAP_ROWS <=? row)%Z || (col <? 0)%Z || (MAP_COLS <=? col)%Z
  then None
  else Some (WORLD_MAP row col).

Definition inCollider (worldX worldY : Q) (c : Collider) : bool :=
  Qle_bool (c_left c) worldX && Qle_bool worldX (c_left c + c_width c)
  && Qle_bool (c_top c) worldY && Qle_bool worldY (c_top c + c_height c).

Definition isCollidable (r : Registry) (worldX worldY : Q) : bool :=
  let '(col, row) := toTileCoords worldX worldY in
  if hasColliderTile r col row then true
  else
    match getTileAt worldX worldY with
    | None => false
    | Some tileChar =>
        if tile_collidable tileChar then true
        else if existsb (inCollider worldX worldY) staticColliders then true
        else if existsb (inCollider worldX worldY) (objectColliders r) then true
        else false
    end.

End WorldMap.

(** ** server/schema.js *)
Module Schema.

Definition TICK_RATE : Q := 20.
Definition TICK_INTERVAL : Q := 1000 / 20.
Definition PLAYER_SPEED : Q := 125.
Definition FOLLOWER_SPEED : Q := 110.
Definition MAX_PLAYERS : nat := 2.
Definition TILE_SIZE : Q := WorldMap.COLLIDER_TILE_SIZE.
Definition WORLD_COLS : Z := WorldMap.MAP_COLS.
Definition WORLD_ROWS : Z := WorldMap.MAP_ROWS.
Definition OBJECT_WIDTH : Q := 48.
Definition OBJECT_HEIGHT : Q := 72.
Definition WORLD_WIDTH : Q := inject_Z WORLD_COLS * TILE_SIZE.
Definition WORLD_HEIGHT : Q := inject_Z WORLD_ROWS * TILE_SIZE.

(** Key state of an input packet. *)
Record Keys := mkKeys {
  k_up : bool; k_down : bool; k_left : bool; k_right : bool;
  k_w : bool; k_a : bool; k_s : bool; k_d : bool; k_e : bool
}.

Definition no_keys : Keys :=
  mkKeys false false false false false false false false false.

(** An input packet [{keys, seq, timestamp}]. *)
Record Input := mkInput {
  keys : Keys;
  seq : Z;
  timestamp : Z
}.

Record Player := mkPlayer {
  id : string;
  name : string;
  character : string;
  x : Q;
  y : Q;
  vx : Q;
  vy : Q;
  lastInputSeq : Z;
  lastInput : option Input;
  connected : bool;
  lastUpdate : Z;
  hugging : bool;
  hugEndTime : Z;
  sitting : bool
}.

(** [createPlayerState]; [now] is the value of [Date.now()]. *)
Definition createPlayerState (playerId name character : string) (now : Z) : Player :=
  mkPlayer playerId name character 0 0 0 0 0%Z None true now false 0%Z false.

Record Follower := mkFollower {
  f_id : string;
  f_sprite : string;
  f_slot : nat;
  f_x : Q;
  f_y : Q;
  f_vx : Q;
  f_vy : Q;
  f_targetPlayerId : option string
}.

Definition createFollowerState (fid spriteKey : string) : Follower :=
  mkFollower fid spriteKey 0 0 0 0 0 None.

(** A normalised display object (result of [normalizeObjectData]). *)
Record DisplayObject := mkObject {
  o_id : string;
  o_x : Q;
  o_y : Q;
  o_width : Q;
  o_height : Q;
  o_imageSrc : string;
  o_text : string;
  o_createdAt : Z;
  o_updatedAt : Z
}.

End Schema.
Export Schema.

(** ** Wire protocol and effects *)

(** Player entry of a [welcome] message. *)
Record WelcomePlayer := mkWelcomePlayer {
  wp_id : string; wp_name : string; wp_character : string;
  wp_x : Q; wp_y : Q; wp_vx : Q; wp_vy : Q
}.

(** Player entry of a [state_update] message; [x] and [y] are rounded to
    two decimals, kept here as the integer number of hundredths. *)
Record StatePlayer := mkStatePlayer {
  sp_id : string; sp_name : string;
  sp_x100 : Z; sp_y100 : Z; sp_vx : Q; sp_vy : Q;
  sp_hugging : bool; sp_hugEndTime : Z; sp_sitting : bool
}.

(** Server to client messages. *)
Inductive ServerMsg :=
| Welcome (playerId : string) (tick : Z) (players : list WelcomePlayer)
    (followers : list Follower) (objects : list DisplayObject)
    (colliders : list (Z * Z))
| StateUpdate (tick : Z) (stamp : Z) (players : list StatePlayer)
    (followers : list Follower) (objects : list DisplayObject)
    (colliders : list (Z * Z))
| PlayerJoined (pid pname pcharacter : string) (px py : Q)
| PlayerLeft (playerId : string)
| ColliderPlaced (col row : Z)
| ColliderRemoved (col row : Z)
| ObjectPlaced (object : DisplayObject)
| ObjectRemoved (objectId : string)
| HugStarted (playerId1 playerId2 : string)
| HugEnded (playerId : string)
| Error (error : string).

(** Entry of the persisted occupant document. *)
Record SavedPlayer := mkSavedPlayer {
  sv_id : string; sv_name : string; sv_character : string; sv_x : Q; sv_y : Q
}.

(** What a handler emits.  Connections are named by a number.
    - [Send c m]: [client.send] on connection [c];
    - [Broadcast m]: to every open connection;
    - [BroadcastAuth m]: to every open connection with a [playerId]
      (the loop of [broadcastState]);
    - [BroadcastToOthers c m]: to every open connection but [c];
    - [SaveState], [SaveColliders], [SaveObjects]: a fire-and-forget write
      through the persistence gateway. *)
Inductive Output :=
| Send (c : nat) (m : ServerMsg)
| Broadcast (m : ServerMsg)
| BroadcastAuth (m : ServerMsg)
| BroadcastToOthers (c : nat) (m : ServerMsg)
| SaveState (players : list SavedPlayer)
| SaveColliders (colliders : list (Z * Z))
| SaveObjects (objects : list DisplayObject).

(** The raw object handed to [normalizeObjectData].  A field is [Some] when
    the JavaScript test made on it succeeds: [r_id] when [typeof raw.id] is
    string; [r_x], [r_y], [r_col], [r_row] when [Number(...)] is finite;
    [r_width], [r_height] when the value is a finite number; the two
    timestamps when present. *)
Record RawObject := mkRaw {
  r_id : option string;
  r_x : option Q; r_y : option Q;
  r_col : option Q; r_row : option Q;
  r_imageSrc : option string; r_text : option string;
  r_width : option Q; r_height : option Q;
  r_createdAt : option Z; r_updatedAt : option Z
}.

(** Client to server messages, after [JSON.parse].  Numeric fields that the
    handlers validate are [Some] exactly when the validation succeeds
    ([Number.isInteger] for collider and tile coordinates). *)
Inductive ClientMsg :=
| Join (jname : option string) (jcharacter : string) (jplayerId : option string)
| InputMsg (input : option Input)
| ResetPosition
| PlaceCollider (col row : option Z)
| RemoveCollider (col row : option Z)
| PlaceObject (raw : RawObject)
| RemoveObject (rid : option string) (rx ry : option Q) (rcol rrow : option Z)
| Hug
| BenchSit
| BenchStand
| UnknownType
| Malformed.

(** An open connection and the [playerId] attached to it by [handleJoin]. *)
Record Client := mkClient {
  cl_conn : nat;
  cl_playerId : option string
}.

(** The whole mutable state of the server process: the fields of
    [gameState] ([players], [objects], [followers], [tick], [lastTick];
    the three [Map]s as lists of their values in insertion order), the
    registries of worldMap.js, and the open connections [wss.clients]. *)
Record GameState := mkGameState {
  players : list Player;
  objects : list DisplayObject;
  followers : list Follower;
  tick : Z;
  lastTick : Z;
  registry : WorldMap.Registry;
  clients : list Client
}.

(** ** server/server.js *)
Module Server.

Definition SPAWN_POINTS : list (Z * Z) := [(20, 10); (21, 10)]%Z.
Definition FOLLOWER_TEMPLATES : list (string * string) := [("follower_buggy", "buggy")].

(** *** Record updates and [Map] access *)

Definition set_players (s : GameState) (ps : list Player) : GameState :=
  mkGameState ps (objects s) (followers s) (tick s) (lastTick s) (registry s) (clients s).
Definition set_objects (s : GameState) (os : list DisplayObject) : GameState :=
  mkGameState (players s) os (followers s) (tick s) (lastTick s) (registry s) (clients s).
Definition set_followers (s : GameState) (fs : list Follower) : GameState :=
  mkGameState (players s) (objects s) fs (tick s) (lastTick s) (registry s) (clients s).
Definition set_registry (s : GameState) (r : WorldMap.Registry) : GameState :=
  mkGameState (players s) (objects s) (followers s) (tick s) (lastTick s) r (clients s).
Definition set_clients (s : GameState) (cs : list Client) : GameState :=
  mkGameState (players s) (objects s) (followers s) (tick s) (lastTick s) (registry s) cs.

(** [gameState.players.get(i)] *)
Definition get_player (i : string) (l : list Player) : option Player :=
  find (fun p => String.eqb (id p) i) l.

(** [gameState.players.has(i)] *)
Definition has_player (i : string) (l : list Player) : bool :=
  match get_player i l with Some _ => true | None => false end.

(** In-place mutation of the record stored under key [i]. *)
Fixpoint update_player (i : string) (f : Player -> Player) (l : list Player)
  : list Player :=
  match l with
  | [] => []
  | p :: rest =>
      if String.eqb (id p) i then f p :: rest
      else p :: update_player i f rest
  end.

(** [gameState.players.set(i, p)]: replaces in place or appends. *)
Fixpoint player_set (p : Player) (l : list Player) : list Player :=
  match l with
  | [] => [p]
  | q :: rest =>
      if String.eqb (id q) (id p) then p :: rest
      else q :: player_set p rest
  end.

Definition get_object (i : string) (l : list DisplayObject) : option DisplayObject :=
  find (fun o => String.eqb (o_id o) i) l.

Fixpoint object_set (o : DisplayObject) (l : list DisplayObject) : list DisplayObject :=
  match l with
  | [] => [o]
  | q :: rest =>
      if String.eqb (o_id q) (o_id o) then o :: rest
      else q :: object_set o rest
  end.

(** [client.playerId] of an open connection. *)
Definition find_client (c : nat) (s : GameState) : option Client :=
  find (fun k => Nat.eqb (cl_conn k) c) (clients s).

Definition client_playerId (c : nat) (s : GameState) : option string :=
  match find_client c s with
  | Some k => cl_playerId k
  | None => None
  end.

(** [client.playerId = pid] *)
Definition set_client_playerId (c : nat) (pid : string) (s : GameState) : GameState :=
  set_clients s
    (map (fun k => if Nat.eqb (cl_conn k) c then mkClient c (Some pid) else k)
         (clients s)).

(** *** Player field updates *)

Definition p_set_pos (px py : Q) (p : Player) : Player :=
  mkPlayer (id p) (name p) (character p) px py (vx p) (vy p) (lastInputSeq p)
    (lastInput p) (connected p) (lastUpdate p) (hugging p) (hugEndTime p) (sitting p).
Definition p_set_vel (pvx pvy : Q) (p : Player) : Player :=
  mkPlayer (id p) (name p) (character p) (x p) (y p) pvx pvy (lastInputSeq p)
    (lastInput p) (connected p) (lastUpdate p) (hugging p) (hugEndTime p) (sitting p).
Definition p_set_connected (b : bool) (p : Player) : Player :=
  mkPlayer (id p) (name p) (character p) (x p) (y p) (vx p) (vy p) (lastInputSeq p)
    (lastInput p) b (lastUpdate p) (hugging p) (hugEndTime p) (sitting p).
Definition p_set_identity (n ch : string) (p : Player) : Player :=
  mkPlayer (id p) n ch (x p) (y p) (vx p) (vy p) (lastInputSeq p)
    (lastInput p) (connected p) (lastUpdate p) (hugging p) (hugEndTime p) (sitting p).
Definition p_set_lastInput (i : option Input) (p : Player) : Player :=
  mkPlayer (id p) (name p) (character p) (x p) (y p) (vx p) (vy p) (lastInputSeq p)
    i (connected p) (lastUpdate p) (hugging p) (hugEndTime p) (sitting p).
Definition p_set_lastUpdate (t : Z) (p : Player) : Player :=
  mkPlayer (id p) (name p) (character p) (x p) (y p) (vx p) (vy p) (lastInputSeq p)
    (lastInput p) (connected p) t (hugging p) (hugEndTime p) (sitting p).
Definition p_set_hug (b : bool) (t : Z) (p : Player) : Player :=
  mkPlayer (id p) (name p) (character p) (x p) (y p) (vx p) (vy p) (lastInputSeq p)
    (lastInput p) (connected p) (lastUpdate p) b t (sitting p).
Definition p_set_sitting (b : bool) (p : Player) : Player :=
  mkPlayer (id p) (name p) (character p) (x p) (y p) (vx p) (vy p) (lastInputSeq p)
    (lastInput p) (connected p) (lastUpdate p) (hugging p) (hugEndTime p) b.

(** *** Start-up *)

(** [initializeGame]: one entry per key of the persisted document;
    [player.character || '1'], [player.x || 0], [player.y || 0]. *)
Definition restorePlayer (now : Z) (sv : SavedPlayer) : Player :=
  p_set_connected false
    (p_set_pos (sv_x sv) (sv_y sv)
       (createPlayerState (sv_id sv) (sv_name sv)
          (if truthy (sv_character sv) then sv_character sv else "1") now)).

Definition initializeGame (now : Z) (saved : list SavedPlayer) (s : GameState)
  : GameState :=
  set_players s
    (fold_left (fun acc sv => player_set (restorePlayer now sv) acc) saved (players s)).

Definition getConnectedPlayers (s : GameState) : list Player :=
  filter connected (players s).

Definition opt_string_eqb (a b : option string) : bool :=
  match a, b with
  | Some u, Some v => String.eqb u v
  | None, None => true
  | _, _ => false
  end.

Fixpoint mapi_from {A B : Type} (n : nat) (f : nat -> A -> B) (l : list A) : list B :=
  match l with
  | [] => []
  | a :: rest => f n a :: mapi_from (S n) f rest
  end.

Definition assignFollowersToPlayers (s : GameState) : GameState :=
  let connectedPlayers := getConnectedPlayers s in
  match connectedPlayers with
  | [] =>
      set_followers s
        (map (fun f => mkFollower (f_id f) (f_sprite f) (f_slot f) (f_x f) (f_y f) 0 0 None)
             (followers s))
  | _ =>
      let playerIds := map id connectedPlayers in
      set_followers s
        (mapi_from 0
           (fun index f =>
              let targetId := nth (index mod List.length playerIds)%nat playerIds "" in
              let f1 :=
                if opt_string_eqb (f_targetPlayerId f) (Some targetId) then f
                else
                  match get_player targetId (players s) with
                  | Some targetPlayer =>
                      mkFollower (f_id f) (f_sprite f) (f_slot f)
                        (x targetPlayer) (y targetPlayer) (f_vx f) (f_vy f) (Some targetId)
                  | None =>
                      mkFollower (f_id f) (f_sprite f) (f_slot f)
                        (f_x f) (f_y f) (f_vx f) (f_vy f) (Some targetId)
                  end in
              mkFollower (f_id f1) (f_sprite f1) index (f_x f1) (f_y f1)
                (f_vx f1) (f_vy f1) (f_targetPlayerId f1))
           (followers s))
  end.

(** [initializeFollowers]: one follower per template not yet registered,
    placed at the first spawn point. *)
Definition initializeFollowers (s : GameState) : GameState :=
  set_followers s
    (fold_left
       (fun acc t =>
          let '(tid, sprite) := t in
          if existsb (fun f => String.eqb (f_id f) tid) acc then acc
          else
            let f := createFollowerState tid sprite in
            acc ++ [mkFollower (f_id f) (f_sprite f) (f_slot f)
                      (20 * TILE_SIZE + TILE_SIZE / 2) ((10 + 1) * TILE_SIZE)
                      (f_vx f) (f_vy f) (f_targetPlayerId f)])
       FOLLOWER_TEMPLATES (followers s)).

(** *** Geometry *)

(** [clampToWorld] on a coordinate pair. *)
Definition clampToWorld (ex ey : Q) : Q * Q :=
  (Math_max 0 (Math_min WORLD_WIDTH ex), Math_max 0 (Math_min WORLD_HEIGHT ey)).

Record Bounds := mkBounds {
  b_left : Q; b_right : Q; b_top : Q; b_bottom : Q; b_width : Q; b_height : Q
}.

(** [getObjectBounds]; [object.width] and [object.height] are finite for
    every stored object. *)
Definition getObjectBounds (o : DisplayObject) : Bounds :=
  let width := o_width o in
  let height := o_height o in
  mkBounds (o_x o - width / 2) (o_x o + width / 2) (o_y o - height) (o_y o)
    width height.

Definition objectsOverlap (objectA objectB : DisplayObject) : bool :=
  let a := getObjectBounds objectA in
  let b := getObjectBounds objectB in
  Qltb (b_left a) (b_right b) && Qltb (b_left b) (b_right a)
  && Qltb (b_top a) (b_bottom b) && Qltb (b_top b) (b_bottom a).

Definition pointInObject (px py : Q) (o : DisplayObject) : bool :=
  let bounds := getObjectBounds o in
  Qle_bool (b_left bounds) px && Qle_bool px (b_right bounds)
  && Qle_bool (b_top bounds) py && Qle_bool py (b_bottom bounds).

(** [`object_${Date.now()}_${random}`]; [rnd] is the random suffix. *)
Definition fresh_object_id (now : Z) (rnd : string) : string :=
  ("object_" ++ show_Z now ++ "_" ++ rnd)%string.

(** [`player_${Date.now()}_${random}`] *)
Definition fresh_player_id (now : Z) (rnd : string) : string :=
  ("player_" ++ show_Z now ++ "_" ++ rnd)%string.

(** [t || Date.now()] on a timestamp *)
Definition stamp_or (o : option Z) (now : Z) : Z :=
  match o with
  | Some t => if (t =? 0)%Z then now else t
  | None => now
  end.

(** [normalizeObjectData]; the argument is never null at the call sites. *)
Definition normalizeObjectData (now : Z) (rnd : string) (raw : RawObject)
  : option DisplayObject :=
  let oid := match r_id raw with Some i => i | None => fresh_object_id now rnd end in
  let xy :=
    match r_x raw, r_y raw with
    | Some px, Some py => Some (px, py)
    | _, _ =>
        match r_col raw, r_row raw with
        | Some col, Some row => Some ((col + (1 # 2)) * TILE_SIZE, (row + 1) * TILE_SIZE)
        | _, _ => None
        end
    end in
  match xy with
  | None => None
  | Some (px, py) =>
      let width := match r_width raw with Some w => w | None => OBJECT_WIDTH end in
      let height := match r_height raw with Some h => h | None => OBJECT_HEIGHT end in
      Some (mkObject oid px py width height
              (match r_imageSrc raw with Some i => i | None => "" end)
              (match r_text raw with Some t => t | None => "" end)
              (stamp_or (r_createdAt raw) now)
              (stamp_or (r_updatedAt raw) now))
  end.

(** *** Companions *)

(** [Math.cos(Math.PI / 6)] and [Math.sin(Math.PI / 6)], as JavaScript prints them. *)
Definition COS_PI_6 : Q := 8660254037844387 # 10000000000000000.
Definition SIN_PI_6 : Q := 49999999999999994 # 100000000000000000.

Definition f_stop (f : Follower) : Follower :=
  mkFollower (f_id f) (f_sprite f) (f_slot f) (f_x f) (f_y f) 0 0 (f_targetPlayerId f).

Definition f_clear (f : Follower) : Follower :=
  mkFollower (f_id f) (f_sprite f) (f_slot f) (f_x f) (f_y f) 0 0 None.

Definition updateFollower (ps : list Player) (deltaSeconds : Q) (f : Follower) : Follower :=
  match f_targetPlayerId f with
  | None => f_stop f
  | Some tid =>
      if negb (truthy tid) then f_stop f
      else
        match get_player tid ps with
        | None => f_clear f
        | Some target =>
            if negb (connected target) then f_clear f
            else
              let distanceMultiplier : Q := if sitting target then 4 else 13 # 10 in
              let baseOffset := TILE_SIZE * (18 # 10) * distanceMultiplier in
              let trailingFactor : Q := 25 # 100 in
              let even := Nat.eqb (f_slot f mod 2) 0 in
              let cosA := COS_PI_6 in
              let sinA := if even then SIN_PI_6 else - SIN_PI_6 in
              let targetSpeed := Math_hypot (vx target) (vy target) in
              let offsetX := - cosA * baseOffset - vx target * trailingFactor in
              let offsetY := - sinA * baseOffset - vy target * trailingFactor in
              let targetX := x target + offsetX in
              let targetY := y target + offsetY in
              let dx := targetX - f_x f in
              let dy := targetY - f_y f in
              let distance := Math_hypot dx dy in
              let desiredDistance := TILE_SIZE * (8 # 10) * distanceMultiplier in
              let speed := Math_max 60 (FOLLOWER_SPEED - targetSpeed * (15 # 100)) in
              let maxStep := speed * deltaSeconds in
              if Qle_bool distance desiredDistance then
                let v1 := f_vx f * (4 # 10) in
                let v2 := f_vy f * (4 # 10) in
                mkFollower (f_id f) (f_sprite f) (f_slot f) (f_x f) (f_y f)
                  (if Qltb (Math_abs v1) 2 then 0 else v1)
                  (if Qltb (Math_abs v2) 2 then 0 else v2)
                  (f_targetPlayerId f)
              else if Qltb 0 distance then
                let move := Math_min maxStep (Math_max 0 (distance - desiredDistance)) in
                let ux := dx / distance in
                let uy := dy / distance in
                let '(cx, cy) := clampToWorld (f_x f + ux * move) (f_y f + uy * move) in
                let stopped := Qltb move (15 # 10) in
                mkFollower (f_id f) (f_sprite f) (f_slot f) cx cy
                  (if stopped then 0 else ux * speed)
                  (if stopped then 0 else uy * speed)
                  (f_targetPlayerId f)
              else f
        end
  end.

Definition updateFollowers (deltaSeconds : Q) (s : GameState) : GameState :=
  set_followers s (map (updateFollower (players s) deltaSeconds) (followers s)).

(** *** Movement *)

Definition PLAYER_RADIUS : Q := 10.

Definition checkPoints (px py : Q) : list (Q * Q) :=
  [ (px, py);
    (px - PLAYER_RADIUS, py);
    (px + PLAYER_RADIUS, py);
    (px, py - PLAYER_RADIUS);
    (px, py + PLAYER_RADIUS * (1 # 100));
    (px - PLAYER_RADIUS * (7 # 10), py - PLAYER_RADIUS * (4 # 10));
    (px + PLAYER_RADIUS * (7 # 10), py - PLAYER_RADIUS * (4 # 10));
    (px - PLAYER_RADIUS * (7 # 10), py + PLAYER_RADIUS * (1 # 100));
    (px + PLAYER_RADIUS * (7 # 10), py + PLAYER_RADIUS * (1 # 100)) ].

Definition canMoveTo (r : WorldMap.Registry) (px py : Q) : bool :=
  negb (existsb (fun pt => WorldMap.isCollidable r (fst pt) (snd pt)) (checkPoints px py)).

(** The velocity requested by the keys, diagonal input normalised. *)
Definition inputVelocity (k : Keys) : Q * Q :=
  let vy0 : Q := 0 in
  let vx0 : Q := 0 in
  let vy1 := if k_up k || k_w k then vy0 - PLAYER_SPEED else vy0 in
  let vy2 := if k_down k || k_s k then vy1 + PLAYER_SPEED else vy1 in
  let vx1 := if k_left k || k_a k then vx0 - PLAYER_SPEED else vx0 in
  let vx2 := if k_right k || k_d k then vx1 + PLAYER_SPEED else vx1 in
  if Qneqb vx2 0 && Qneqb vy2 0 then
    let length := Math_sqrt (vx2 * vx2 + vy2 * vy2) in
    ((vx2 / length) * PLAYER_SPEED, (vy2 / length) * PLAYER_SPEED)
  else (vx2, vy2).

Definition processPlayerInput (r : WorldMap.Registry) (now : Z)
  (player : Player) (input : Input) : Player :=
  let deltaTime := TICK_INTERVAL / 1000 in
  let '(ivx, ivy) := inputVelocity (keys input) in
  let newX := x player + ivx * deltaTime in
  let newY := y player + ivy * deltaTime in
  let '(finalX, pvx) :=
    if Qneqb ivx 0 then
      if canMoveTo r newX (y player) then (newX, ivx) else (x player, 0)
    else (x player, ivx) in
  let '(finalY, pvy) :=
    if Qneqb ivy 0 then
      if canMoveTo r finalX newY then (newY, ivy) else (y player, 0)
    else (y player, ivy) in
  mkPlayer (id player) (name player) (character player)
    (Math_max 0 (Math_min WORLD_WIDTH finalX))
    (Math_max 0 (Math_min WORLD_HEIGHT finalY))
    pvx pvy
    (Z.max (lastInputSeq player) (seq input))
    (lastInput player) (connected player) now
    (hugging player) (hugEndTime player) (sitting player).

(** *** Broadcast helpers *)

Definition statePlayer (p : Player) : StatePlayer :=
  mkStatePlayer (id p) (name p)
    (Math_round (x p * 100)) (Math_round (y p * 100))
    (vx p) (vy p) (hugging p) (hugEndTime p) (sitting p).

Definition broadcastState (now : Z) (s : GameState) : list Output :=
  [ BroadcastAuth
      (StateUpdate (tick s) now
         (map statePlayer (filter connected (players s)))
         (followers s) (objects s) (WorldMap.getColliders (registry s))) ].

Definition savedPlayer (p : Player) : SavedPlayer :=
  mkSavedPlayer (id p) (name p) (character p) (x p) (y p).

Definition saveState (s : GameState) : list Output :=
  [ SaveState (map savedPlayer (players s)) ].

Definition sendError (c : nat) (e : string) : list Output := [ Send c (Error e) ].

(** *** The tick *)

(** First loop of [gameTick]: does the embrace of [p] end at [now]? *)
Definition hugExpired (now : Z) (p : Player) : bool :=
  connected p && hugging p && (0 <? hugEndTime p)%Z && (hugEndTime p <=? now)%Z.

Definition expireHug (now : Z) (p : Player) : Player :=
  if hugExpired now p then p_set_hug false 0%Z p else p.

Definition hugEndedEvents (now : Z) (p : Player) : list Output :=
  if hugExpired now p then [ Broadcast (HugEnded (id p)) ] else [].

(** Second loop of [gameTick], one iteration. *)
Definition tickPlayer (r : WorldMap.Registry) (now : Z) (p : Player) : Player :=
  if connected p then
    if hugging p || sitting p then p_set_vel 0 0 p
    else
      match lastInput p with
      | Some input => processPlayerInput r now p input
      | None => p_set_vel 0 0 p
      end
  else p.

Definition gameTick (now : Z) (s : GameState) : GameState * list Output :=
  let deltaTime := inject_Z (now - lastTick s) in
  let clampedDelta := Math_min (Math_max deltaTime TICK_INTERVAL) (TICK_INTERVAL * 4) in
  let deltaSeconds := clampedDelta / 1000 in
  let ended := flat_map (hugEndedEvents now) (players s) in
  let s1 := set_players s (map (expireHug now) (players s)) in
  let s2 := set_players s1 (map (tickPlayer (registry s1) now) (players s1)) in
  let s3 := updateFollowers deltaSeconds s2 in
  let s4 := mkGameState (players s3) (objects s3) (followers s3)
              (tick s3 + 1)%Z now (registry s3) (clients s3) in
  (s4, ended ++ broadcastState now s4).

(** *** Message handlers

    Every handler takes the connection [c] the message arrived on, the
    clock reading [now] and, where the source draws a random identifier
    suffix, that suffix [rnd]. *)

Definition welcomePlayer (p : Player) : WelcomePlayer :=
  mkWelcomePlayer (id p) (name p) (character p) (x p) (y p) (vx p) (vy p).

Definition spawnPosition (existing : nat) : Q * Q :=
  let spawnIndex := Nat.min existing (List.length SPAWN_POINTS - 1) in
  let spawn := nth spawnIndex SPAWN_POINTS (21, 10)%Z in
  (inject_Z (fst spawn) * TILE_SIZE + TILE_SIZE / 2,
   (inject_Z (snd spawn) + 1) * TILE_SIZE).

Definition handleJoin (c : nat) (now : Z) (rnd : string)
  (jname : option string) (jcharacter : string) (jplayerId : option string)
  (s : GameState) : GameState * list Output :=
  let validCharacter :=
    if String.eqb jcharacter "1" || String.eqb jcharacter "2" then jcharacter else "1" in
  let connectedCount := List.length (filter connected (players s)) in
  if (MAX_PLAYERS <=? connectedCount)%nat then
    (s, sendError c "Room is full. Maximum 2 players allowed.")
  else
    let playerId :=
      match jplayerId with
      | Some pid =>
          if negb (truthy pid) || negb (has_player pid (players s))
          then fresh_player_id now rnd
          else pid
      | None => fresh_player_id now rnd
      end in
    let player :=
      match get_player playerId (players s) with
      | None =>
          let '(sx, sy) := spawnPosition (List.length (filter connected (players s))) in
          p_set_pos sx sy
            (createPlayerState playerId
               (match jname with
                | Some n => if truthy n then n else "Player"
                | None => "Player"
                end)
               validCharacter now)
      | Some p =>
          p_set_identity
            (match jname with
             | Some n => if truthy n then n else name p
             | None => name p
             end)
            validCharacter
            (p_set_connected true p)
      end in
    let s1 := set_players s (player_set player (players s)) in
    let s2 := set_client_playerId c playerId s1 in
    let s3 := assignFollowersToPlayers s2 in
    (s3,
     [ Send c
         (Welcome playerId (tick s3)
            (map welcomePlayer (filter connected (players s3)))
            (followers s3) (objects s3) (WorldMap.getColliders (registry s3)));
       BroadcastToOthers c
         (PlayerJoined (id player) (name player) (character player) (x player) (y player)) ]
     ++ saveState s3).

Definition handleInput (c : nat) (input : option Input) (s : GameState)
  : GameState * list Output :=
  match client_playerId c s with
  | None => (s, sendError c "Not authenticated")
  | Some pid =>
      if negb (truthy pid) then (s, sendError c "Not authenticated")
      else
        match get_player pid (players s) with
        | None => (s, sendError c "Player not found")
        | Some player =>
            if negb (connected player) then (s, sendError c "Player not found")
            else
              let s1 := set_players s (update_player pid (p_set_lastInput input) (players s)) in
              (s1, if (tick s1 mod 10 =? 0)%Z then saveState s1 else [])
        end
  end.

Definition handlePlaceCollider (c : nat) (col row : option Z) (s : GameState)
  : GameState * list Output :=
  if negb (truthy_opt (client_playerId c s)) then (s, sendError c "Not authenticated")
  else
    match col, row with
    | Some col, Some row =>
        let '(r, added) := WorldMap.addColliderTile (registry s) col row in
        if negb added then (set_registry s r, [])
        else
          (set_registry s r,
           [ Broadcast (ColliderPlaced col row);
             SaveColliders (WorldMap.getColliders r) ])
    | _, _ => (s, sendError c "Invalid collider coordinates")
    end.

Definition handleRemoveCollider (c : nat) (col row : option Z) (s : GameState)
  : GameState * list Output :=
  if negb (truthy_opt (client_playerId c s)) then (s, sendError c "Not authenticated")
  else
    match col, row with
    | Some col, Some row =>
        let '(r, removed) := WorldMap.removeColliderTile (registry s) col row in
        if negb removed then (set_registry s r, [])
        else
          (set_registry s r,
           [ Broadcast (ColliderRemoved col row);
             SaveColliders (WorldMap.getColliders r) ])
    | _, _ => (s, sendError c "Invalid collider coordinates")
    end.

Definition addObjectColliderOf (o : DisplayObject) (r : WorldMap.Registry)
  : WorldMap.Registry :=
  WorldMap.addObjectCollider r (o_id o) (o_x o) (o_y o) (o_width o) (o_height o).

(** [handlePlaceObject]; the raw object built from the message carries no
    id and no timestamps. *)
Definition placeRaw (raw : RawObject) : RawObject :=
  mkRaw None (r_x raw) (r_y raw) (r_col raw) (r_row raw)
    (r_imageSrc raw) (r_text raw) (r_width raw) (r_height raw) None None.

Definition outOfWorld (o : DisplayObject) : bool :=
  Qltb (o_x o) 0 || Qltb WORLD_WIDTH (o_x o)
  || Qltb (o_y o) 0 || Qltb WORLD_HEIGHT (o_y o).

Definition handlePlaceObject (c : nat) (now : Z) (rnd : string) (raw : RawObject)
  (s : GameState) : GameState * list Output :=
  if negb (truthy_opt (client_playerId c s)) then (s, sendError c "Not authenticated")
  else
    match normalizeObjectData now rnd (placeRaw raw) with
    | None => (s, sendError c "Invalid object coordinates")
    | Some objectData =>
        if outOfWorld objectData then (s, sendError c "Object coordinates out of bounds")
        else
          let overlaps :=
            existsb (fun existing => objectsOverlap existing objectData) (objects s) in
          if overlaps then (s, [])
          else
            let objectData :=
              mkObject (o_id objectData) (o_x objectData) (o_y objectData)
                (o_width objectData) (o_height objectData)
                (o_imageSrc objectData) (o_text objectData) now now in
            let s1 := set_objects s (object_set objectData (objects s)) in
            let s2 := set_registry s1 (addObjectColliderOf objectData (registry s1)) in
            (s2, [ Broadcast (ObjectPlaced objectData); SaveObjects (objects s2) ])
    end.

Definition handleRemoveObject (c : nat) (rid : option string) (rx ry : option Q)
  (rcol rrow : option Z) (s : GameState) : GameState * list Output :=
  if negb (truthy_opt (client_playerId c s)) then (s, sendError c "Not authenticated")
  else
    let byId :=
      match rid with
      | Some i => if truthy i then get_object i (objects s) else None
      | None => None
      end in
    let byPoint :=
      match byId with
      | Some o => Some o
      | None =>
          match rx, ry with
          | Some px, Some py => find (pointInObject px py) (objects s)
          | _, _ => None
          end
      end in
    let byTile :=
      match byPoint with
      | Some o => Some o
      | None =>
          match rcol, rrow with
          | Some col, Some row =>
              find (pointInObject ((inject_Z col + (1 # 2)) * TILE_SIZE)
                                  ((inject_Z row + 1) * TILE_SIZE))
                   (objects s)
          | _, _ => None
          end
      end in
    match byTile with
    | None => (s, [])
    | Some object =>
        let s1 :=
          set_objects s
            (filter (fun o => negb (String.eqb (o_id o) (o_id object))) (objects s)) in
        let s2 := set_registry s1 (WorldMap.removeObjectCollider (registry s1) (o_id object)) in
        (s2, [ Broadcast (ObjectRemoved (o_id object)); SaveObjects (objects s2) ])
    end.

Definition HUG_PROXIMITY_THRESHOLD : Q := 60.
Definition HUG_DURATION : Z := 2000.

Definition startHug (hugEndTime : Z) (avgY : Q) (p : Player) : Player :=
  p_set_vel 0 0 (p_set_hug true hugEndTime (p_set_pos (x p) avgY p)).

Definition handleHug (c : nat) (now : Z) (s : GameState) : GameState * list Output :=
  if negb (truthy_opt (client_playerId c s)) then (s, sendError c "Not authenticated")
  else
    match client_playerId c s with
    | None => (s, [])
    | Some pid =>
        match get_player pid (players s) with
        | None => (s, [])
        | Some player =>
            if negb (connected player) then (s, [])
            else if hugging player then (s, [])
            else
              let otherPlayers :=
                filter (fun p => connected p && negb (String.eqb (id p) (id player)))
                       (players s) in
              match otherPlayers with
              | [] => (s, [])
              | otherPlayer :: _ =>
                  let dx := x player - x otherPlayer in
                  let dy := y player - y otherPlayer in
                  let distance := Math_sqrt (dx * dx + dy * dy) in
                  if Qltb HUG_PROXIMITY_THRESHOLD distance then (s, [])
                  else if hugging otherPlayer then (s, [])
                  else
                    let hugEndTime := (now + HUG_DURATION)%Z in
                    let avgY := (y player + y otherPlayer) / 2 in
                    let ps1 := update_player (id player) (startHug hugEndTime avgY) (players s) in
                    let ps2 := update_player (id otherPlayer) (startHug hugEndTime avgY) ps1 in
                    (set_players s ps2,
                     [ Broadcast (HugStarted (id player) (id otherPlayer)) ])
              end
        end
    end.

Definition BENCH_X : Q := 2760.
Definition BENCH_Y : Q := 1511.
Definition BENCH_SEAT_OFFSET : Q := 14.
Definition STAND_OFFSET : Q := 50.

(** The loop of [handleBenchSit] counting the seated occupants. *)
Definition sittingCount (ps : list Player) : nat :=
  List.length (filter (fun p => connected p && sitting p) ps).

Definition sitDown (seatOffset : Q) (now : Z) (p : Player) : Player :=
  p_set_lastUpdate now
    (p_set_sitting true (p_set_vel 0 0 (p_set_pos (BENCH_X + seatOffset) BENCH_Y p))).

Definition handleBenchSit (c : nat) (now : Z) (s : GameState) : GameState * list Output :=
  if negb (truthy_opt (client_playerId c s)) then (s, sendError c "Not authenticated")
  else
    match client_playerId c s with
    | None => (s, [])
    | Some pid =>
        match get_player pid (players s) with
        | None => (s, sendError c "Player not found")
        | Some player =>
            if negb (connected player) then (s, sendError c "Player not found")
            else if sitting player then (s, [])
            else
              let dx := x player - BENCH_X in
              let dy := y player - BENCH_Y in
              let distance := Math_sqrt (dx * dx + dy * dy) in
              if Qltb 100 distance then (s, [])
              else
                let count := sittingCount (players s) in
                if (2 <=? count)%nat then (s, [])
                else
                  let seatOffset :=
                    if Nat.eqb count 0 then BENCH_SEAT_OFFSET else - BENCH_SEAT_OFFSET in
                  let s1 := set_players s (update_player pid (sitDown seatOffset now) (players s)) in
                  (s1, broadcastState now s1)
        end
    end.

Definition standUp (now : Z) (p : Player) : Player :=
  let dx := x p - BENCH_X in
  let standX := if Qltb dx 0 then BENCH_X - STAND_OFFSET else BENCH_X + STAND_OFFSET in
  p_set_lastUpdate now
    (p_set_sitting false (p_set_vel 0 0 (p_set_pos standX BENCH_Y p))).

Definition handleBenchStand (c : nat) (now : Z) (s : GameState) : GameState * list Output :=
  if negb (truthy_opt (client_playerId c s)) then (s, sendError c "Not authenticated")
  else
    match client_playerId c s with
    | None => (s, [])
    | Some pid =>
        match get_player pid (players s) with
        | None => (s, sendError c "Player not found")
        | Some player =>
            if negb (connected player) then (s, sendError c "Player not found")
            else if negb (sitting player) then (s, [])
            else
              let s1 := set_players s (update_player pid (standUp now) (players s)) in
              (s1, broadcastState now s1)
        end
    end.

Definition resetPosition (now : Z) (p : Player) : Player :=
  p_set_lastUpdate now (p_set_pos (160497 # 100) (80274 # 100) (p_set_vel 0 0 p)).

Definition handleResetPosition (c : nat) (now : Z) (s : GameState)
  : GameState * list Output :=
  if negb (truthy_opt (client_playerId c s)) then (s, sendError c "Not authenticated")
  else
    match client_playerId c s with
    | None => (s, [])
    | Some pid =>
        match get_player pid (players s) with
        | None => (s, sendError c "Player not found")
        | Some player =>
            if negb (connected player) then (s, sendError c "Player not found")
            else
              let s1 := set_players s (update_player pid (resetPosition now) (players s)) in
              (s1, broadcastState now s1)
        end
    end.

(** [handleDisconnect], followed by the removal of the closed connection
    from [wss.clients]. *)
Definition handleDisconnect (c : nat) (s : GameState) : GameState * list Output :=
  let closed := set_clients s (filter (fun k => negb (Nat.eqb (cl_conn k) c)) (clients s)) in
  match client_playerId c s with
  | None => (closed, [])
  | Some pid =>
      if negb (truthy pid) then (closed, [])
      else
        match get_player pid (players s) with
        | None => (closed, [])
        | Some _ =>
            let s1 := set_players closed
                        (update_player pid (p_set_connected false) (players s)) in
            let s2 := assignFollowersToPlayers s1 in
            (s2, [ BroadcastToOthers c (PlayerLeft pid) ] ++ saveState s2)
        end
  end.

Definition handleMessage (c : nat) (now : Z) (rnd : string) (m : ClientMsg)
  (s : GameState) : GameState * list Output :=
  match m with
  | Join jname jcharacter jplayerId => handleJoin c now rnd jname jcharacter jplayerId s
  | InputMsg input => handleInput c input s
  | ResetPosition => handleResetPosition c now s
  | PlaceCollider col row => handlePlaceCollider c col row s
  | RemoveCollider col row => handleRemoveCollider c col row s
  | PlaceObject raw => handlePlaceObject c now rnd raw s
  | RemoveObject rid rx ry rcol rrow => handleRemoveObject c rid rx ry rcol rrow s
  | Hug => handleHug c now s
  | BenchSit => handleBenchSit c now s
  | BenchStand => handleBenchStand c now s
  | UnknownType => (s, [])
  | Malformed => (s, sendError c "Invalid message format")
  end.

(** *** The event loop

    One event is handled to completion before the next one: a connection
    opens, a message arrives on an open connection, a connection closes, or
    the interval timer fires. *)
Inductive Event :=
| Connect (c : nat)
| Message (c : nat) (now : Z) (rnd : string) (m : ClientMsg)
| Close (c : nat)
| Tick (now : Z).

Definition is_open (c : nat) (s : GameState) : bool :=
  match find_client c s with Some _ => true | None => false end.

Definition step (s : GameState) (e : Event) : GameState * list Output :=
  match e with
  | Connect c =>
      if is_open c s then (s, [])
      else (set_clients s (clients s ++ [mkClient c None]), [])
  | Message c now rnd m =>
      if is_open c s then handleMessage c now rnd m s else (s, [])
  | Close c =>
      if is_open c s then handleDisconnect c s else (s, [])
  | Tick now => gameTick now s
  end.

Fixpoint run (s : GameState) (es : list Event) : GameState * list Output :=
  match es with
  | [] => (s, [])
  | e :: rest =>
      let '(s1, out1) := step s e in
      let '(s2, out2) := run s1 rest in
      (s2, out1 ++ out2)
  end.

(** [createGameState] with empty worldMap.js registries and no connection. *)
Definition createGameState (now : Z) : GameState :=
  mkGameState [] [] [] 0%Z now (WorldMap.mkRegistry [] []) [].

(** [initializeObjects] on the persisted list. *)
Definition initializeObjects (now : Z) (rnd : string) (raws : list RawObject)
  (s : GameState) : GameState :=
  fold_left
    (fun acc raw =>
       match normalizeObjectData now rnd raw with
       | None => acc
       | Some normalized =>
           match get_object (o_id normalized) (objects acc) with
           | Some _ => acc
           | None =>
               set_registry
                 (set_objects acc (object_set normalized (objects acc)))
                 (addObjectColliderOf normalized (registry acc))
           end
       end)
    raws
    (set_registry (set_objects s []) (WorldMap.clearObjectColliders (registry s))).

(** [startServer] up to the point where the socket server listens:
    the three persisted documents are loaded, followers are created and
    assigned. *)
Definition startServer (now : Z) (rnd : string) (saved : list SavedPlayer)
  (tiles : list (Z * Z)) (raws : list RawObject) : GameState :=
  let s0 := createGameState now in
  let s1 := initializeGame now saved s0 in
  let s2 := set_registry s1 (WorldMap.setColliders (registry s1) tiles) in
  let s3 := initializeObjects now rnd raws s2 in
  let s4 := initializeFollowers s3 in
  assignFollowersToPlayers s4.

End Server.
Export Server.

(** * Specification vocabulary *)

(** An occupant position within the world rectangle. *)
Definition inWorld (p : Player) : Prop :=
  0 <= x p <= WORLD_WIDTH /\ 0 <= y p <= WORLD_HEIGHT.

Definition savedInWorld (sv : SavedPlayer) : Prop :=
  0 <= sv_x sv <= WORLD_WIDTH /\ 0 <= sv_y sv <= WORLD_HEIGHT.

(** Number of occupants with [connected = true]. *)
Definition connectedCount (s : GameState) : nat :=
  List.length (filter connected (players s)).

(** Keys of a [Map] are unique. *)
Definition uniqueIds (s : GameState) : Prop := NoDup (map id (players s)).

(** The states the server can be in: started from some persisted
    documents, then any sequence of events. *)
Definition reachable (s : GameState) : Prop :=
  exists now rnd saved tiles raws es,
    s = fst (run (startServer now rnd saved tiles raws) es).

(** Every way a single event other than a join changes one occupant
    record; [l] is the registry before the event. *)
Inductive Mutation (l : list Player) (p : Player) : Player -> Prop :=
| mut_none : Mutation l p p
| mut_tick (r : WorldMap.Registry) (now : Z) :
    Mutation l p (tickPlayer r now (expireHug now p))
| mut_input (i : option Input) :
    connected p = true -> Mutation l p (p_set_lastInput i p)
| mut_hug (t : Z) (a b : Player) :
    connected p = true -> In a l -> In b l ->
    Mutation l p (startHug t ((y a + y b) / 2) p)
| mut_sit (left : bool) (now : Z) :
    connected p = true ->
    Mutation l p
      (sitDown (if left then - BENCH_SEAT_OFFSET else BENCH_SEAT_OFFSET) now p)
| mut_stand (now : Z) : connected p = true -> Mutation l p (standUp now p)
| mut_reset (now : Z) : connected p = true -> Mutation l p (resetPosition now p)
| mut_disconnect : Mutation l p (p_set_connected false p).

(** The record [handleJoin] stores for an accepted join: the resurrected
    record [q] of a known identifier, or a new record at a spawn point. *)
Definition JoinRecord (now : Z) (l : list Player) (p : Player) : Prop :=
  (exists q n ch,
      get_player (id p) l = Some q /\
      p = p_set_identity n ch (p_set_connected true q))
  \/
  (exists k n ch,
      get_player (id p) l = None /\
      p = p_set_pos (fst (spawnPosition k)) (snd (spawnPosition k))
            (createPlayerState (id p) n ch now)).

(** The invariants carried by every reachable state. *)
Definition Inv (s : GameState) : Prop :=
  uniqueIds s /\ (connectedCount s <= 2)%nat.

(** The persisted occupant documents found in a list of effects. *)
Definition savedDocuments (out : list Output) : list (list SavedPlayer) :=
  flat_map (fun o => match o with SaveState l => [l] | _ => [] end) out.

Definition isJoin (e : Event) : bool :=
  match e with
  | Message _ _ _ (Join _ _ _) => true
  | _ => false
  end.

(** Axis separation in the words of the specification: test the
    destination with only the X coordinate changed; if unobstructed commit
    the X move, else zero the X velocity; then the same for Y using the
    possibly updated X; finally clamp the position to the world.  The
    result is the new position and the new velocity. *)
Definition spec_axisSeparation (r : WorldMap.Registry) (px py ivx ivy dt : Q)
  : (Q * Q) * (Q * Q) :=
  let '(x1, vx1) :=
    if canMoveTo r (px + ivx * dt) py then (px + ivx * dt, ivx) else (px, 0) in
  let '(y1, vy1) :=
    if canMoveTo r x1 (py + ivy * dt) then (py + ivy * dt, ivy) else (py, 0) in
  (clampToWorld x1 y1, (vx1, vy1)).

Definition onlyRight : Keys :=
  mkKeys false false false true false false false false false.

(** Identifiers the server generated while handling the joins of [es]. *)
Definition issued (es : list Event) (i : string) : Prop :=
  exists c now rnd n ch pid,
    In (Message c now rnd (Join n ch pid)) es /\ i = fresh_player_id now rnd.

(** Does the event [e] resurrect the occupant [i]: a join that names [i],
    or whose generated identifier is [i]. *)
Definition rejoins (i : string) (e : Event) : bool :=
  match e with
  | Message _ now rnd (Join _ _ pid) =>
      opt_string_eqb pid (Some i) || String.eqb (fresh_player_id now rnd) i
  | _ => false
  end.

(** Recognisers on emitted effects. *)
Definition isHugEnded (i : string) (o : Output) : bool :=
  match o with
  | Broadcast (HugEnded j) => String.eqb i j
  | _ => false
  end.

Definition isObjectPlaced (o : Output) : bool :=
  match o with
  | Broadcast (ObjectPlaced _) => true
  | Send _ (ObjectPlaced _) => true
  | BroadcastAuth (ObjectPlaced _) => true
  | BroadcastToOthers _ (ObjectPlaced _) => true
  | _ => false
  end.


(** * Scenarios

    Concrete runs of the server used to exercise the theorems below. *)

(** Only the [left] key is down. *)
Definition C1_keys : Keys := mkKeys false false true false false false false false false.

Definition C1_saved : list SavedPlayer := [mkSavedPlayer "p1" "Ada" "1" 2 100].

Definition C1_events : list Event :=
  [ Connect 1;
    Message 1 1010 "r" (Join None "1" (Some "p1"));
    Message 1 1020 "r" (InputMsg (Some (mkInput C1_keys 1 1020))) ].

Definition C1_start : GameState := startServer 1000 "" C1_saved [] [].

Definition C2_full : GameState :=
  fst (run (startServer 1000 "" [] [] [])
         [ Connect 1; Connect 2; Connect 3;
           Message 1 1010 "a" (Join (Some "Ada") "1" None);
           Message 2 1020 "b" (Join (Some "Bob") "2" None) ]).

Definition twoAtSpawn : GameState :=
  fst (run (startServer 1000 "" [] [] [])
         [ Connect 1; Connect 2;
           Message 1 1010 "a" (Join (Some "Ada") "1" None);
           Message 2 1020 "b" (Join (Some "Bob") "2" None) ]).

Definition nearBench (i : string) : SavedPlayer := mkSavedPlayer i i "1" 2760 1560.

Definition C4_events : list Event :=
  [ Connect 1; Message 1 1010 "" (Join None "1" (Some "A"));
    Message 1 1020 "" BenchSit;
    Close 1;
    Connect 2; Message 2 1030 "" (Join None "1" (Some "B"));
    Connect 3; Message 3 1040 "" (Join None "2" (Some "C"));
    Message 2 1050 "" BenchSit ].

Definition C4_start : GameState :=
  startServer 1000 "" [nearBench "A"; nearBench "B"; nearBench "C"] [] [].

(** [A] seated and disconnected, [B] seated, [C] standing next to the bench. *)
Definition C4_two_seated : GameState := fst (run C4_start C4_events).

Definition C4_both_seated : GameState :=
  fst (run (startServer 1000 "" [nearBench "A"; nearBench "B"] [] [])
         [ Connect 1; Message 1 1010 "" (Join None "1" (Some "A"));
           Connect 2; Message 2 1020 "" (Join None "1" (Some "B"));
           Message 1 1030 "" BenchSit; Message 2 1040 "" BenchSit ]).

Definition C5_events : list Event :=
  [ Connect 1; Message 1 1010 "" (Join None "1" (Some "A"));
    Connect 2; Message 2 1020 "" (Join None "1" (Some "B"));
    Message 1 1030 "" BenchSit;
    Message 2 1040 "" BenchSit ].

Definition C5_start : GameState :=
  startServer 1000 "" [nearBench "A"; nearBench "B"] [] [].

Definition C5_resit : list Event :=
  [ Message 1 1050 "" BenchStand; Message 1 1060 "" BenchSit ].

Definition seatOf (i : string) (s : GameState) : option (Q * Q * bool * bool) :=
  match get_player i (players s) with
  | Some p => Some (Qred (x p), Qred (y p), connected p, sitting p)
  | None => None
  end.

Definition C6_state : GameState :=
  fst (run (startServer 1000 "" [mkSavedPlayer "p1" "Ada" "1" 100 100] [] [])
         [ Connect 1;
           Message 1 1010 "r" (Join None "1" (Some "p1"));
           Message 1 1020 "r" (InputMsg (Some (mkInput onlyRight 1 1020))) ]).

Definition C7_raw (px py : Q) : RawObject :=
  mkRaw None (Some px) (Some py) None None (Some "pic.png") (Some "hello") None None None None.

Definition C7_state : GameState :=
  fst (run (startServer 1000 "" [] [] [])
         [ Connect 1;
           Message 1 1010 "a" (Join (Some "Ada") "1" None);
           Message 1 1020 "o1" (PlaceObject (C7_raw 500 500)) ]).

Definition C8_state : GameState :=
  fst (run (startServer 1000 "" [] [] [])
         [ Connect 1; Message 1 1010 "a" (Join (Some "Ada") "1" None) ]).

Definition C8_packet (n : Z) : Input := mkInput onlyRight n 1020.

Definition ackOf (i : string) (s : GameState) : option Z :=
  option_map lastInputSeq (get_player i (players s)).

Definition C9_state : GameState :=
  fst (run (startServer 1000 "" [] [] []) [ Connect 1 ]).

(** [A] and [B] embrace at time 2000, then [A]'s connection closes. *)
Definition C10_state : GameState :=
  fst (run (startServer 1000 "" [] [] [])
         [ Connect 1; Connect 2;
           Message 1 1010 "a" (Join (Some "Ada") "1" None);
           Message 2 1020 "b" (Join (Some "Bob") "2" None);
           Message 1 2000 "" Hug;
           Close 1 ]).

Definition C10_A : Player :=
  mkPlayer "player_1010_a" "Ada" "1" (656 # 2) ((176 + 176) / 2) 0 0 0 None
    false 1010 true 4000 false.

(** * Further vocabulary *)

(** A tile of the map grid. *)
Definition tileInMap (col row : Z) : Prop :=
  (0 <= col < WorldMap.MAP_COLS)%Z /\ (0 <= row < WorldMap.MAP_ROWS)%Z.

(** The registered tiles are distinct tiles of the map. *)
Definition tilesOK (r : WorldMap.Registry) : Prop :=
  NoDup (WorldMap.dynamicColliders r)
  /\ Forall (fun t => tileInMap (fst t) (snd t)) (WorldMap.dynamicColliders r).

(** The rectangle [addObjectCollider] derives from a display object. *)
Definition colliderOf (o : DisplayObject) : WorldMap.Collider :=
  WorldMap.mkCollider (o_id o)
    (o_x o - o_width o * (6 # 10) / 2)
    (o_y o - o_height o * (6 # 10))
    (o_width o * (6 # 10))
    (o_height o * (6 # 10)).

(** The derived rectangles are exactly those of the registered objects. *)
Definition objectsSynced (s : GameState) : Prop :=
  WorldMap.objectColliders (registry s) = map colliderOf (objects s).

(** The entry [saveObjects] writes for a display object, as
    [loadObjects] hands it back to [normalizeObjectData]. *)
Definition rawOf (o : DisplayObject) : RawObject :=
  mkRaw (Some (o_id o)) (Some (o_x o)) (Some (o_y o)) None None
    (Some (o_imageSrc o)) (Some (o_text o)) (Some (o_width o)) (Some (o_height o))
    (Some (o_createdAt o)) (Some (o_updatedAt o)).


Definition touchesTiles (e : Event) : bool :=
  match e with
  | Message _ _ _ (PlaceCollider _ _) => true
  | Message _ _ _ (RemoveCollider _ _) => true
  | _ => false
  end.

Definition touchesObjects (e : Event) : bool :=
  match e with
  | Message _ _ _ (PlaceObject _) => true
  | Message _ _ _ (RemoveObject _ _ _ _ _) => true
  | _ => false
  end.

Definition touchesFollowers (e : Event) : bool :=
  match e with
  | Message _ _ _ (Join _ _ _) => true
  | Close _ => true
  | Tick _ => true
  | _ => false
  end.

(** Messages that require a joined connection. *)
Definition needsJoin (m : ClientMsg) : bool :=
  match m with
  | Join _ _ _ | UnknownType | Malformed => false
  | _ => true
  end.

(** No two display objects of the list overlap. *)
Definition pairwiseDisjoint (l : list DisplayObject) : Prop :=
  ForallOrdPairs (fun a b => objectsOverlap a b = false) l.

Definition followerInWorld (f : Follower) : Prop :=
  0 <= f_x f <= WORLD_WIDTH /\ 0 <= f_y f <= WORLD_HEIGHT.

(** A follower's target is absent or names a connected occupant. *)
Definition targetConnected (ps : list Player) (f : Follower) : Prop :=
  match f_targetPlayerId f with
  | None => True
  | Some tid => exists p, get_player tid ps = Some p /\ connected p = true
  end.

(** What a follower can see of an occupant record when it looks up its
    target: the identifier and the connection flag. *)
Definition presence (p : Player) : string * bool := (id p, connected p).

(** Events after which the followers are assigned anew. *)
Definition reassigns (e : Event) : bool :=
  match e with
  | Message _ _ _ (Join _ _ _) => true
  | Close _ => true
  | _ => false
  end.

(** The relation between an occupant record and the record rebuilt from
    its persisted entry at the next start. *)
Definition restoredFrom (p q : Player) : Prop :=
  id q = id p /\ name q = name p /\ x q = x p /\ y q = y p
  /\ (truthy (character p) = true -> character q = character p)
  /\ connected q = false /\ sitting q = false /\ hugging q = false
  /\ vx q = 0 /\ vy q = 0 /\ lastInput q = None /\ lastInputSeq q = 0%Z.

(** * The client's input manager ([public/input.js])

    The keyboard state kept by the browser client, from which the input
    packets handled by [handleInput] are built.  A DOM key event is
    represented by its [key] string. *)
Module InputManager.

Record KeyState := mkKeyState {
  key_up : bool; key_down : bool; key_left : bool; key_right : bool;
  key_w : bool; key_a : bool; key_s : bool; key_d : bool;
  key_e : bool; key_h : bool; key_q : bool
}.

Record State := mkState {
  keys : KeyState;
  inputSeq : Z;
  lastSentInput : option (KeyState * Z);
  eKeyPressed : bool;
  hKeyPressed : bool;
  qKeyPressed : bool
}.

(** [constructor] (the listeners are the [dispatch] function below). *)
Definition constructor : State :=
  mkState (mkKeyState false false false false false false false false false false false)
    0%Z None false false false.

(** [String.prototype.toLowerCase] on the letters A to Z; no other
    character is turned into a character of the key names compared below. *)
Definition lower_ascii (c : ascii) : ascii :=
  let n := nat_of_ascii c in
  if (65 <=? n)%nat && (n <=? 90)%nat then ascii_of_nat (n + 32) else c.

Fixpoint toLowerCase (s : string) : string :=
  match s with
  | EmptyString => EmptyString
  | String c rest => String (lower_ascii c) (toLowerCase rest)
  end.

Definition set_keys (k : KeyState) (m : State) : State :=
  mkState k (inputSeq m) (lastSentInput m) (eKeyPressed m) (hKeyPressed m) (qKeyPressed m).

Definition set_vertical_up (dir letter : bool) (k : KeyState) : KeyState :=
  mkKeyState dir (key_down k) (key_left k) (key_right k)
    letter (key_a k) (key_s k) (key_d k) (key_e k) (key_h k) (key_q k).
Definition set_vertical_down (dir letter : bool) (k : KeyState) : KeyState :=
  mkKeyState (key_up k) dir (key_left k) (key_right k)
    (key_w k) (key_a k) letter (key_d k) (key_e k) (key_h k) (key_q k).
Definition set_horizontal_left (dir letter : bool) (k : KeyState) : KeyState :=
  mkKeyState (key_up k) (key_down k) dir (key_right k)
    (key_w k) letter (key_s k) (key_d k) (key_e k) (key_h k) (key_q k).
Definition set_horizontal_right (dir letter : bool) (k : KeyState) : KeyState :=
  mkKeyState (key_up k) (key_down k) (key_left k) dir
    (key_w k) (key_a k) (key_s k) letter (key_e k) (key_h k) (key_q k).
Definition set_e (b : bool) (k : KeyState) : KeyState :=
  mkKeyState (key_up k) (key_down k) (key_left k) (key_right k)
    (key_w k) (key_a k) (key_s k) (key_d k) b (key_h k) (key_q k).
Definition set_h (b : bool) (k : KeyState) : KeyState :=
  mkKeyState (key_up k) (key_down k) (key_left k) (key_right k)
    (key_w k) (key_a k) (key_s k) (key_d k) (key_e k) b (key_q k).
Definition set_q (b : bool) (k : KeyState) : KeyState :=
  mkKeyState (key_up k) (key_down k) (key_left k) (key_right k)
    (key_w k) (key_a k) (key_s k) (key_d k) (key_e k) (key_h k) b.

Definition handleKeyDown (e_key : string) (m : State) : State :=
  let key := toLowerCase e_key in
  if String.eqb key "arrowup" || String.eqb key "w" then
    set_keys (set_vertical_up true (String.eqb key "w") (keys m)) m
  else if String.eqb key "arrowdown" || String.eqb key "s" then
    set_keys (set_vertical_down true (String.eqb key "s") (keys m)) m
  else if String.eqb key "arrowleft" || String.eqb key "a" then
    set_keys (set_horizontal_left true (String.eqb key "a") (keys m)) m
  else if String.eqb key "arrowright" || String.eqb key "d" then
    set_keys (set_horizontal_right true (String.eqb key "d") (keys m)) m
  else if String.eqb key "e" then
    mkState (set_e true (keys m)) (inputSeq m) (lastSentInput m)
      (if negb (key_e (keys m)) then true else eKeyPressed m)
      (hKeyPressed m) (qKeyPressed m)
  else if String.eqb key "h" then
    mkState (set_h true (keys m)) (inputSeq m) (lastSentInput m)
      (eKeyPressed m)
      (if negb (key_h (keys m)) then true else hKeyPressed m)
      (qKeyPressed m)
  else if String.eqb key "q" then
    mkState (set_q true (keys m)) (inputSeq m) (lastSentInput m)
      (eKeyPressed m) (hKeyPressed m)
      (if negb (key_q (keys m)) then true else qKeyPressed m)
  else m.

Definition handleKeyUp (e_key : string) (m : State) : State :=
  let key := toLowerCase e_key in
  if String.eqb key "arrowup" || String.eqb key "w" then
    set_keys (set_vertical_up false false (keys m)) m
  else if String.eqb key "arrowdown" || String.eqb key "s" then
    set_keys (set_vertical_down false false (keys m)) m
  else if String.eqb key "arrowleft" || String.eqb key "a" then
    set_keys (set_horizontal_left false false (keys m)) m
  else if String.eqb key "arrowright" || String.eqb key "d" then
    set_keys (set_horizontal_right false false (keys m)) m
  else if String.eqb key "e" then set_keys (set_e false (keys m)) m
  else if String.eqb key "h" then set_keys (set_h false (keys m)) m
  else if String.eqb key "q" then set_keys (set_q false (keys m)) m
  else m.

(** [getInput]: the packet [{keys, seq, timestamp}] and the manager with
    its sequence number advanced. *)
Definition getInput (now : Z) (m : State) : (KeyState * Z * Z) * State :=
  ((keys m, inputSeq m, now),
   mkState (keys m) (inputSeq m + 1)%Z (lastSentInput m)
     (eKeyPressed m) (hKeyPressed m) (qKeyPressed m)).

Definition hasAnyMovementKey (m : State) : bool :=
  key_up (keys m) || key_down (keys m) || key_left (keys m) || key_right (keys m)
  || key_w (keys m) || key_a (keys m) || key_s (keys m) || key_d (keys m).

(** [wasEPressed]: the answer and the manager with the flag cleared. *)
Definition wasEPressed (m : State) : bool * State :=
  if eKeyPressed m then
    (true, mkState (keys m) (inputSeq m) (lastSentInput m) false
             (hKeyPressed m) (qKeyPressed m))
  else (false, m).

(** What the page does to the manager, one call at a time. *)
Inductive Call :=
| keydown (e_key : string)
| keyup (e_key : string)
| pollInput (now : Z)
| pollE.

Definition dispatch (m : State) (c : Call) : State :=
  match c with
  | keydown k => handleKeyDown k m
  | keyup k => handleKeyUp k m
  | pollInput now => snd (getInput now m)
  | pollE => snd (wasEPressed m)
  end.

(** The key flags as they arrive at the server: [handleInput] stores the
    packet and [processPlayerInput] reads these nine. *)
Definition wireKeys (k : KeyState) : Keys :=
  mkKeys (key_up k) (key_down k) (key_left k) (key_right k)
    (key_w k) (key_a k) (key_s k) (key_d k) (key_e k).

(** The same packet with the letter flags cleared. *)
Definition arrowsOnly (k : KeyState) : Keys :=
  mkKeys (key_up k) (key_down k) (key_left k) (key_right k)
    false false false false (key_e k).

End InputManager.

(** A letter flag is only ever set together with its direction flag. *)
Definition lettersFollow (k : InputManager.KeyState) : Prop :=
  (InputManager.key_w k = true -> InputManager.key_up k = true)
  /\ (InputManager.key_s k = true -> InputManager.key_down k = true)
  /\ (InputManager.key_a k = true -> InputManager.key_left k = true)
  /\ (InputManager.key_d k = true -> InputManager.key_right k = true).

(** * Further scenarios *)

(** A connection that has not joined. *)
Definition visitor : GameState :=
  fst (run (startServer 1000 "" [] [] []) [ Connect 1 ]).

(** One occupant, joined at the first spawn point. *)
Definition adaJoined : GameState :=
  fst (run (startServer 1000 "" [] [] [])
         [ Connect 1; Message 1 1010 "a" (Join (Some "Ada") "1" None) ]).

Definition adaRecord : Player :=
  p_set_pos (fst (spawnPosition 0)) (snd (spawnPosition 0))
    (createPlayerState "player_1010_a" "Ada" "1" 1010).

(** The same with the tile (5, 7) loaded at start-up. *)
Definition adaTiled : GameState :=
  fst (run (startServer 1000 "" [] [(5, 7)%Z] [])
         [ Connect 1; Message 1 1010 "a" (Join (Some "Ada") "1" None) ]).

Definition noteAt (px py : Q) : RawObject :=
  mkRaw None (Some px) (Some py) None None (Some "pic.png") (Some "hello") None None None None.

Definition placedNote : DisplayObject :=
  mkObject (fresh_object_id 1020 "o1") 500 500 OBJECT_WIDTH OBJECT_HEIGHT
    "pic.png" "hello" 1020 1020.

Definition shelf : list DisplayObject :=
  [ mkObject "o1" 100 100 48 72 "a.png" "one" 5 6;
    mkObject "o2" 400 400 48 72 "b.png" "two" 7 8 ].

Definition savedAda : SavedPlayer := mkSavedPlayer "p1" "Ada" "1" 100 100.

(** A registered occupant who is away, and an open connection. *)
Definition returning : GameState :=
  fst (run (startServer 1000 "" [savedAda] [] []) [ Connect 1 ]).

Definition besideBench : SavedPlayer := mkSavedPlayer "A" "A" "1" 2760 1560.

(** An occupant standing 49 units below the bench. *)
Definition benchVisitor : GameState :=
  fst (run (startServer 1000 "" [besideBench] [] [])
         [ Connect 1; Message 1 1010 "" (Join None "1" (Some "A")) ]).

Definition benchRecord : Player :=
  p_set_identity "A" "1" (p_set_connected true (restorePlayer 1000 besideBench)).

Definition benchSeated : GameState := fst (handleBenchSit 1 1020 benchVisitor).

Definition eastKeys : Keys := mkKeys false false false true false false false false false.

(** The occupant of [adaJoined] holding the right arrow. *)
Definition adaWalking : GameState :=
  fst (step adaJoined (Message 1 1020 "" (InputMsg (Some (mkInput eastKeys 1 1020))))).

(** * Properties *)

(** ** Arithmetic helpers *)

Lemma Qltb_true_iff (a b : Q) : Qltb a b = true <-> a < b.
Proof.
  unfold Qltb. rewrite negb_true_iff.
  split; intro H.
  - apply Qnot_le_lt. intro Hle. apply Qle_bool_iff in Hle. congruence.
  - destruct (Qle_bool b a) eqn:E; [|reflexivity].
    apply Qle_bool_iff in E. exfalso. apply (Qlt_not_le _ _ H E).
Qed.

Lemma Qltb_false_iff (a b : Q) : Qltb a b = false <-> b <= a.
Proof.
  unfold Qltb. rewrite negb_false_iff. apply Qle_bool_iff.
Qed.

Lemma Qle_bool_false_lt (a b : Q) : Qle_bool a b = false -> b < a.
Proof.
  intro H. apply Qnot_le_lt. intro Hle. apply Qle_bool_iff in Hle. congruence.
Qed.

Lemma Math_max_min_bounds (w v : Q) :
  0 <= w -> 0 <= Math_max 0 (Math_min w v) <= w.
Proof.
  intro Hw. unfold Math_max, Math_min.
  destruct (Qle_bool w v) eqn:E1.
  - rewrite (proj2 (Qle_bool_iff 0 w) Hw). split; [assumption | apply Qle_refl].
  - apply Qle_bool_false_lt in E1.
    destruct (Qle_bool 0 v) eqn:E2.
    + apply Qle_bool_iff in E2. split; [assumption | apply Qlt_le_weak; assumption].
    + split; [apply Qle_refl | assumption].
Qed.

Lemma Math_max_min_id (w v : Q) :
  0 <= v <= w -> Math_max 0 (Math_min w v) == v.
Proof.
  intros [H0 Hw]. unfold Math_max, Math_min.
  destruct (Qle_bool w v) eqn:E1.
  - apply Qle_bool_iff in E1.
    assert (Hz : 0 <= w) by (eapply Qle_trans; eassumption).
    rewrite (proj2 (Qle_bool_iff 0 w) Hz). apply Qle_antisym; assumption.
  - rewrite (proj2 (Qle_bool_iff 0 v) H0). reflexivity.
Qed.

Lemma WORLD_WIDTH_nonneg : 0 <= WORLD_WIDTH.
Proof. discriminate. Qed.

Lemma WORLD_HEIGHT_nonneg : 0 <= WORLD_HEIGHT.
Proof. discriminate. Qed.

Lemma Qceiling_le_iff (q : Q) (n : Z) : (Qceiling q <= n)%Z <-> q <= inject_Z n.
Proof.
  split; intro H.
  - eapply Qle_trans; [apply Qle_ceiling|].
    rewrite <- Zle_Qle. assumption.
  - rewrite <- (Qceiling_Z n). apply Qceiling_resp_le. assumption.
Qed.

(** Comparing [Math_sqrt] with a non-negative integer threshold is
    comparing the argument with the square of the threshold. *)
Lemma Math_sqrt_le_iff (q : Q) (c : Z) :
  (0 <= c)%Z -> (Math_sqrt q <= inject_Z c <-> q <= inject_Z (c * c)).
Proof.
  intro Hc. unfold Math_sqrt.
  set (S := sqrt_scale).
  assert (HS : (0 < S)%Z) by reflexivity.
  set (a := Qceiling (q * inject_Z (S * S))).
  assert (Hstep1 : Z.sqrt_up a # Z.to_pos S <= inject_Z c <-> (Z.sqrt_up a <= c * S)%Z).
  { unfold Qle, inject_Z. cbn [Qnum Qden]. rewrite Z2Pos.id by assumption. lia. }
  rewrite Hstep1.
  assert (Hstep2 : (Z.sqrt_up a <= c * S)%Z <-> (a <= (c * S) * (c * S))%Z).
  { destruct (Z.le_gt_cases 0 a) as [Ha | Ha].
    - symmetry. apply Z.sqrt_up_le_square; lia.
    - rewrite Z.sqrt_up_eqn0 by lia. split; intros _; nia. }
  rewrite Hstep2. unfold a. rewrite Qceiling_le_iff.
  assert (HSS : 0 < inject_Z (S * S)) by reflexivity.
  replace ((c * S) * (c * S))%Z with ((c * c) * (S * S))%Z by ring.
  assert (E : inject_Z (c * c * (S * S)) == inject_Z (c * c) * inject_Z (S * S))
    by (rewrite inject_Z_mult; reflexivity).
  rewrite E. apply Qmult_le_r. assumption.
Qed.

Lemma Math_sqrt_gt_iff (q : Q) (c : Z) :
  (0 <= c)%Z -> (inject_Z c < Math_sqrt q <-> inject_Z (c * c) < q).
Proof.
  intro Hc. pose proof (Math_sqrt_le_iff q c Hc) as H.
  split; intro Hlt.
  - apply Qnot_le_lt. intro Hle. apply H in Hle. apply (Qlt_not_le _ _ Hlt Hle).
  - apply Qnot_le_lt. intro Hle. apply H in Hle. apply (Qlt_not_le _ _ Hlt Hle).
Qed.

(** ** The player registry as a list *)

Lemma get_player_id (i : string) (l : list Player) (p : Player) :
  get_player i l = Some p -> id p = i.
Proof.
  unfold get_player. intro H. apply find_some in H. destruct H as [_ H].
  apply String.eqb_eq in H. assumption.
Qed.

Lemma get_player_In (i : string) (l : list Player) (p : Player) :
  get_player i l = Some p -> In p l.
Proof.
  unfold get_player. intro H. apply find_some in H. tauto.
Qed.

Lemma get_player_None (i : string) (l : list Player) :
  get_player i l = None <-> ~ In i (map id l).
Proof.
  induction l as [|q l IH]; simpl.
  - tauto.
  - destruct (String.eqb (id q) i) eqn:E.
    + apply String.eqb_eq in E. split; [discriminate | intro H; exfalso; apply H; left; assumption].
    + apply String.eqb_neq in E. rewrite IH. tauto.
Qed.

Lemma In_get_player (l : list Player) (p : Player) :
  NoDup (map id l) -> In p l -> get_player (id p) l = Some p.
Proof.
  induction l as [|q l IH]; simpl; intros Hnd Hin; [contradiction|].
  inversion Hnd as [|? ? Hnotin Hnd']; subst.
  destruct Hin as [-> | Hin].
  - rewrite String.eqb_refl. reflexivity.
  - destruct (String.eqb (id q) (id p)) eqn:E.
    + apply String.eqb_eq in E. exfalso. apply Hnotin. rewrite E.
      apply in_map. assumption.
    + apply IH; assumption.
Qed.

Section Update.
Variables (i : string) (f : Player -> Player).
Hypothesis f_id : forall p, id (f p) = id p.

Lemma update_player_ids (l : list Player) :
  map id (update_player i f l) = map id l.
Proof.
  induction l as [|q l IH]; simpl; [reflexivity|].
  destruct (String.eqb (id q) i); simpl; [rewrite f_id | rewrite IH]; reflexivity.
Qed.

Lemma get_update_same (l : list Player) :
  get_player i (update_player i f l) = option_map f (get_player i l).
Proof.
  induction l as [|q l IH]; simpl; [reflexivity|].
  destruct (String.eqb (id q) i) eqn:E; simpl.
  - rewrite f_id, E. reflexivity.
  - rewrite E. assumption.
Qed.

Lemma get_update_other (j : string) (l : list Player) :
  j <> i -> get_player j (update_player i f l) = get_player j l.
Proof.
  intro Hne. induction l as [|q l IH]; simpl; [reflexivity|].
  destruct (String.eqb (id q) i) eqn:E; simpl.
  - rewrite f_id. apply String.eqb_eq in E.
    assert (En : String.eqb (id q) j = false) by (apply String.eqb_neq; congruence).
    rewrite En. reflexivity.
  - destruct (String.eqb (id q) j); [reflexivity | assumption].
Qed.
End Update.

(** Every record of [update_player i f l] is the record of [l] at the same
    place, or its image by [f] when that record has key [i]. *)
Lemma Forall2_update_player (R : Player -> Player -> Prop) (i : string)
  (f : Player -> Player) (l : list Player) :
  (forall p, In p l -> R p p) ->
  (forall p, get_player i l = Some p -> R p (f p)) ->
  Forall2 R l (update_player i f l).
Proof.
  induction l as [|q l IH]; simpl; intros Hrefl Hf; [constructor|].
  destruct (String.eqb (id q) i) eqn:E.
  - constructor.
    + apply Hf. reflexivity.
    + clear IH Hf. induction l as [|r l IHl]; constructor.
      * apply Hrefl. right. left. reflexivity.
      * apply IHl. intros p [Hp | Hp]; apply Hrefl; [left | right; right]; assumption.
  - constructor.
    + apply Hrefl. left. reflexivity.
    + apply IH.
      * intros p Hp. apply Hrefl. right. assumption.
      * intros p Hp. apply Hf. assumption.
Qed.

Lemma Forall2_map_self (R : Player -> Player -> Prop) (h : Player -> Player)
  (l : list Player) :
  (forall p, In p l -> R p (h p)) -> Forall2 R l (map h l).
Proof.
  induction l as [|q l IH]; simpl; intro H; constructor.
  - apply H. left. reflexivity.
  - apply IH. intros p Hp. apply H. right. assumption.
Qed.

Lemma Forall2_refl_on (R : Player -> Player -> Prop) (l : list Player) :
  (forall p, In p l -> R p p) -> Forall2 R l l.
Proof.
  intro H. rewrite <- (map_id l) at 2. apply Forall2_map_self. assumption.
Qed.

(** ** What one event does to the registry *)

Lemma Forall2_update_player2 (R : Player -> Player -> Prop) (i j : string)
  (f g : Player -> Player) (l : list Player) :
  i <> j ->
  (forall p, id (f p) = id p) ->
  (forall p, In p l -> R p p) ->
  (forall p, get_player i l = Some p -> R p (f p)) ->
  (forall p, get_player j l = Some p -> R p (g p)) ->
  Forall2 R l (update_player j g (update_player i f l)).
Proof.
  intros Hij Hfid. induction l as [|q l IH]; simpl; intros Hrefl Hf Hg; [constructor|].
  assert (Hrefl' : forall p, In p l -> R p p) by (intros p Hp; apply Hrefl; right; assumption).
  destruct (String.eqb (id q) i) eqn:Ei; simpl.
  - rewrite Hfid. apply String.eqb_eq in Ei.
    assert (Ej : String.eqb (id q) j = false) by (apply String.eqb_neq; congruence).
    rewrite Ej in *. constructor.
    + apply Hf. reflexivity.
    + apply Forall2_update_player; assumption.
  - destruct (String.eqb (id q) j) eqn:Ej.
    + constructor.
      * apply Hg. reflexivity.
      * apply Forall2_update_player; assumption.
    + constructor.
      * apply Hrefl. left. reflexivity.
      * apply IH; assumption.
Qed.

Lemma players_assignFollowers (s : GameState) :
  players (assignFollowersToPlayers s) = players s.
Proof.
  unfold assignFollowersToPlayers. destruct (getConnectedPlayers s); reflexivity.
Qed.

Lemma players_gameTick (now : Z) (s : GameState) :
  players (fst (gameTick now s))
  = map (fun p => tickPlayer (registry s) now (expireHug now p)) (players s).
Proof.
  unfold gameTick. simpl. rewrite map_map. reflexivity.
Qed.

Lemma filter_In_first {A : Type} (f : A -> bool) (l : list A) (a : A) (rest : list A) :
  filter f l = a :: rest -> In a l /\ f a = true.
Proof.
  intro H. apply filter_In. rewrite H. left. reflexivity.
Qed.

Lemma negb_false_true (b : bool) : negb b = false -> b = true.
Proof. destruct b; [reflexivity | discriminate]. Qed.

Lemma handleHug_mutation (c : nat) (now : Z) (s : GameState) :
  uniqueIds s ->
  Forall2 (Mutation (players s)) (players s) (players (fst (handleHug c now s))).
Proof.
  intro Hnd. unfold handleHug.
  assert (Hsame : Forall2 (Mutation (players s)) (players s) (players s))
    by (apply Forall2_refl_on; intros; constructor).
  destruct (negb (truthy_opt (client_playerId c s))); [exact Hsame|].
  destruct (client_playerId c s) as [pid|]; [|exact Hsame].
  destruct (get_player pid (players s)) as [player|] eqn:Hget; [|exact Hsame].
  destruct (negb (connected player)) eqn:Hconn; [exact Hsame|].
  destruct (hugging player); [exact Hsame|].
  destruct (filter _ (players s)) as [|other rest] eqn:Hf; [exact Hsame|].
  destruct (Qltb _ _); [exact Hsame|].
  destruct (hugging other); [exact Hsame|].
  simpl.
  apply filter_In_first in Hf. destruct Hf as [Hin Hcond].
  apply andb_true_iff in Hcond. destruct Hcond as [Hoc Hne].
  apply negb_true_iff, String.eqb_neq in Hne.
  apply negb_false_true in Hconn.
  pose proof (get_player_In _ _ _ Hget) as Hpin.
  apply Forall2_update_player2.
  - congruence.
  - reflexivity.
  - intros; constructor.
  - intros p Hp. rewrite (get_player_id _ _ _ Hget) in Hp.
    assert (p = player) by congruence. subst p.
    apply mut_hug; assumption.
  - intros p Hp. rewrite (In_get_player _ _ Hnd Hin) in Hp.
    injection Hp as <-. apply mut_hug; assumption.
Qed.

Lemma update_mutation (s : GameState) (pid : string) (f : Player -> Player) :
  (forall p, get_player pid (players s) = Some p -> Mutation (players s) p (f p)) ->
  Forall2 (Mutation (players s)) (players s) (update_player pid f (players s)).
Proof.
  intro H. apply Forall2_update_player; [intros; constructor | assumption].
Qed.

(** Every event that is not a join changes each occupant record by one
    [Mutation], and neither adds nor removes a record. *)
Lemma step_mutation (s : GameState) (e : Event) :
  uniqueIds s -> isJoin e = false ->
  Forall2 (Mutation (players s)) (players s) (players (fst (step s e))).
Proof.
  intros Hnd Hj.
  assert (Hsame : Forall2 (Mutation (players s)) (players s) (players s))
    by (apply Forall2_refl_on; intros; constructor).
  destruct e as [c | c now rnd m | c | now]; cbn [step].
  - destruct (is_open c s); exact Hsame.
  - destruct (is_open c s); [|exact Hsame].
    destruct m; simpl in Hj; try discriminate; cbn [handleMessage].
    + (* input *)
      unfold handleInput.
      destruct (client_playerId c s) as [pid|]; [|exact Hsame].
      destruct (negb (truthy pid)); [exact Hsame|].
      destruct (get_player pid (players s)) as [player|] eqn:Hget; [|exact Hsame].
      destruct (negb (connected player)) eqn:Hc; [exact Hsame|].
      simpl. apply update_mutation. intros p Hp.
      assert (p = player) by congruence. subst p.
      apply mut_input. apply negb_false_true. assumption.
    + (* reset_position *)
      unfold handleResetPosition.
      destruct (negb (truthy_opt (client_playerId c s))); [exact Hsame|].
      destruct (client_playerId c s) as [pid|]; [|exact Hsame].
      destruct (get_player pid (players s)) as [player|] eqn:Hget; [|exact Hsame].
      destruct (negb (connected player)) eqn:Hc; [exact Hsame|].
      simpl. apply update_mutation. intros p Hp.
      assert (p = player) by congruence. subst p.
      apply mut_reset. apply negb_false_true. assumption.
    + (* place_collider *)
      unfold handlePlaceCollider.
      destruct (negb (truthy_opt (client_playerId c s))); [exact Hsame|].
      destruct col as [col|]; [|exact Hsame]. destruct row as [row|]; [|exact Hsame].
      destruct (WorldMap.addColliderTile (registry s) col row) as [r added].
      destruct (negb added); exact Hsame.
    + (* remove_collider *)
      unfold handleRemoveCollider.
      destruct (negb (truthy_opt (client_playerId c s))); [exact Hsame|].
      destruct col as [col|]; [|exact Hsame]. destruct row as [row|]; [|exact Hsame].
      destruct (WorldMap.removeColliderTile (registry s) col row) as [r removed].
      destruct (negb removed); exact Hsame.
    + (* place_object *)
      unfold handlePlaceObject.
      destruct (negb (truthy_opt (client_playerId c s))); [exact Hsame|].
      destruct (normalizeObjectData now rnd (placeRaw raw)); [|exact Hsame].
      destruct (outOfWorld d); [exact Hsame|].
      destruct (existsb _ (objects s)); exact Hsame.
    + (* remove_object *)
      unfold handleRemoveObject.
      destruct (negb (truthy_opt (client_playerId c s))); [exact Hsame|].
      match goal with |- context [match ?o with Some _ => _ | None => (s, [])  end] =>
        destruct o end; exact Hsame.
    + (* hug *) apply handleHug_mutation. assumption.
    + (* bench_sit *)
      unfold handleBenchSit.
      destruct (negb (truthy_opt (client_playerId c s))); [exact Hsame|].
      destruct (client_playerId c s) as [pid|]; [|exact Hsame].
      destruct (get_player pid (players s)) as [player|] eqn:Hget; [|exact Hsame].
      destruct (negb (connected player)) eqn:Hc; [exact Hsame|].
      destruct (sitting player); [exact Hsame|].
      destruct (Qltb 100 _); [exact Hsame|].
      destruct (2 <=? sittingCount (players s))%nat; [exact Hsame|].
      simpl. apply update_mutation. intros p Hp.
      assert (p = player) by congruence. subst p.
      apply negb_false_true in Hc.
      destruct (Nat.eqb (sittingCount (players s)) 0).
      * apply (mut_sit _ _ false). assumption.
      * apply (mut_sit _ _ true). assumption.
    + (* bench_stand *)
      unfold handleBenchStand.
      destruct (negb (truthy_opt (client_playerId c s))); [exact Hsame|].
      destruct (client_playerId c s) as [pid|]; [|exact Hsame].
      destruct (get_player pid (players s)) as [player|] eqn:Hget; [|exact Hsame].
      destruct (negb (connected player)) eqn:Hc; [exact Hsame|].
      destruct (negb (sitting player)); [exact Hsame|].
      simpl. apply update_mutation. intros p Hp.
      assert (p = player) by congruence. subst p.
      apply mut_stand. apply negb_false_true. assumption.
    + exact Hsame.
    + exact Hsame.
  - (* close *)
    destruct (is_open c s); [|exact Hsame].
    unfold handleDisconnect.
    destruct (client_playerId c s) as [pid|]; [|exact Hsame].
    destruct (negb (truthy pid)); [exact Hsame|].
    destruct (get_player pid (players s)) as [player|] eqn:Hget; [|exact Hsame].
    simpl. rewrite players_assignFollowers. simpl.
    apply update_mutation. intros p Hp. apply mut_disconnect.
  - (* tick *)
    rewrite players_gameTick. apply Forall2_map_self. intros p _. apply mut_tick.
Qed.

(** ** Consequences for a single record *)

Lemma processPlayerInput_inWorld (r : WorldMap.Registry) (now : Z) (p : Player)
  (input : Input) : inWorld (processPlayerInput r now p input).
Proof.
  unfold processPlayerInput, inWorld.
  destruct (inputVelocity (keys input)) as [ivx ivy].
  destruct (if Qneqb ivx 0 then _ else _) as [finalX pvx].
  destruct (if Qneqb ivy 0 then _ else _) as [finalY pvy].
  simpl. split.
  - apply Math_max_min_bounds, WORLD_WIDTH_nonneg.
  - apply Math_max_min_bounds, WORLD_HEIGHT_nonneg.
Qed.

Lemma processPlayerInput_fields (r : WorldMap.Registry) (now : Z) (p : Player)
  (input : Input) :
  let p' := processPlayerInput r now p input in
  id p' = id p /\ connected p' = connected p /\ hugging p' = hugging p
  /\ hugEndTime p' = hugEndTime p /\ sitting p' = sitting p
  /\ lastInput p' = lastInput p
  /\ lastInputSeq p' = Z.max (lastInputSeq p) (seq input).
Proof.
  unfold processPlayerInput.
  destruct (inputVelocity (keys input)) as [ivx ivy].
  destruct (if Qneqb ivx 0 then _ else _) as [finalX pvx].
  destruct (if Qneqb ivy 0 then _ else _) as [finalY pvy].
  simpl. repeat split; reflexivity.
Qed.

Lemma expireHug_fields (now : Z) (p : Player) :
  let p' := expireHug now p in
  id p' = id p /\ connected p' = connected p /\ sitting p' = sitting p
  /\ lastInput p' = lastInput p /\ lastInputSeq p' = lastInputSeq p
  /\ x p' = x p /\ y p' = y p.
Proof.
  unfold expireHug. destruct (hugExpired now p); simpl; repeat split; reflexivity.
Qed.

Lemma tickPlayer_fields (r : WorldMap.Registry) (now : Z) (p : Player) :
  let p' := tickPlayer r now p in
  id p' = id p /\ connected p' = connected p /\ hugging p' = hugging p
  /\ hugEndTime p' = hugEndTime p /\ sitting p' = sitting p
  /\ (lastInputSeq p <= lastInputSeq p')%Z.
Proof.
  unfold tickPlayer.
  destruct (connected p) eqn:Ec;
    [|simpl; rewrite Ec; repeat split; try reflexivity; lia].
  destruct (hugging p || sitting p);
    [simpl; rewrite Ec; repeat split; try reflexivity; lia|].
  destruct (lastInput p) as [input|];
    [|simpl; rewrite Ec; repeat split; try reflexivity; lia].
  pose proof (processPlayerInput_fields r now p input) as H. simpl in H.
  destruct H as (H1 & H2 & H3 & H4 & H5 & H6 & H7).
  simpl. rewrite <- Ec. repeat split; try assumption. rewrite H7. lia.
Qed.

Lemma tickPlayer_inWorld (r : WorldMap.Registry) (now : Z) (p : Player) :
  inWorld p -> inWorld (tickPlayer r now p).
Proof.
  intro H. unfold tickPlayer.
  destruct (connected p); [|assumption].
  destruct (hugging p || sitting p); [exact H|].
  destruct (lastInput p); [apply processPlayerInput_inWorld | exact H].
Qed.

Lemma mutation_id (l : list Player) (p p' : Player) :
  Mutation l p p' -> id p' = id p.
Proof.
  intro M. destruct M; try reflexivity.
  pose proof (tickPlayer_fields r now (expireHug now p)) as H.
  pose proof (expireHug_fields now p) as H'. simpl in *.
  destruct H as [H _]. destruct H' as [H' _]. congruence.
Qed.

Lemma mutation_seq (l : list Player) (p p' : Player) :
  Mutation l p p' -> (lastInputSeq p <= lastInputSeq p')%Z.
Proof.
  intro M. destruct M; simpl; try lia.
  pose proof (tickPlayer_fields r now (expireHug now p)) as H.
  pose proof (expireHug_fields now p) as H'. simpl in *.
  destruct H as (_ & _ & _ & _ & _ & H).
  destruct H' as (_ & _ & _ & _ & H' & _). lia.
Qed.

Lemma mutation_connected (l : list Player) (p p' : Player) :
  Mutation l p p' -> connected p' = true -> connected p = true.
Proof.
  intro M. destruct M; simpl; try tauto; try discriminate.
  pose proof (tickPlayer_fields r now (expireHug now p)) as H.
  pose proof (expireHug_fields now p) as H'. simpl in *.
  destruct H as (_ & H & _). destruct H' as (_ & H' & _). congruence.
Qed.

(** A disconnected occupant is left untouched by every event but a join. *)
Lemma mutation_disconnected (l : list Player) (p p' : Player) :
  Mutation l p p' -> connected p = false -> p' = p.
Proof.
  intro M. destruct M; intro Hc; try reflexivity; try congruence.
  - unfold expireHug, hugExpired. rewrite Hc. simpl.
    unfold tickPlayer. rewrite Hc. reflexivity.
  - destruct p; simpl in *. subst. reflexivity.
Qed.

Lemma seat_inWorld (left : bool) :
  0 <= BENCH_X + (if left then - BENCH_SEAT_OFFSET else BENCH_SEAT_OFFSET) <= WORLD_WIDTH
  /\ 0 <= BENCH_Y <= WORLD_HEIGHT.
Proof. destruct left; repeat split; discriminate. Qed.

Lemma average_between (lo hi a b : Q) :
  lo <= a <= hi -> lo <= b <= hi -> lo <= (a + b) / 2 <= hi.
Proof.
  intros [Ha1 Ha2] [Hb1 Hb2].
  assert (E : (a + b) / 2 == (1 # 2) * a + (1 # 2) * b) by field.
  rewrite E. split; lra.
Qed.

Lemma mutation_inWorld (l : list Player) (p p' : Player) :
  Forall inWorld l -> Mutation l p p' -> inWorld p -> inWorld p'.
Proof.
  intros Hl M Hp. destruct M; try exact Hp.
  - apply tickPlayer_inWorld. unfold expireHug.
    destruct (hugExpired now p); exact Hp.
  - rewrite Forall_forall in Hl.
    destruct Hp as [Hx _]. split; [exact Hx|]. simpl.
    apply average_between; [apply (Hl a) | apply (Hl b)]; assumption.
  - apply seat_inWorld.
  - unfold standUp, inWorld. simpl.
    destruct (Qltb (x p - BENCH_X) 0); repeat split; discriminate.
  - unfold inWorld; simpl; repeat split; discriminate.
Qed.

(** ** Joins *)

Lemma player_set_ids (p : Player) (l : list Player) (i : string) :
  In i (map id (player_set p l)) <-> In i (map id l) \/ i = id p.
Proof.
  induction l as [|q l IH]; simpl.
  - intuition.
  - destruct (String.eqb (id q) (id p)) eqn:E; simpl.
    + apply String.eqb_eq in E. rewrite E. intuition.
    + rewrite IH. intuition.
Qed.

Lemma NoDup_player_set (p : Player) (l : list Player) :
  NoDup (map id l) -> NoDup (map id (player_set p l)).
Proof.
  induction l as [|q l IH]; simpl; intro H.
  - constructor; [intros [] | constructor].
  - inversion H as [|? ? Hnotin Hnd]; subst.
    destruct (String.eqb (id q) (id p)) eqn:E; simpl.
    + apply String.eqb_eq in E. rewrite <- E. constructor; assumption.
    + apply String.eqb_neq in E. constructor; [|apply IH; assumption].
      rewrite player_set_ids. intros [Hin | Heq]; [contradiction | congruence].
Qed.

Lemma Forall_player_set (P : Player -> Prop) (p : Player) (l : list Player) :
  P p -> Forall P l -> Forall P (player_set p l).
Proof.
  intros Hp. induction l as [|q l IH]; simpl; intro H.
  - constructor; [assumption | constructor].
  - inversion H; subst.
    destruct (String.eqb (id q) (id p)); constructor; auto.
Qed.

Lemma count_player_set (p : Player) (l : list Player) :
  (List.length (filter connected (player_set p l))
   <= S (List.length (filter connected l)))%nat.
Proof.
  induction l as [|q l IH]; simpl.
  - destruct (connected p); simpl; lia.
  - destruct (String.eqb (id q) (id p)); simpl.
    + destruct (connected p), (connected q); simpl; lia.
    + destruct (connected q); simpl; lia.
Qed.

Lemma handleJoin_players (c : nat) (now : Z) (rnd : string) (n : option string)
  (ch : string) (pid : option string) (s : GameState) :
  let s' := fst (handleJoin c now rnd n ch pid s) in
  players s' = players s \/
  ((connectedCount s < 2)%nat /\
   exists p, players s' = player_set p (players s) /\ connected p = true
             /\ JoinRecord now (players s) p).
Proof.
  unfold handleJoin. fold (connectedCount s).
  destruct (MAX_PLAYERS <=? connectedCount s)%nat eqn:Efull; [left; reflexivity|].
  apply Nat.leb_gt in Efull. right. split; [exact Efull|].
  set (playerId := match pid with Some _ => _ | None => _ end).
  destruct (get_player playerId (players s)) as [q|] eqn:Hget.
  - eexists. cbn [fst]. rewrite players_assignFollowers. simpl. split; [reflexivity|].
    split; [reflexivity|]. left. exists q. do 2 eexists.
    simpl. rewrite (get_player_id _ _ _ Hget). split; [exact Hget | reflexivity].
  - destruct (spawnPosition _) as [sx sy] eqn:Hsp.
    eexists. cbn [fst]. rewrite players_assignFollowers. simpl. split; [reflexivity|].
    split; [reflexivity|]. right. exists (connectedCount s). do 2 eexists.
    split; [simpl; exact Hget|]. rewrite Hsp. reflexivity.
Qed.

Lemma spawnPosition_inWorld (k : nat) :
  0 <= fst (spawnPosition k) <= WORLD_WIDTH /\ 0 <= snd (spawnPosition k) <= WORLD_HEIGHT.
Proof.
  unfold spawnPosition.
  destruct k as [|k]; [repeat split; discriminate|].
  replace (Nat.min (S k) (List.length SPAWN_POINTS - 1)) with 1%nat
    by (simpl; destruct k; reflexivity).
  repeat split; discriminate.
Qed.

Lemma JoinRecord_inWorld (now : Z) (l : list Player) (p : Player) :
  Forall inWorld l -> JoinRecord now l p -> inWorld p.
Proof.
  intros Hl [(q & n & ch & Hget & ->) | (k & n & ch & _ & ->)].
  - rewrite Forall_forall in Hl. apply (Hl q). eapply get_player_In. eassumption.
  - apply spawnPosition_inWorld.
Qed.

(** ** Invariants of the event loop *)

Lemma Forall2_ids (l0 l l' : list Player) :
  Forall2 (Mutation l0) l l' -> map id l' = map id l.
Proof.
  intro H.
  induction H as [|p p' l l' M _ IH]; simpl; [reflexivity|].
  rewrite IH, (mutation_id _ _ _ M). reflexivity.
Qed.

Lemma Forall2_inWorld (l0 l l' : list Player) :
  Forall inWorld l0 -> Forall2 (Mutation l0) l l' -> Forall inWorld l -> Forall inWorld l'.
Proof.
  intros H0 H. induction H as [|p p' l l' M _ IH]; intro Hl; [constructor|].
  inversion Hl; subst. constructor; [|apply IH; assumption].
  apply (mutation_inWorld l0 p p'); assumption.
Qed.

Lemma Forall2_count (l0 l l' : list Player) :
  Forall2 (Mutation l0) l l' ->
  (List.length (filter connected l') <= List.length (filter connected l))%nat.
Proof.
  intro H. induction H as [|p p' l l' M _ IH]; simpl; [lia|].
  pose proof (mutation_connected _ _ _ M) as Hc.
  destruct (connected p'); [rewrite Hc by reflexivity|]; simpl; [lia|].
  destruct (connected p); simpl; lia.
Qed.

Lemma step_uniqueIds (s : GameState) (e : Event) :
  uniqueIds s -> uniqueIds (fst (step s e)).
Proof.
  intro Hnd. destruct (isJoin e) eqn:Ej.
  - destruct e as [| c now rnd [jn jc jp| | | | | | | | | | |] | |]; try discriminate.
    cbn [step]. destruct (is_open c s); [|assumption].
    cbn [handleMessage].
    pose proof (handleJoin_players c now rnd jn jc jp s) as H. cbv zeta in H.
    unfold uniqueIds.
    destruct H as [-> | (_ & p & -> & _)]; [assumption|].
    apply NoDup_player_set. assumption.
  - unfold uniqueIds. rewrite (Forall2_ids _ _ _ (step_mutation s e Hnd Ej)). assumption.
Qed.

Lemma step_count (s : GameState) (e : Event) :
  uniqueIds s -> (connectedCount s <= 2)%nat -> (connectedCount (fst (step s e)) <= 2)%nat.
Proof.
  intros Hnd Hc. destruct (isJoin e) eqn:Ej.
  - destruct e as [| c now rnd [jn jc jp| | | | | | | | | | |] | |]; try discriminate.
    cbn [step]. destruct (is_open c s); [|assumption].
    cbn [handleMessage].
    pose proof (handleJoin_players c now rnd jn jc jp s) as H. cbv zeta in H.
    unfold connectedCount in *.
    destruct H as [-> | (Hlt & p & -> & _)]; [assumption|].
    pose proof (count_player_set p (players s)). lia.
  - pose proof (Forall2_count _ _ _ (step_mutation s e Hnd Ej)).
    unfold connectedCount in *. lia.
Qed.

Lemma step_inWorld (s : GameState) (e : Event) :
  uniqueIds s -> Forall inWorld (players s) ->
  Forall inWorld (players (fst (step s e))).
Proof.
  intros Hnd Hw. destruct (isJoin e) eqn:Ej.
  - destruct e as [| c now rnd [jn jc jp| | | | | | | | | | |] | |]; try discriminate.
    cbn [step]. destruct (is_open c s); [|assumption].
    cbn [handleMessage].
    pose proof (handleJoin_players c now rnd jn jc jp s) as H. cbv zeta in H.
    destruct H as [-> | (_ & p & -> & _ & Hrec)]; [assumption|].
    apply Forall_player_set; [|assumption]. eapply JoinRecord_inWorld; eassumption.
  - eapply Forall2_inWorld; [eassumption | apply step_mutation; assumption | assumption].
Qed.

Theorem step_Inv (s : GameState) (e : Event) : Inv s -> Inv (fst (step s e)).
Proof.
  intros [Hnd Hc]. split; [apply step_uniqueIds | apply step_count]; assumption.
Qed.

Lemma run_app_fst (s : GameState) (es : list Event) (e : Event) :
  fst (run s (es ++ [e])) = fst (step (fst (run s es)) e).
Proof.
  revert s. induction es as [|e0 es IH]; intro s; simpl.
  - destruct (step s e). reflexivity.
  - destruct (step s e0) as [s1 o1]. specialize (IH s1).
    destruct (run s1 (es ++ [e])), (run s1 es). simpl in *. assumption.
Qed.

Theorem run_Inv (s : GameState) (es : list Event) : Inv s -> Inv (fst (run s es)).
Proof.
  revert s. induction es as [|e es IH]; intros s H; simpl; [assumption|].
  pose proof (step_Inv s e H) as H1.
  destruct (step s e) as [s1 o1]. specialize (IH s1 H1).
  destruct (run s1 es). assumption.
Qed.

Theorem run_inWorld (s : GameState) (es : list Event) :
  uniqueIds s -> Forall inWorld (players s) ->
  Forall inWorld (players (fst (run s es))).
Proof.
  revert s. induction es as [|e es IH]; intros s Hnd Hw; simpl; [assumption|].
  pose proof (step_uniqueIds s e Hnd) as Hnd1.
  pose proof (step_inWorld s e Hnd Hw) as Hw1.
  destruct (step s e) as [s1 o1]. specialize (IH s1 Hnd1 Hw1).
  destruct (run s1 es). assumption.
Qed.

(** ** The state after start-up *)

Lemma players_initializeObjects (now : Z) (rnd : string) (raws : list RawObject)
  (s : GameState) :
  players (initializeObjects now rnd raws s) = players s.
Proof.
  unfold initializeObjects.
  set (s0 := set_registry (set_objects s []) _).
  change (players s) with (players s0). clearbody s0.
  revert s0. induction raws as [|raw raws IH]; intro s0; simpl; [reflexivity|].
  rewrite IH.
  destruct (normalizeObjectData now rnd raw) as [o|]; [|reflexivity].
  destruct (get_object (o_id o) (objects s0)); reflexivity.
Qed.

Lemma players_startServer (now : Z) (rnd : string) (saved : list SavedPlayer)
  (tiles : list (Z * Z)) (raws : list RawObject) :
  players (startServer now rnd saved tiles raws)
  = fold_left (fun acc sv => player_set (restorePlayer now sv) acc) saved [].
Proof.
  unfold startServer. rewrite players_assignFollowers.
  unfold initializeFollowers. cbn [players set_followers].
  rewrite players_initializeObjects. reflexivity.
Qed.

Lemma restored_registry (now : Z) (saved : list SavedPlayer) (acc : list Player) :
  NoDup (map id acc) /\ Forall (fun p => connected p = false) acc ->
  let l := fold_left (fun acc sv => player_set (restorePlayer now sv) acc) saved acc in
  NoDup (map id l) /\ Forall (fun p => connected p = false) l.
Proof.
  revert acc. induction saved as [|sv saved IH]; intros acc H; simpl.
  - exact H.
  - apply IH. destruct H as (H1 & H3). split.
    + apply NoDup_player_set. assumption.
    + apply Forall_player_set; [reflexivity | assumption].
Qed.

Lemma restored_inWorld (now : Z) (saved : list SavedPlayer) (acc : list Player) :
  Forall savedInWorld saved -> Forall inWorld acc ->
  Forall inWorld (fold_left (fun acc sv => player_set (restorePlayer now sv) acc) saved acc).
Proof.
  intro Hs. revert acc. induction Hs as [|sv saved Hsv _ IH]; intros acc H; simpl.
  - exact H.
  - apply IH. apply Forall_player_set; [exact Hsv | assumption].
Qed.

Lemma filter_none (f : Player -> bool) (l : list Player) :
  Forall (fun p => f p = false) l -> filter f l = [].
Proof.
  induction 1 as [|p l Hp _ IH]; simpl; [reflexivity|]. rewrite Hp. assumption.
Qed.

Theorem startServer_Inv (now : Z) (rnd : string) (saved : list SavedPlayer)
  (tiles : list (Z * Z)) (raws : list RawObject) :
  Inv (startServer now rnd saved tiles raws).
Proof.
  unfold Inv, uniqueIds, connectedCount. rewrite players_startServer.
  destruct (restored_registry now saved []) as (H1 & H3).
  - split; constructor.
  - split; [assumption|]. rewrite (filter_none _ _ H3). simpl. lia.
Qed.

Theorem startServer_inWorld (now : Z) (rnd : string) (saved : list SavedPlayer)
  (tiles : list (Z * Z)) (raws : list RawObject) :
  Forall savedInWorld saved -> Forall inWorld (players (startServer now rnd saved tiles raws)).
Proof.
  intro Hs. rewrite players_startServer. apply restored_inWorld; [assumption | constructor].
Qed.

Theorem reachable_Inv (s : GameState) : reachable s -> Inv s.
Proof.
  intros (now & rnd & saved & tiles & raws & es & ->).
  apply run_Inv, startServer_Inv.
Qed.


(** ** Accepted joins *)

Lemma get_player_set (p : Player) (l : list Player) :
  get_player (id p) (player_set p l) = Some p.
Proof.
  induction l as [|q l IH]; simpl.
  - rewrite String.eqb_refl. reflexivity.
  - destruct (String.eqb (id q) (id p)) eqn:E; simpl.
    + rewrite String.eqb_refl. reflexivity.
    + rewrite E. assumption.
Qed.

Lemma client_playerId_set (c : nat) (pid : string) (s : GameState) :
  is_open c s = true -> client_playerId c (set_client_playerId c pid s) = Some pid.
Proof.
  unfold is_open, client_playerId, find_client, set_client_playerId. simpl.
  induction (clients s) as [|k ks IH]; simpl; [discriminate|].
  destruct (Nat.eqb (cl_conn k) c) eqn:E; simpl.
  - rewrite Nat.eqb_refl. reflexivity.
  - rewrite E. assumption.
Qed.

Lemma clients_assignFollowers (s : GameState) :
  clients (assignFollowersToPlayers s) = clients s.
Proof.
  unfold assignFollowersToPlayers. destruct (getConnectedPlayers s); reflexivity.
Qed.

(** The identifier [handleJoin] settles on. *)
Lemma joinPlayerId_cases (now : Z) (rnd : string) (pid : option string) (l : list Player) :
  let playerId :=
    match pid with
    | Some i =>
        if negb (truthy i) || negb (has_player i l) then fresh_player_id now rnd else i
    | None => fresh_player_id now rnd
    end in
  playerId = fresh_player_id now rnd
  \/ (exists i, pid = Some i /\ playerId = i /\ has_player i l = true).
Proof.
  destruct pid as [i|]; simpl; [|left; reflexivity].
  destruct (truthy i); simpl; [|left; reflexivity].
  destruct (has_player i l) eqn:E; simpl; [|left; reflexivity].
  right. exists i. repeat split. exact E.
Qed.

Lemma has_player_In (i : string) (l : list Player) :
  has_player i l = true <-> In i (map id l).
Proof.
  unfold has_player. pose proof (get_player_None i l) as H.
  destruct (get_player i l) eqn:E.
  - split; [intros _|reflexivity].
    apply in_map_iff. exists p. split.
    + eapply get_player_id; eassumption.
    + eapply get_player_In; eassumption.
  - split; [discriminate|]. intro Hin. exfalso. apply (proj1 H); [reflexivity | assumption].
Qed.

(** What an accepted join returns. *)
Lemma handleJoin_accepted (c : nat) (now : Z) (rnd : string) (n : option string)
  (ch : string) (pid : option string) (s : GameState) :
  (connectedCount s < 2)%nat ->
  exists playerId player s' t wp fo ob co rest,
    handleJoin c now rnd n ch pid s
    = (s', Send c (Welcome playerId t wp fo ob co) :: rest)
    /\ (playerId = fresh_player_id now rnd
        \/ (pid = Some playerId /\ has_player playerId (players s) = true))
    /\ id player = playerId
    /\ connected player = true
    /\ players s' = player_set player (players s)
    /\ (is_open c s = true -> client_playerId c s' = Some playerId).
Proof.
  intro Hlt. unfold handleJoin. fold (connectedCount s).
  assert (Efull : (MAX_PLAYERS <=? connectedCount s)%nat = false)
    by (apply Nat.leb_gt; exact Hlt).
  rewrite Efull.
  pose proof (joinPlayerId_cases now rnd pid (players s)) as Hid. cbv zeta in Hid.
  set (playerId := match pid with Some _ => _ | None => _ end) in *.
  set (player := match get_player playerId (players s) with Some _ => _ | None => _ end).
  exists playerId, player. do 7 eexists.
  split; [reflexivity|]. split; [|split; [|split; [|split]]].
  - destruct Hid as [Hid | (i & Hp & Hi & Hhas)]; [left; exact Hid|].
    right. rewrite Hi. split; assumption.
  - unfold player. destruct (get_player playerId (players s)) as [q|] eqn:Hget.
    + simpl. eapply get_player_id. eassumption.
    + destruct (spawnPosition _). reflexivity.
  - unfold player. destruct (get_player playerId (players s)) as [q|].
    + reflexivity.
    + destruct (spawnPosition _). reflexivity.
  - rewrite players_assignFollowers. reflexivity.
  - intro Hopen. unfold client_playerId, find_client.
    rewrite clients_assignFollowers.
    apply (client_playerId_set c playerId (set_players s (player_set player (players s)))).
    exact Hopen.
Qed.

(** ** Identifiers in the registry *)

Lemma step_ids (s : GameState) (e : Event) (i : string) :
  uniqueIds s ->
  In i (map id (players (fst (step s e)))) ->
  In i (map id (players s)) \/ issued [e] i.
Proof.
  intros Hnd Hin. destruct (isJoin e) eqn:Ej.
  - destruct e as [| c now rnd [jn jc jp| | | | | | | | | | |] | |]; try discriminate.
    cbn [step] in Hin. destruct (is_open c s); [|left; assumption].
    cbn [handleMessage] in Hin.
    destruct (Nat.lt_ge_cases (connectedCount s) 2) as [Hlt | Hge].
    + destruct (handleJoin_accepted c now rnd jn jc jp s Hlt)
        as (pid & p & s' & t & wp & fo & ob & co & rest & Heq & Hpid & Hid & _ & Hps & _).
      rewrite Heq in Hin. cbn [fst] in Hin. rewrite Hps, player_set_ids in Hin.
      destruct Hin as [Hin | ->]; [left; assumption|].
      rewrite Hid. destruct Hpid as [-> | [_ Hhas]].
      * right. exists c, now, rnd, jn, jc, jp. split; [left|]; reflexivity.
      * left. apply has_player_In. assumption.
    + left. unfold handleJoin in Hin. fold (connectedCount s) in Hin.
      assert (E : (MAX_PLAYERS <=? connectedCount s)%nat = true)
        by (apply Nat.leb_le; exact Hge).
      rewrite E in Hin. assumption.
  - left. rewrite (Forall2_ids _ _ _ (step_mutation s e Hnd Ej)) in Hin. assumption.
Qed.

Lemma run_ids (es : list Event) (s : GameState) (i : string) :
  uniqueIds s ->
  In i (map id (players (fst (run s es)))) ->
  In i (map id (players s)) \/ issued es i.
Proof.
  revert s. induction es as [|e es IH]; intros s Hnd Hin; simpl in Hin; [left; assumption|].
  pose proof (step_uniqueIds s e Hnd) as Hnd1.
  pose proof (step_ids s e i Hnd) as Hstep.
  destruct (step s e) as [s1 o1]. cbn [fst] in *.
  specialize (IH s1 Hnd1).
  destruct (run s1 es) as [s2 o2]. cbn [fst] in *.
  destruct (IH Hin) as [H1 | (c & now & rnd & n & ch & pid & Hev & ->)].
  - destruct (Hstep H1) as [H0 | (c & now & rnd & n & ch & pid & Hev & ->)].
    + left. assumption.
    + right. exists c, now, rnd, n, ch, pid. split; [|reflexivity].
      destruct Hev as [<- | []]. left. reflexivity.
  - right. exists c, now, rnd, n, ch, pid. split; [right; assumption | reflexivity].
Qed.

Lemma restored_ids (now : Z) (saved : list SavedPlayer) (acc : list Player) :
  let l := fold_left (fun acc sv => player_set (restorePlayer now sv) acc) saved acc in
  NoDup (map id acc) ->
  NoDup (map id l)
  /\ forall i, In i (map id l) -> In i (map id acc) \/ In i (map sv_id saved).
Proof.
  revert acc. induction saved as [|sv saved IH]; intros acc; simpl; intro Hnd.
  - split; [assumption | intros; left; assumption].
  - destruct (IH (player_set (restorePlayer now sv) acc) (NoDup_player_set _ _ Hnd))
      as [H1 H2].
    split; [exact H1|]. intros i Hi.
    destruct (H2 i Hi) as [H | H]; [|right; right; assumption].
    apply player_set_ids in H. destruct H as [H | ->]; [left; assumption|].
    right. left. reflexivity.
Qed.

(** ** Embrace *)

Lemma filter_andb {A : Type} (f g : A -> bool) (l : list A) :
  filter (fun a => f a && g a) l = filter g (filter f l).
Proof.
  induction l as [|a l IH]; simpl; [reflexivity|].
  destruct (f a); simpl; [|assumption].
  destruct (g a); rewrite IH; reflexivity.
Qed.

(** With at most two connected occupants, the occupants connected besides
    [A] are exactly [[B]]. *)
Lemma other_connected_player (l : list Player) (A B : Player) :
  (List.length (filter connected l) <= 2)%nat ->
  In A l -> In B l -> id A <> id B ->
  connected A = true -> connected B = true ->
  filter (fun p => connected p && negb (String.eqb (id p) (id A))) l = [B].
Proof.
  intros Hlen HA HB Hne HcA HcB.
  rewrite filter_andb.
  assert (HA' : In A (filter connected l)) by (apply filter_In; split; assumption).
  assert (HB' : In B (filter connected l)) by (apply filter_In; split; assumption).
  assert (EA : String.eqb (id A) (id A) = true) by apply String.eqb_refl.
  assert (EB : String.eqb (id B) (id A) = false) by (apply String.eqb_neq; congruence).
  destruct (filter connected l) as [|p1 [|p2 [|p3 L]]]; simpl in *.
  - contradiction.
  - destruct HA' as [-> | []]. destruct HB' as [-> | []]. contradiction.
  - destruct HA' as [-> | [-> | []]]; destruct HB' as [-> | [-> | []]];
      try contradiction; rewrite EA, EB; reflexivity.
  - lia.
Qed.

Lemma get_player_map (h : Player -> Player) (i : string) (l : list Player) :
  (forall p, id (h p) = id p) ->
  get_player i (map h l) = option_map h (get_player i l).
Proof.
  intro Hid. induction l as [|q l IH]; simpl; [reflexivity|].
  rewrite Hid. destruct (String.eqb (id q) i); [reflexivity | assumption].
Qed.

Lemma tick_step_id (r : WorldMap.Registry) (now : Z) (p : Player) :
  id (tickPlayer r now (expireHug now p)) = id p.
Proof. apply (mutation_id [] p). constructor. Qed.

Lemma get_player_gameTick (now : Z) (s : GameState) (i : string) (p : Player) :
  get_player i (players s) = Some p ->
  get_player i (players (fst (gameTick now s)))
  = Some (tickPlayer (registry s) now (expireHug now p)).
Proof.
  intro H. rewrite players_gameTick.
  rewrite (get_player_map (fun p => tickPlayer (registry s) now (expireHug now p))).
  - rewrite H. reflexivity.
  - intro q. apply tick_step_id.
Qed.

Lemma hugEnded_absent (now : Z) (i : string) (l : list Player) :
  ~ In i (map id l) -> filter (isHugEnded i) (flat_map (hugEndedEvents now) l) = [].
Proof.
  induction l as [|q l IH]; simpl; intro H; [reflexivity|].
  rewrite filter_app, IH by tauto. rewrite app_nil_r.
  unfold hugEndedEvents. destruct (hugExpired now q); [|reflexivity].
  simpl. assert (E : String.eqb i (id q) = false) by (apply String.eqb_neq; intuition).
  rewrite E. reflexivity.
Qed.

(** The first loop of the tick emits [hug_ended] for identifier [i] as many
    times as the record registered under [i] expires: once or never. *)
Lemma hugEnded_count (now : Z) (i : string) (l : list Player) (p : Player) :
  NoDup (map id l) -> get_player i l = Some p ->
  List.length (filter (isHugEnded i) (flat_map (hugEndedEvents now) l))
  = if hugExpired now p then 1%nat else 0%nat.
Proof.
  induction l as [|q l IH]; simpl; intros Hnd Hget; [discriminate|].
  inversion Hnd as [|? ? Hnotin Hnd']; subst.
  rewrite filter_app, length_app.
  destruct (String.eqb (id q) i) eqn:E.
  - injection Hget as ->. apply String.eqb_eq in E. subst i.
    rewrite hugEnded_absent by assumption.
    unfold hugEndedEvents. destruct (hugExpired now p); simpl; [|reflexivity].
    rewrite String.eqb_refl. reflexivity.
  - rewrite IH by assumption.
    unfold hugEndedEvents. destruct (hugExpired now q); simpl; [|reflexivity].
    rewrite String.eqb_sym, E. reflexivity.
Qed.

Lemma hugEnded_gameTick (now : Z) (s : GameState) (i : string) :
  filter (isHugEnded i) (snd (gameTick now s))
  = filter (isHugEnded i) (flat_map (hugEndedEvents now) (players s)).
Proof.
  unfold gameTick. cbn [snd]. rewrite filter_app. unfold broadcastState.
  simpl. apply app_nil_r.
Qed.

(** A tick on a connected embracing occupant: past the end time the
    embrace ends with one [hug_ended]; before it nothing happens to it. *)
Lemma tick_on_embrace (s : GameState) (now : Z) (i : string) (p : Player) :
  uniqueIds s -> get_player i (players s) = Some p ->
  connected p = true -> hugging p = true -> (0 < hugEndTime p)%Z ->
  exists p',
    get_player i (players (fst (gameTick now s))) = Some p'
    /\ if (hugEndTime p <=? now)%Z
       then hugging p' = false /\ hugEndTime p' = 0%Z
            /\ List.length (filter (isHugEnded i) (snd (gameTick now s))) = 1%nat
       else hugging p' = true /\ hugEndTime p' = hugEndTime p
            /\ filter (isHugEnded i) (snd (gameTick now s)) = [].
Proof.
  intros Hnd Hg Hc Hh Ht.
  exists (tickPlayer (registry s) now (expireHug now p)).
  split; [apply get_player_gameTick; assumption|].
  pose proof (tickPlayer_fields (registry s) now (expireHug now p)) as H.
  cbv zeta in H. destruct H as (_ & _ & H1 & H2 & _).
  rewrite H1, H2, hugEnded_gameTick.
  pose proof (hugEnded_count now i (players s) p Hnd Hg) as Hcnt.
  assert (E : hugExpired now p = (hugEndTime p <=? now)%Z).
  { unfold hugExpired. rewrite Hc, Hh. cbn [andb].
    apply Z.ltb_lt in Ht. rewrite Ht. reflexivity. }
  unfold expireHug. rewrite E in *.
  destruct (hugEndTime p <=? now)%Z.
  - repeat split. assumption.
  - repeat split; try assumption. apply length_zero_iff_nil. assumption.
Qed.

(** ** The collision oracle respects equality of rationals *)

Lemma Math_floor_comp (a b : Q) : a == b -> Math_floor a = Math_floor b.
Proof. intro H. unfold Math_floor. rewrite H. reflexivity. Qed.

Lemma Math_min_comp (w a b : Q) : a == b -> Math_min w a == Math_min w b.
Proof.
  intro H. unfold Math_min. rewrite H.
  destruct (Qle_bool w b); [reflexivity | assumption].
Qed.

Lemma Math_max_comp (w a b : Q) : a == b -> Math_max w a == Math_max w b.
Proof.
  intro H. unfold Math_max. rewrite H.
  destruct (Qle_bool w b); [assumption | reflexivity].
Qed.

Lemma inCollider_comp (c : WorldMap.Collider) (a b a' b' : Q) :
  a == a' -> b == b' -> WorldMap.inCollider a b c = WorldMap.inCollider a' b' c.
Proof.
  intros Ha Hb. unfold WorldMap.inCollider. rewrite Ha, Hb. reflexivity.
Qed.

Lemma existsb_inCollider_comp (l : list WorldMap.Collider) (a b a' b' : Q) :
  a == a' -> b == b' ->
  existsb (WorldMap.inCollider a b) l = existsb (WorldMap.inCollider a' b') l.
Proof.
  intros Ha Hb. induction l as [|c l IH]; simpl; [reflexivity|].
  rewrite IH, (inCollider_comp c a b a' b' Ha Hb). reflexivity.
Qed.

Lemma isCollidable_comp (r : WorldMap.Registry) (a b a' b' : Q) :
  a == a' -> b == b' -> WorldMap.isCollidable r a b = WorldMap.isCollidable r a' b'.
Proof.
  intros Ha Hb. unfold WorldMap.isCollidable, WorldMap.getTileAt, WorldMap.toTileCoords.
  assert (E1 : Math_floor (a / WorldMap.COLLIDER_TILE_SIZE)
               = Math_floor (a' / WorldMap.COLLIDER_TILE_SIZE))
    by (apply Math_floor_comp; rewrite Ha; reflexivity).
  assert (E2 : Math_floor (b / WorldMap.COLLIDER_TILE_SIZE)
               = Math_floor (b' / WorldMap.COLLIDER_TILE_SIZE))
    by (apply Math_floor_comp; rewrite Hb; reflexivity).
  rewrite E1, E2.
  rewrite (existsb_inCollider_comp WorldMap.staticColliders a b a' b' Ha Hb).
  rewrite (existsb_inCollider_comp (WorldMap.objectColliders r) a b a' b' Ha Hb).
  reflexivity.
Qed.

Lemma canMoveTo_comp (r : WorldMap.Registry) (a b a' b' : Q) :
  a == a' -> b == b' -> canMoveTo r a b = canMoveTo r a' b'.
Proof.
  intros Ha Hb. unfold canMoveTo, checkPoints. cbn [existsb fst snd].
  repeat match goal with
  | |- context [WorldMap.isCollidable r ?u ?v] =>
      lazymatch u with
      | context [a] =>
          rewrite (isCollidable_comp r u v
                     ltac:(let t := eval pattern a in u in
                           lazymatch t with ?f _ => exact (f a') end)
                     ltac:(let t := eval pattern b in v in
                           lazymatch t with ?f _ => exact (f b') end))
            by (rewrite ?Ha, ?Hb; reflexivity)
      end
  end.
  reflexivity.
Qed.

(** ** Following one occupant through the events *)

Lemma Forall2_get (R : Player -> Player -> Prop) (l l' : list Player) (i : string)
  (p : Player) :
  (forall q q', R q q' -> id q' = id q) ->
  Forall2 R l l' -> get_player i l = Some p ->
  exists p', get_player i l' = Some p' /\ R p p'.
Proof.
  intros Hid H. induction H as [|q q' l l' HR _ IH]; simpl; intro Hg; [discriminate|].
  rewrite (Hid _ _ HR).
  destruct (String.eqb (id q) i).
  - injection Hg as <-. exists q'. split; [reflexivity | assumption].
  - apply IH. assumption.
Qed.

Lemma step_get_mutation (s : GameState) (e : Event) (i : string) (p : Player) :
  uniqueIds s -> isJoin e = false ->
  get_player i (players s) = Some p ->
  exists p', get_player i (players (fst (step s e))) = Some p'
             /\ Mutation (players s) p p'.
Proof.
  intros Hnd Hj Hg.
  apply (Forall2_get (Mutation (players s)) (players s)); try assumption.
  - intros q q'. apply mutation_id.
  - apply step_mutation; assumption.
Qed.

Lemma get_player_set_other (pl : Player) (l : list Player) (i : string) :
  id pl <> i -> get_player i (player_set pl l) = get_player i l.
Proof.
  intro Hne. induction l as [|q l IH]; simpl.
  - assert (E : String.eqb (id pl) i = false) by (apply String.eqb_neq; assumption).
    rewrite E. reflexivity.
  - destruct (String.eqb (id q) (id pl)) eqn:E1; simpl.
    + apply String.eqb_eq in E1.
      assert (E2 : String.eqb (id pl) i = false) by (apply String.eqb_neq; assumption).
      assert (E3 : String.eqb (id q) i = false) by (apply String.eqb_neq; congruence).
      rewrite E2, E3. reflexivity.
    + rewrite IH. reflexivity.
Qed.

(** A join keeps every record it does not resurrect, and resurrects a
    record by touching only its connection flag, name and character. *)
Lemma join_get (s : GameState) (c : nat) (now : Z) (rnd : string) (n : option string)
  (ch : string) (pid : option string) (i : string) (p : Player) :
  get_player i (players s) = Some p ->
  exists p', get_player i (players (fst (handleJoin c now rnd n ch pid s))) = Some p'
             /\ (p' = p \/ exists n' ch', p' = p_set_identity n' ch' (p_set_connected true p)).
Proof.
  intro Hg.
  pose proof (handleJoin_players c now rnd n ch pid s) as H. cbv zeta in H.
  destruct H as [-> | (_ & pl & -> & _ & Hrec)].
  - exists p. split; [assumption | left; reflexivity].
  - destruct (String.eqb (id pl) i) eqn:E.
    + apply String.eqb_eq in E.
      destruct Hrec as [(q & n' & ch' & Hq & Hpl) | (k & n' & ch' & Hq & _)].
      * rewrite E, Hg in Hq. injection Hq as <-.
        exists pl. split; [rewrite <- E at 1; apply get_player_set|].
        right. exists n', ch'. assumption.
      * rewrite E in Hq. congruence.
    + apply String.eqb_neq in E. exists p. split; [|left; reflexivity].
      rewrite get_player_set_other; assumption.
Qed.

Lemma step_get_seq (s : GameState) (e : Event) (i : string) (p : Player) :
  uniqueIds s -> get_player i (players s) = Some p ->
  exists p', get_player i (players (fst (step s e))) = Some p'
             /\ (lastInputSeq p <= lastInputSeq p')%Z.
Proof.
  intros Hnd Hg. destruct (isJoin e) eqn:Ej.
  - destruct e as [| c now rnd [jn jc jp| | | | | | | | | | |] | |]; try discriminate.
    cbn [step]. destruct (is_open c s); [|exists p; split; [assumption | lia]].
    cbn [handleMessage].
    destruct (join_get s c now rnd jn jc jp i p Hg) as (p' & Hp' & Hcase).
    exists p'. split; [assumption|].
    destruct Hcase as [-> | (n' & ch' & ->)]; simpl; lia.
  - destruct (step_get_mutation s e i p Hnd Ej Hg) as (p' & Hp' & M).
    exists p'. split; [assumption | eapply mutation_seq; eassumption].
Qed.

Lemma run_get_seq (es : list Event) (s : GameState) (i : string) (p : Player) :
  uniqueIds s -> get_player i (players s) = Some p ->
  exists p', get_player i (players (fst (run s es))) = Some p'
             /\ (lastInputSeq p <= lastInputSeq p')%Z.
Proof.
  revert s p. induction es as [|e es IH]; intros s p Hnd Hg; simpl.
  - exists p. split; [assumption | lia].
  - pose proof (step_uniqueIds s e Hnd) as Hnd1.
    destruct (step_get_seq s e i p Hnd Hg) as (p1 & Hg1 & Hle1).
    destruct (step s e) as [s1 o1]. cbn [fst] in *.
    destruct (IH s1 p1 Hnd1 Hg1) as (p2 & Hg2 & Hle2).
    destruct (run s1 es) as [s2 o2]. cbn [fst] in *.
    exists p2. split; [assumption | lia].
Qed.

(** ** Only the tick emits [hug_ended] *)

(** Case analysis along the branches of a handler whose emitted effects
    are under consideration. *)
Ltac split_handler :=
  repeat match goal with
  | |- context [snd (if ?b then _ else _)] => destruct b
  | |- context [snd (match ?o with Some _ => _ | None => _ end)] => destruct o
  | |- context [snd (let '(_, _) := ?u in _)] => destruct u
  | |- context [snd (match ?l with [] => _ | _ :: _ => _ end)] => destruct l
  | |- context [snd (_, if ?b then _ else _)] => destruct b
  end.

Lemma handleMessage_no_hugEnded (c : nat) (now : Z) (rnd : string) (m : ClientMsg)
  (s : GameState) (i : string) :
  filter (isHugEnded i) (snd (handleMessage c now rnd m s)) = [].
Proof.
  destruct m; cbn [handleMessage];
    unfold handleJoin, handleInput, handleResetPosition, handlePlaceCollider,
      handleRemoveCollider, handlePlaceObject, handleRemoveObject, handleHug,
      handleBenchSit, handleBenchStand;
    cbv zeta; split_handler; try reflexivity.
Qed.

Lemma step_no_hugEnded (s : GameState) (e : Event) (i : string) (p : Player) :
  uniqueIds s -> get_player i (players s) = Some p -> connected p = false ->
  filter (isHugEnded i) (snd (step s e)) = [].
Proof.
  intros Hnd Hg Hc. destruct e as [c | c now rnd m | c | now]; cbn [step].
  - destruct (is_open c s); reflexivity.
  - destruct (is_open c s); [apply handleMessage_no_hugEnded | reflexivity].
  - destruct (is_open c s); [|reflexivity].
    unfold handleDisconnect. split_handler; reflexivity.
  - rewrite hugEnded_gameTick. apply length_zero_iff_nil.
    rewrite (hugEnded_count now i (players s) p Hnd Hg).
    unfold hugExpired. rewrite Hc. reflexivity.
Qed.

Lemma rejoins_false (i : string) (now : Z) (rnd : string) (pid : option string)
  (c : nat) (n : option string) (ch : string) :
  rejoins i (Message c now rnd (Join n ch pid)) = false ->
  pid <> Some i /\ fresh_player_id now rnd <> i.
Proof.
  unfold rejoins. intro H. apply orb_false_iff in H. destruct H as [H1 H2].
  split.
  - intros ->. simpl in H1. rewrite String.eqb_refl in H1. discriminate.
  - apply String.eqb_neq. assumption.
Qed.

(** A disconnected occupant is not touched by any event that does not
    resurrect it, and no [hug_ended] is emitted for it. *)
Lemma step_disconnected (s : GameState) (e : Event) (i : string) (p : Player) :
  uniqueIds s -> get_player i (players s) = Some p -> connected p = false ->
  rejoins i e = false ->
  get_player i (players (fst (step s e))) = Some p
  /\ filter (isHugEnded i) (snd (step s e)) = [].
Proof.
  intros Hnd Hg Hc Hre. split; [|eapply step_no_hugEnded; eassumption].
  destruct (isJoin e) eqn:Ej.
  - destruct e as [| c now rnd [jn jc jp| | | | | | | | | | |] | |]; try discriminate.
    apply rejoins_false in Hre. destruct Hre as [Hpid Hfresh].
    cbn [step]. destruct (is_open c s); [|assumption]. cbn [handleMessage].
    destruct (Nat.lt_ge_cases (connectedCount s) 2) as [Hlt | Hge].
    + destruct (handleJoin_accepted c now rnd jn jc jp s Hlt)
        as (j & pl & s' & t & wp & fo & ob & co & rest & Heq & Hj & Hid & _ & Hps & _).
      rewrite Heq. cbn [fst]. rewrite Hps, get_player_set_other; [assumption|].
      rewrite Hid. destruct Hj as [-> | [-> _]]; congruence.
    + unfold handleJoin. fold (connectedCount s).
      assert (E : (MAX_PLAYERS <=? connectedCount s)%nat = true)
        by (apply Nat.leb_le; exact Hge).
      rewrite E. assumption.
  - destruct (step_get_mutation s e i p Hnd Ej Hg) as (p' & Hp' & M).
    rewrite (mutation_disconnected _ _ _ M Hc) in Hp'. assumption.
Qed.

Lemma run_disconnected (es : list Event) (s : GameState) (i : string) (p : Player) :
  uniqueIds s -> get_player i (players s) = Some p -> connected p = false ->
  forallb (fun e => negb (rejoins i e)) es = true ->
  get_player i (players (fst (run s es))) = Some p
  /\ filter (isHugEnded i) (snd (run s es)) = [].
Proof.
  revert s. induction es as [|e es IH]; intros s Hnd Hg Hc Hes; simpl.
  - split; [assumption | reflexivity].
  - simpl in Hes. apply andb_true_iff in Hes. destruct Hes as [He Hes].
    apply negb_true_iff in He.
    pose proof (step_uniqueIds s e Hnd) as Hnd1.
    destruct (step_disconnected s e i p Hnd Hg Hc He) as [Hg1 Ho1].
    destruct (step s e) as [s1 o1]. cbn [fst snd] in *.
    destruct (IH s1 Hnd1 Hg1 Hc Hes) as [Hg2 Ho2].
    destruct (run s1 es) as [s2 o2]. cbn [fst snd] in *.
    split; [assumption|]. rewrite filter_app, Ho1, Ho2. reflexivity.
Qed.

(** ** Persisted occupant documents *)

Lemma savedDocuments_hugEnded (now : Z) (l : list Player) :
  savedDocuments (flat_map (hugEndedEvents now) l) = [].
Proof.
  unfold savedDocuments. induction l as [|p l IH]; simpl; [reflexivity|].
  rewrite flat_map_app, IH, app_nil_r.
  unfold hugEndedEvents. destruct (hugExpired now p); reflexivity.
Qed.

Lemma savedDocuments_app (a b : list Output) :
  savedDocuments (a ++ b) = savedDocuments a ++ savedDocuments b.
Proof. apply flat_map_app. Qed.

Lemma savedDocuments_gameTick (now : Z) (s : GameState) :
  savedDocuments (snd (gameTick now s)) = [].
Proof.
  unfold gameTick. cbn [snd].
  rewrite savedDocuments_app, savedDocuments_hugEnded. reflexivity.
Qed.

(** Whenever a handler writes the occupant document, it writes the
    registry as the handler leaves it. *)
Lemma saved_documents_step (s : GameState) (e : Event) :
  Forall (fun l => l = map savedPlayer (players (fst (step s e))))
         (savedDocuments (snd (step s e))).
Proof.
  destruct e as [c | c now rnd m | c | now]; cbn [step].
  - destruct (is_open c s); constructor.
  - destruct (is_open c s); [|constructor].
    destruct m; cbn [handleMessage];
      unfold handleJoin, handleInput, handleResetPosition, handlePlaceCollider,
        handleRemoveCollider, handlePlaceObject, handleRemoveObject, handleHug,
        handleBenchSit, handleBenchStand;
      cbv zeta; split_handler; repeat constructor.
  - destruct (is_open c s); [|constructor].
    unfold handleDisconnect. split_handler; repeat constructor.
  - rewrite savedDocuments_gameTick. constructor.
Qed.

Lemma savedPlayer_inWorld (l : list Player) :
  Forall inWorld l -> Forall savedInWorld (map savedPlayer l).
Proof.
  induction 1 as [|p l Hp _ IH]; simpl; constructor; assumption.
Qed.

(** Every occupant document written during a run that started from
    positions within the world holds positions within the world: the
    documents a later start-up loads satisfy the same condition. *)
Theorem saved_documents_inWorld (now : Z) (rnd : string) (saved : list SavedPlayer)
  (tiles : list (Z * Z)) (raws : list RawObject) (es : list Event) :
  Forall savedInWorld saved ->
  Forall (Forall savedInWorld)
         (savedDocuments (snd (run (startServer now rnd saved tiles raws) es))).
Proof.
  intro Hs.
  pose proof (startServer_Inv now rnd saved tiles raws) as [Hnd _].
  pose proof (startServer_inWorld now rnd saved tiles raws Hs) as Hw.
  revert Hnd Hw. generalize (startServer now rnd saved tiles raws) as s.
  induction es as [|e es IH]; intros s Hnd Hw; simpl; [constructor|].
  pose proof (step_uniqueIds s e Hnd) as Hnd1.
  pose proof (step_inWorld s e Hnd Hw) as Hw1.
  pose proof (saved_documents_step s e) as Hdoc.
  destruct (step s e) as [s1 o1]. cbn [fst snd] in *.
  specialize (IH s1 Hnd1 Hw1).
  destruct (run s1 es) as [s2 o2]. cbn [fst snd] in *.
  unfold savedDocuments in *. rewrite flat_map_app. apply Forall_app. split; [|exact IH].
  eapply Forall_impl; [|exact Hdoc].
  intros l ->. apply savedPlayer_inWorld. assumption.
Qed.

(** * The claims *)

(** ** C1: positions stay within the world *)

(** C1.  The world is 240 x 16 by 180 x 16 pixels.  Start the server on
    persisted documents whose occupant positions are within the world (as
    every document the server writes is, see [saved_documents_inWorld] above)
    and let any sequence of events happen: after a tick completes, every
    occupant satisfies [0 <= x <= WORLD_WIDTH] and [0 <= y <= WORLD_HEIGHT].
    And the movement step [processPlayerInput] returns a position within
    these bounds whatever the occupant, the input and the obstacles are. *)
Theorem C1_positions_within_world :
  (WORLD_WIDTH == 240 * 16 /\ WORLD_HEIGHT == 180 * 16)
  /\ (forall now0 rnd0 saved tiles raws es now p,
         Forall savedInWorld saved ->
         In p (players (fst (gameTick now
                              (fst (run (startServer now0 rnd0 saved tiles raws) es))))) ->
         inWorld p)
  /\ (forall r now p input, inWorld (processPlayerInput r now p input)).
Proof.
  split; [split; reflexivity|]. split.
  - intros now0 rnd0 saved tiles raws es now p Hs Hin.
    pose proof (startServer_Inv now0 rnd0 saved tiles raws) as [Hnd _].
    pose proof (run_inWorld _ (es ++ [Tick now]) Hnd
                  (startServer_inWorld now0 rnd0 saved tiles raws Hs)) as Hw.
    rewrite run_app_fst in Hw. cbn [step] in Hw.
    rewrite Forall_forall in Hw. apply Hw. assumption.
  - apply processPlayerInput_inWorld.
Qed.

Lemma C1_witness :
  Forall savedInWorld C1_saved
  /\ (exists p, In p (players (fst (gameTick 1050 (fst (run C1_start C1_events)))))
               /\ x p == 0 /\ inWorld p).
Proof.
  assert (Hs : Forall savedInWorld C1_saved).
  { constructor; [|constructor]. unfold savedInWorld. simpl.
    repeat split; discriminate. }
  split; [exact Hs|].
  set (s := fst (run C1_start C1_events)).
  assert (Hin : In (hd (createPlayerState "" "" "" 0) (players (fst (gameTick 1050 s))))
                   (players (fst (gameTick 1050 s)))).
  { vm_compute. left. reflexivity. }
  eexists. split; [exact Hin|]. split.
  - vm_compute. reflexivity.
  - exact (proj1 (proj2 C1_positions_within_world) 1000%Z "" C1_saved [] [] C1_events
             1050%Z _ Hs Hin).
Defined.

(** ** C2: at most two connected occupants *)

(** C2.  In every reachable state at most two occupants are connected.
    A join arriving while two occupants are connected returns the state
    unchanged (so no occupant record is created and the connection stays
    among the open ones) and sends one capacity error to that connection;
    a join arriving on an open connection while fewer than two occupants are
    connected is answered by a welcome and leaves that connection attached
    to a connected occupant. *)
Theorem C2_capacity :
  (forall s, reachable s -> (connectedCount s <= 2)%nat)
  /\ (forall c now rnd n ch pid s,
         (2 <= connectedCount s)%nat ->
         handleJoin c now rnd n ch pid s
         = (s, [Send c (Error "Room is full. Maximum 2 players allowed.")]))
  /\ (forall c now rnd n ch pid s,
         is_open c s = true -> (connectedCount s < 2)%nat ->
         exists i p s' t wp fo ob co rest,
           handleJoin c now rnd n ch pid s
           = (s', Send c (Welcome i t wp fo ob co) :: rest)
           /\ client_playerId c s' = Some i
           /\ get_player i (players s') = Some p
           /\ connected p = true).
Proof.
  split; [|split].
  - intros s Hr. apply (reachable_Inv s Hr).
  - intros c now rnd n ch pid s Hfull. unfold handleJoin. fold (connectedCount s).
    assert (E : (MAX_PLAYERS <=? connectedCount s)%nat = true)
      by (apply Nat.leb_le; exact Hfull).
    rewrite E. reflexivity.
  - intros c now rnd n ch pid s Hopen Hlt.
    destruct (handleJoin_accepted c now rnd n ch pid s Hlt)
      as (i & p & s' & t & wp & fo & ob & co & rest & Heq & _ & Hid & Hc & Hps & Hcl).
    exists i, p, s', t, wp, fo, ob, co, rest.
    split; [exact Heq|]. split; [apply Hcl; exact Hopen|]. split; [|exact Hc].
    rewrite Hps, <- Hid. apply get_player_set.
Qed.

Lemma C2_witness :
  (2 <= connectedCount C2_full)%nat
  /\ handleJoin 3 1030 "c" (Some "Cy") "1" None C2_full
     = (C2_full, [Send 3 (Error "Room is full. Maximum 2 players allowed.")])
  /\ is_open 3 (fst (step C2_full (Close 1))) = true
  /\ (connectedCount (fst (step C2_full (Close 1))) < 2)%nat
  /\ (exists i p s' t wp fo ob co rest,
        handleJoin 3 1040 "d" (Some "Cy") "1" None (fst (step C2_full (Close 1)))
        = (s', Send 3 (Welcome i t wp fo ob co) :: rest)
        /\ client_playerId 3 s' = Some i
        /\ get_player i (players s') = Some p
        /\ connected p = true).
Proof.
  assert (H1 : (2 <= connectedCount C2_full)%nat) by (vm_compute; lia).
  assert (H2 : is_open 3 (fst (step C2_full (Close 1))) = true) by (vm_compute; reflexivity).
  assert (H3 : (connectedCount (fst (step C2_full (Close 1))) < 2)%nat) by (vm_compute; lia).
  split; [exact H1|]. split.
  - exact (proj1 (proj2 C2_capacity) 3%nat 1030%Z "c" (Some "Cy") "1" None C2_full H1).
  - split; [exact H2|]. split; [exact H3|].
    exact (proj2 (proj2 C2_capacity) 3%nat 1040%Z "d" (Some "Cy") "1" None _ H2 H3).
Defined.

(** ** C3: the embrace cycle *)

(** C3.  In a reachable state, let [A] (attached to connection [c]) and
    [B] be two distinct connected occupants, neither embracing, at
    Euclidean distance at most 60.  A hug request on [c] at time [now]
    broadcasts exactly one [hug_started] naming both, and leaves both
    embracing with the same [hugEndTime = now + 2000], both [y] equal to
    the average of the two, both velocities zero.  A tick at a time
    [now2 >= now + 2000] then returns both to [hugging = false] and emits
    exactly one [hug_ended] for each of the two.  More generally, in any
    reachable state a tick ends the embrace of a connected occupant whose
    end time has passed, with exactly one [hug_ended], and leaves an embrace
    whose end time has not come untouched, with none. *)
Theorem C3_hug_cycle :
  (forall s c now now2 a b A B,
    reachable s ->
    client_playerId c s = Some a -> truthy a = true ->
    get_player a (players s) = Some A ->
    get_player b (players s) = Some B ->
    a <> b ->
    connected A = true -> connected B = true ->
    hugging A = false -> hugging B = false ->
    (x A - x B) * (x A - x B) + (y A - y B) * (y A - y B)
      <= HUG_PROXIMITY_THRESHOLD * HUG_PROXIMITY_THRESHOLD ->
    (0 <= now)%Z -> (now + HUG_DURATION <= now2)%Z ->
    exists s1 A1 B1,
      handleHug c now s = (s1, [Broadcast (HugStarted a b)])
      /\ get_player a (players s1) = Some A1
      /\ get_player b (players s1) = Some B1
      /\ (hugging A1 = true /\ hugging B1 = true)
      /\ (hugEndTime A1 = (now + HUG_DURATION)%Z /\ hugEndTime B1 = hugEndTime A1)
      /\ (y A1 = (y A + y B) / 2 /\ y B1 = (y A + y B) / 2)
      /\ (x A1 = x A /\ x B1 = x B)
      /\ (vx A1 = 0 /\ vy A1 = 0 /\ vx B1 = 0 /\ vy B1 = 0)
      /\ (connected A1 = true /\ connected B1 = true)
      /\ exists s2 out A2 B2,
           gameTick now2 s1 = (s2, out)
           /\ get_player a (players s2) = Some A2
           /\ get_player b (players s2) = Some B2
           /\ (hugging A2 = false /\ hugging B2 = false)
           /\ List.length (filter (isHugEnded a) out) = 1%nat
           /\ List.length (filter (isHugEnded b) out) = 1%nat)
  /\ (forall s now i p,
         reachable s -> get_player i (players s) = Some p ->
         connected p = true -> hugging p = true -> (0 < hugEndTime p)%Z ->
         exists p',
           get_player i (players (fst (gameTick now s))) = Some p'
           /\ if (hugEndTime p <=? now)%Z
              then hugging p' = false /\ hugEndTime p' = 0%Z
                   /\ List.length (filter (isHugEnded i) (snd (gameTick now s))) = 1%nat
              else hugging p' = true /\ hugEndTime p' = hugEndTime p
                   /\ filter (isHugEnded i) (snd (gameTick now s)) = []).
Proof.
  split.
  2:{ intros s now i p Hr. apply tick_on_embrace. apply (reachable_Inv s Hr). }
  intros s c now now2 a b A B Hr Hc Ha HgA HgB Hab HcA HcB HhA HhB Hd Hnow Hnow2.
  destruct (reachable_Inv s Hr) as (Hnd & Hcount).
  pose proof (get_player_id _ _ _ HgA) as HidA.
  pose proof (get_player_id _ _ _ HgB) as HidB.
  assert (Hothers :
            filter (fun p => connected p && negb (String.eqb (id p) (id A))) (players s) = [B]).
  { apply other_connected_player; try assumption.
    - eapply get_player_In; eassumption.
    - eapply get_player_In; eassumption.
    - congruence. }
  assert (Hnear : Qltb HUG_PROXIMITY_THRESHOLD
                    (Math_sqrt ((x A - x B) * (x A - x B) + (y A - y B) * (y A - y B)))
                  = false).
  { apply Qltb_false_iff.
    change HUG_PROXIMITY_THRESHOLD with (inject_Z 60).
    apply Math_sqrt_le_iff; [lia | exact Hd]. }
  set (t := (now + HUG_DURATION)%Z).
  set (avgY := (y A + y B) / 2).
  set (ps1 := update_player b (startHug t avgY) (update_player a (startHug t avgY) (players s))).
  assert (Hhug : handleHug c now s = (set_players s ps1, [Broadcast (HugStarted a b)])).
  { unfold handleHug. rewrite Hc. cbn [truthy_opt]. rewrite Ha. cbn [negb].
    rewrite HgA, HcA, HhA. cbn [negb]. rewrite Hothers.
    cbv zeta. rewrite Hnear, HhB, HidA, HidB. reflexivity. }
  assert (HgA1 : get_player a ps1 = Some (startHug t avgY A)).
  { unfold ps1. rewrite get_update_other by (reflexivity || congruence).
    rewrite get_update_same by reflexivity. rewrite HgA. reflexivity. }
  assert (HgB1 : get_player b ps1 = Some (startHug t avgY B)).
  { unfold ps1. rewrite get_update_same by reflexivity.
    rewrite get_update_other by (reflexivity || congruence).
    rewrite HgB. reflexivity. }
  exists (set_players s ps1), (startHug t avgY A), (startHug t avgY B).
  split; [exact Hhug|]. split; [exact HgA1|]. split; [exact HgB1|].
  do 6 (split; [simpl; repeat split; reflexivity || assumption|]).
  assert (Hnd1 : NoDup (map id ps1)).
  { unfold ps1. rewrite !update_player_ids by reflexivity. exact Hnd. }
  assert (HexpA : hugExpired now2 (startHug t avgY A) = true).
  { unfold hugExpired. simpl. rewrite HcA. unfold t, HUG_DURATION in *.
    apply andb_true_iff. split; [apply Z.ltb_lt | apply Z.leb_le]; lia. }
  assert (HexpB : hugExpired now2 (startHug t avgY B) = true).
  { unfold hugExpired. simpl. rewrite HcB. unfold t, HUG_DURATION in *.
    apply andb_true_iff. split; [apply Z.ltb_lt | apply Z.leb_le]; lia. }
  exists (fst (gameTick now2 (set_players s ps1))), (snd (gameTick now2 (set_players s ps1))).
  do 2 eexists.
  split; [apply surjective_pairing|].
  split; [apply get_player_gameTick; exact HgA1|].
  split; [apply get_player_gameTick; exact HgB1|].
  split.
  - split.
    + pose proof (tickPlayer_fields (registry (set_players s ps1)) now2
                    (expireHug now2 (startHug t avgY A))) as H.
      cbv zeta in H. destruct H as (_ & _ & -> & _).
      unfold expireHug. rewrite HexpA. reflexivity.
    + pose proof (tickPlayer_fields (registry (set_players s ps1)) now2
                    (expireHug now2 (startHug t avgY B))) as H.
      cbv zeta in H. destruct H as (_ & _ & -> & _).
      unfold expireHug. rewrite HexpB. reflexivity.
  - rewrite !hugEnded_gameTick. cbn [players set_players]. split.
    + rewrite (hugEnded_count now2 a ps1 _ Hnd1 HgA1), HexpA. reflexivity.
    + rewrite (hugEnded_count now2 b ps1 _ Hnd1 HgB1), HexpB. reflexivity.
Qed.

Lemma C3_witness :
  reachable twoAtSpawn
  /\ client_playerId 1 twoAtSpawn = Some "player_1010_a"
  /\ exists s1 A1 B1,
    handleHug 1 2000 twoAtSpawn
    = (s1, [Broadcast (HugStarted "player_1010_a" "player_1020_b")])
    /\ get_player "player_1010_a" (players s1) = Some A1
    /\ get_player "player_1020_b" (players s1) = Some B1
    /\ hugEndTime A1 = 4000%Z /\ hugEndTime B1 = hugEndTime A1
    /\ exists s2 out A2 B2,
         gameTick 4000 s1 = (s2, out)
         /\ get_player "player_1010_a" (players s2) = Some A2
         /\ get_player "player_1020_b" (players s2) = Some B2
         /\ hugging A2 = false /\ hugging B2 = false
         /\ List.length (filter (isHugEnded "player_1010_a") out) = 1%nat
         /\ List.length (filter (isHugEnded "player_1020_b") out) = 1%nat.
Proof.
  assert (Hr : reachable twoAtSpawn).
  { exists 1000%Z, "", [], [], [],
      [ Connect 1; Connect 2;
        Message 1 1010 "a" (Join (Some "Ada") "1" None);
        Message 2 1020 "b" (Join (Some "Bob") "2" None) ].
    reflexivity. }
  split; [exact Hr|].
  assert (Hc : client_playerId 1 twoAtSpawn = Some "player_1010_a") by (vm_compute; reflexivity).
  split; [exact Hc|].
  set (A := p_set_pos (656 # 2) 176 (createPlayerState "player_1010_a" "Ada" "1" 1010)).
  set (B := p_set_pos (688 # 2) 176 (createPlayerState "player_1020_b" "Bob" "2" 1020)).
  assert (HA : get_player "player_1010_a" (players twoAtSpawn) = Some A)
    by (vm_compute; reflexivity).
  assert (HB : get_player "player_1020_b" (players twoAtSpawn) = Some B)
    by (vm_compute; reflexivity).
  assert (Hne : "player_1010_a" <> "player_1020_b") by discriminate.
  assert (Hd : (x A - x B) * (x A - x B) + (y A - y B) * (y A - y B)
               <= HUG_PROXIMITY_THRESHOLD * HUG_PROXIMITY_THRESHOLD)
    by (vm_compute; discriminate).
  assert (H0 : (0 <= 2000)%Z) by lia.
  assert (H2 : (2000 + HUG_DURATION <= 4000)%Z) by (unfold HUG_DURATION; lia).
  destruct (proj1 C3_hug_cycle twoAtSpawn 1%nat 2000%Z 4000%Z "player_1010_a" "player_1020_b"
              A B Hr Hc eq_refl HA HB Hne eq_refl eq_refl eq_refl eq_refl Hd H0 H2)
    as (s1 & A1 & B1 & H1 & H2' & H3 & _ & (H4 & H5) & _ & _ & _ & _ & H6).
  destruct H6 as (s2 & out & A2 & B2 & T1 & T2 & T3 & (T4 & T5) & T6 & T7).
  exists s1, A1, B1. repeat (split; [assumption|]).
  exists s2, out, A2, B2. repeat (split; [assumption|]). assumption.
Defined.

(** ** C4: seats on the bench *)

Lemma C4_two_seated_reachable : reachable C4_two_seated.
Proof.
  exists 1000%Z, "", [nearBench "A"; nearBench "B"; nearBench "C"], [], [], C4_events.
  reflexivity.
Qed.

(** C4, as stated, fails: with two occupants seated (one of them
    disconnected), a [bench_sit] of a third occupant is carried out, after
    which three occupants have [sitting = true]. *)
Lemma C4_counterexample :
  reachable C4_two_seated
  /\ List.length (filter sitting (players C4_two_seated)) = 2%nat
  /\ fst (handleBenchSit 3 1060 C4_two_seated) <> C4_two_seated
  /\ snd (handleBenchSit 3 1060 C4_two_seated) <> []
  /\ ~ (List.length (filter sitting (players (fst (handleBenchSit 3 1060 C4_two_seated))))
        <= 2)%nat.
Proof.
  split; [exact C4_two_seated_reachable|].
  split; [vm_compute; reflexivity|].
  split.
  - intro H. apply (f_equal (fun s => List.length (filter sitting (players s)))) in H.
    vm_compute in H. discriminate.
  - split.
    + vm_compute. discriminate.
    + intro H. vm_compute in H. lia.
Qed.

(** C4, amended.  In every reachable state at most two connected
    occupants are seated (the count [handleBenchSit] makes).  A [bench_sit]
    from a connected occupant is a no-op, state unchanged and nothing
    emitted, when two connected occupants are seated, and also when the
    requester is farther than 100 from the bench anchor (2760, 1511). *)
Theorem C4_bench_capacity :
  (forall s, reachable s -> (sittingCount (players s) <= 2)%nat)
  /\ (forall s c now pid p,
         client_playerId c s = Some pid -> truthy pid = true ->
         get_player pid (players s) = Some p -> connected p = true ->
         (2 <= sittingCount (players s))%nat ->
         handleBenchSit c now s = (s, []))
  /\ (forall s c now pid p,
         client_playerId c s = Some pid -> truthy pid = true ->
         get_player pid (players s) = Some p -> connected p = true ->
         100 * 100 < (x p - BENCH_X) * (x p - BENCH_X) + (y p - BENCH_Y) * (y p - BENCH_Y) ->
         handleBenchSit c now s = (s, [])).
Proof.
  split; [|split].
  - intros s Hr. destruct (reachable_Inv s Hr) as (_ & Hc).
    unfold sittingCount, connectedCount in *. rewrite filter_andb.
    pose proof (filter_length_le sitting (filter connected (players s))). lia.
  - intros s c now pid p Hc Ht Hg Hcon Hfull.
    unfold handleBenchSit. rewrite Hc. cbn [truthy_opt]. rewrite Ht. cbn [negb].
    rewrite Hg, Hcon. cbn [negb].
    destruct (sitting p); [reflexivity|].
    destruct (Qltb 100 _); [reflexivity|].
    assert (E : (2 <=? sittingCount (players s))%nat = true) by (apply Nat.leb_le; exact Hfull).
    cbv zeta. rewrite E. reflexivity.
  - intros s c now pid p Hc Ht Hg Hcon Hfar.
    unfold handleBenchSit. rewrite Hc. cbn [truthy_opt]. rewrite Ht. cbn [negb].
    rewrite Hg, Hcon. cbn [negb].
    destruct (sitting p); [reflexivity|].
    assert (E : Qltb 100 (Math_sqrt ((x p - BENCH_X) * (x p - BENCH_X)
                                     + (y p - BENCH_Y) * (y p - BENCH_Y))) = true).
    { apply Qltb_true_iff. change 100 with (inject_Z 100).
      apply Math_sqrt_gt_iff; [lia | exact Hfar]. }
    cbv zeta. rewrite E. reflexivity.
Qed.

Lemma C4_witness :
  (2 <= sittingCount (players C4_both_seated))%nat
  /\ handleBenchSit 1 1050 C4_both_seated = (C4_both_seated, [])
  /\ handleBenchSit 1 2000 twoAtSpawn = (twoAtSpawn, []).
Proof.
  assert (H : (2 <= sittingCount (players C4_both_seated))%nat) by (vm_compute; lia).
  split; [exact H|]. split.
  - apply (proj1 (proj2 C4_bench_capacity) C4_both_seated 1%nat 1050%Z "A"
             (mkPlayer "A" "A" "1" (2760 + 14) 1511 0 0 0 None true 1030 false 0 true));
      reflexivity || exact H.
  - apply (proj2 (proj2 C4_bench_capacity) twoAtSpawn 1%nat 2000%Z "player_1010_a"
             (p_set_pos (656 # 2) 176 (createPlayerState "player_1010_a" "Ada" "1" 1010)));
      reflexivity.
Defined.

(** ** C5: seat assignment *)

(** C5, evaluated on the run where it fails.  [A] and [B] are restored
    from the persisted document next to the bench and reconnect.  [A] sits
    first and is put on the seat at offset +14, [B] sits second and is put
    on the seat at offset -14.  [A] then stands up and sits down again: one
    connected occupant is seated, so [A] is put at offset -14 as well, and
    the two seated, connected occupants are at the same position
    (2746, 1511). *)
Theorem C5_second_seat_taken_twice :
  seatOf "A" (fst (run C5_start C5_events)) = Some (2774, 1511, true, true)
  /\ seatOf "B" (fst (run C5_start C5_events)) = Some (2746, 1511, true, true)
  /\ seatOf "A" (fst (run C5_start (C5_events ++ C5_resit))) = Some (2746, 1511, true, true)
  /\ seatOf "B" (fst (run C5_start (C5_events ++ C5_resit))) = Some (2746, 1511, true, true).
Proof. repeat split; vm_compute; reflexivity. Qed.

(** ** C6: axis-separated movement *)

Lemma Qneqb_false_eq (a : Q) : Qneqb a 0 = false -> a == 0.
Proof.
  unfold Qneqb. intro H. apply negb_false_true in H. apply Qeq_bool_eq. assumption.
Qed.

(** [processPlayerInput] computes the axis separation of the specification. *)
Lemma processPlayerInput_axisSeparation (r : WorldMap.Registry) (now : Z)
  (p : Player) (input : Input) :
  let p' := processPlayerInput r now p input in
  let '(ivx, ivy) := inputVelocity (keys input) in
  let '((sx, sy), (svx, svy)) :=
    spec_axisSeparation r (x p) (y p) ivx ivy (TICK_INTERVAL / 1000) in
  x p' == sx /\ y p' == sy /\ vx p' == svx /\ vy p' == svy.
Proof.
  unfold processPlayerInput, spec_axisSeparation, clampToWorld.
  destruct (inputVelocity (keys input)) as [ivx ivy].
  set (dt := TICK_INTERVAL / 1000).
  (* X axis *)
  assert (HX : exists cx cvx sx svx,
             (if Qneqb ivx 0
              then if canMoveTo r (x p + ivx * dt) (y p) then (x p + ivx * dt, ivx) else (x p, 0)
              else (x p, ivx)) = (cx, cvx)
             /\ (if canMoveTo r (x p + ivx * dt) (y p) then (x p + ivx * dt, ivx) else (x p, 0))
                = (sx, svx)
             /\ cx == sx /\ cvx == svx).
  { destruct (Qneqb ivx 0) eqn:E.
    - destruct (canMoveTo r (x p + ivx * dt) (y p)); do 4 eexists;
        (split; [reflexivity|]); (split; [reflexivity|]); split; reflexivity.
    - apply Qneqb_false_eq in E.
      destruct (canMoveTo r (x p + ivx * dt) (y p)); do 4 eexists;
        (split; [reflexivity|]); (split; [reflexivity|]); split;
        rewrite ?E; try reflexivity; ring. }
  destruct HX as (cx & cvx & sx & svx & -> & -> & Hx & Hvx).
  (* Y axis *)
  assert (Hcm : canMoveTo r cx (y p + ivy * dt) = canMoveTo r sx (y p + ivy * dt))
    by (apply canMoveTo_comp; [exact Hx | reflexivity]).
  assert (HY : exists cy cvy sy svy,
             (if Qneqb ivy 0
              then if canMoveTo r cx (y p + ivy * dt) then (y p + ivy * dt, ivy) else (y p, 0)
              else (y p, ivy)) = (cy, cvy)
             /\ (if canMoveTo r sx (y p + ivy * dt) then (y p + ivy * dt, ivy) else (y p, 0))
                = (sy, svy)
             /\ cy == sy /\ cvy == svy).
  { rewrite Hcm. destruct (Qneqb ivy 0) eqn:E.
    - destruct (canMoveTo r sx (y p + ivy * dt)); do 4 eexists;
        (split; [reflexivity|]); (split; [reflexivity|]); split; reflexivity.
    - apply Qneqb_false_eq in E.
      destruct (canMoveTo r sx (y p + ivy * dt)); do 4 eexists;
        (split; [reflexivity|]); (split; [reflexivity|]); split;
        rewrite ?E; try reflexivity; ring. }
  destruct HY as (cy & cvy & sy & svy & -> & -> & Hy & Hvy).
  cbn [x y vx vy].
  split; [apply Math_max_comp, Math_min_comp; exact Hx|].
  split; [apply Math_max_comp, Math_min_comp; exact Hy|].
  split; assumption.
Qed.

(** C6.  For a connected occupant that is neither embracing nor seated
    and has a buffered input, the record after one tick carries the
    position and velocity that axis separation, as the specification words
    it, yields from the buffered keys over one tick interval.  In
    particular, at 20 ticks per second and 125 px/s, an occupant at
    (100, 100) whose buffered keys are [right] only, with the destination
    unobstructed, ends the tick at x = 106.25, y = 100. *)
Theorem C6_axis_separation :
  (forall s now i p input,
      get_player i (players s) = Some p ->
      connected p = true -> hugging p = false -> sitting p = false ->
      lastInput p = Some input ->
      exists p',
        get_player i (players (fst (gameTick now s))) = Some p'
        /\ let '(ivx, ivy) := inputVelocity (keys input) in
           let '((sx, sy), (svx, svy)) :=
             spec_axisSeparation (registry s) (x p) (y p) ivx ivy (TICK_INTERVAL / 1000) in
           x p' == sx /\ y p' == sy /\ vx p' == svx /\ vy p' == svy)
  /\ (forall s now i p input,
         get_player i (players s) = Some p ->
         connected p = true -> hugging p = false -> sitting p = false ->
         lastInput p = Some input -> keys input = onlyRight ->
         x p == 100 -> y p == 100 ->
         canMoveTo (registry s) (x p + PLAYER_SPEED * (1 / TICK_RATE)) (y p) = true ->
         exists p',
           get_player i (players (fst (gameTick now s))) = Some p'
           /\ x p' == 10625 # 100 /\ y p' == 100).
Proof.
  assert (Htick : forall s now i p input,
             get_player i (players s) = Some p ->
             connected p = true -> hugging p = false -> sitting p = false ->
             lastInput p = Some input ->
             get_player i (players (fst (gameTick now s)))
             = Some (processPlayerInput (registry s) now p input)).
  { intros s now i p input Hg Hc Hh Hs Hi.
    rewrite (get_player_gameTick now s i p Hg). f_equal.
    unfold expireHug, hugExpired. rewrite Hh, andb_false_r. cbn [andb].
    unfold tickPlayer. rewrite Hc, Hh, Hs, Hi. reflexivity. }
  split.
  - intros s now i p input Hg Hc Hh Hs Hi.
    exists (processPlayerInput (registry s) now p input).
    split; [apply Htick; assumption|].
    apply processPlayerInput_axisSeparation.
  - intros s now i p input Hg Hc Hh Hs Hi Hk Hx Hy Hfree.
    exists (processPlayerInput (registry s) now p input).
    split; [apply Htick; assumption|].
    pose proof (processPlayerInput_axisSeparation (registry s) now p input) as H.
    cbv zeta in H. rewrite Hk in H.
    change (inputVelocity onlyRight) with (0 + PLAYER_SPEED, 0) in H.
    unfold spec_axisSeparation in H.
    assert (E1 : canMoveTo (registry s) (x p + (0 + PLAYER_SPEED) * (TICK_INTERVAL / 1000)) (y p)
                 = true).
    { rewrite <- Hfree. apply canMoveTo_comp; [|reflexivity].
      apply Qplus_comp; [reflexivity|]. reflexivity. }
    rewrite E1 in H.
    destruct (canMoveTo (registry s) _ (y p + 0 * (TICK_INTERVAL / 1000)));
      cbn [clampToWorld] in H; destruct H as (H1 & H2 & _).
    + split.
      * rewrite H1, Math_max_min_id.
        -- rewrite Hx. reflexivity.
        -- rewrite Hx. split; discriminate.
      * rewrite H2, Math_max_min_id.
        -- rewrite Hy. reflexivity.
        -- rewrite Hy. split; discriminate.
    + split.
      * rewrite H1, Math_max_min_id.
        -- rewrite Hx. reflexivity.
        -- rewrite Hx. split; discriminate.
      * rewrite H2, Math_max_min_id.
        -- rewrite Hy. reflexivity.
        -- rewrite Hy. split; discriminate.
Qed.

Lemma C6_witness :
  canMoveTo (registry C6_state) (100 + PLAYER_SPEED * (1 / TICK_RATE)) 100 = true
  /\ exists p',
       get_player "p1" (players (fst (gameTick 1050 C6_state))) = Some p'
       /\ x p' == 10625 # 100 /\ y p' == 100.
Proof.
  assert (Hfree : canMoveTo (registry C6_state) (100 + PLAYER_SPEED * (1 / TICK_RATE)) 100 = true)
    by (vm_compute; reflexivity).
  split; [exact Hfree|].
  apply (proj2 C6_axis_separation C6_state 1050%Z "p1"
           (mkPlayer "p1" "Ada" "1" 100 100 0 0 0
              (Some (mkInput onlyRight 1 1020)) true 1000 false 0 false)
           (mkInput onlyRight 1 1020));
    reflexivity || exact Hfree.
Defined.

(** ** C7: overlapping placements are dropped *)

Lemma In_object_set (o : DisplayObject) (l : list DisplayObject) :
  In o (object_set o l).
Proof.
  induction l as [|q l IH]; simpl; [left; reflexivity|].
  destruct (String.eqb (o_id q) (o_id o)); [left; reflexivity | right; assumption].
Qed.

Lemma existsb_false_forall {A : Type} (f : A -> bool) (l : list A) :
  existsb f l = false -> forall a, In a l -> f a = false.
Proof.
  intros H a Ha. destruct (f a) eqn:E; [|reflexivity].
  assert (existsb f l = true) by (apply existsb_exists; exists a; split; assumption).
  congruence.
Qed.

(** C7.  When the object a [place_object] message describes overlaps an
    object of the registry, the handler returns the state unchanged (object
    registry, obstacle registries and everything else) and broadcasts no
    [object_placed]; when moreover the request passes the checks made
    before the overlap test (authenticated connection, anchor within the
    world) nothing at all is emitted, in particular no error.  Hence
    whenever [object_placed] is broadcast, the placed object is in the
    registry and overlaps none of the objects that were there. *)
Theorem C7_overlap_is_silent_noop :
  (forall c now rnd raw s objectData,
      normalizeObjectData now rnd (placeRaw raw) = Some objectData ->
      existsb (fun existing => objectsOverlap existing objectData) (objects s) = true ->
      fst (handlePlaceObject c now rnd raw s) = s
      /\ existsb isObjectPlaced (snd (handlePlaceObject c now rnd raw s)) = false
      /\ (truthy_opt (client_playerId c s) = true -> outOfWorld objectData = false ->
          snd (handlePlaceObject c now rnd raw s) = []))
  /\ (forall c now rnd raw s o,
         In (Broadcast (ObjectPlaced o)) (snd (handlePlaceObject c now rnd raw s)) ->
         In o (objects (fst (handlePlaceObject c now rnd raw s)))
         /\ forall existing, In existing (objects s) -> objectsOverlap existing o = false).
Proof.
  split.
  - intros c now rnd raw s objectData Hn Hov. unfold handlePlaceObject.
    rewrite Hn, Hov.
    destruct (negb (truthy_opt (client_playerId c s))) eqn:Ha.
    + repeat split. intro Ht. rewrite Ht in Ha. discriminate.
    + destruct (outOfWorld objectData) eqn:Ho.
      * repeat split. intros _ Hf. discriminate.
      * repeat split.
  - intros c now rnd raw s o. unfold handlePlaceObject.
    destruct (negb (truthy_opt (client_playerId c s)));
      [intros [H | []]; discriminate|].
    destruct (normalizeObjectData now rnd (placeRaw raw)) as [objectData|];
      [|intros [H | []]; discriminate].
    destruct (outOfWorld objectData); [intros [H | []]; discriminate|].
    destruct (existsb _ (objects s)) eqn:Hov; [intros []|].
    cbn [fst snd]. intros [H | [H | []]]; [|discriminate].
    injection H as <-. split.
    + cbn [objects set_registry set_objects]. apply In_object_set.
    + intros existing Hin.
      apply (existsb_false_forall _ _ Hov existing Hin).
Qed.

Lemma C7_witness :
  List.length (objects C7_state) = 1%nat
  /\ handlePlaceObject 1 1030 "o2" (C7_raw 520 530) C7_state = (C7_state, []).
Proof.
  split; [reflexivity|].
  destruct (proj1 C7_overlap_is_silent_noop 1%nat 1030%Z "o2" (C7_raw 520 530) C7_state
              (mkObject (fresh_object_id 1030 "o2") 520 530 OBJECT_WIDTH OBJECT_HEIGHT
                 "pic.png" "hello" 1030 1030))
    as (H1 & _ & H3); [reflexivity | vm_compute; reflexivity |].
  rewrite (surjective_pairing (handlePlaceObject 1 1030 "o2" (C7_raw 520 530) C7_state)).
  rewrite H1, H3; reflexivity.
Defined.

(** ** C8: buffered input and acknowledged sequence number *)

(** C8, as stated, fails: receiving packet 5 leaves the acknowledged
    sequence number at 0, and when packet 3 arrives before the next tick
    that tick acknowledges 3; the sequence number 5 is never recorded. *)
Lemma C8_counterexample :
  ackOf "player_1010_a" C8_state = Some 0%Z
  /\ ackOf "player_1010_a" (fst (handleInput 1 (Some (C8_packet 5)) C8_state)) = Some 0%Z
  /\ ackOf "player_1010_a"
       (fst (run C8_state
               [ Message 1 1020 "" (InputMsg (Some (C8_packet 5)));
                 Message 1 1030 "" (InputMsg (Some (C8_packet 3)));
                 Tick 1050 ])) = Some 3%Z.
Proof. repeat split; vm_compute; reflexivity. Qed.

(** C8, amended.  For a connected occupant, receiving an input packet
    replaces the buffered packet whatever it was and changes nothing else
    of the record; the acknowledged sequence number is updated by the tick
    that applies the buffered packet (occupant connected, neither embracing
    nor seated), to the maximum of its old value and the packet's sequence
    number; and over any sequence of events the acknowledged sequence
    number of an occupant never decreases. *)
Theorem C8_buffer_and_acknowledge :
  (forall s c input pid p,
      client_playerId c s = Some pid -> truthy pid = true ->
      get_player pid (players s) = Some p -> connected p = true ->
      get_player pid (players (fst (handleInput c input s)))
      = Some (p_set_lastInput input p))
  /\ (forall s now i p input,
         get_player i (players s) = Some p ->
         connected p = true -> hugging p = false -> sitting p = false ->
         lastInput p = Some input ->
         exists p',
           get_player i (players (fst (gameTick now s))) = Some p'
           /\ lastInputSeq p' = Z.max (lastInputSeq p) (seq input))
  /\ (forall s es i p,
         reachable s -> get_player i (players s) = Some p ->
         exists p',
           get_player i (players (fst (run s es))) = Some p'
           /\ (lastInputSeq p <= lastInputSeq p')%Z).
Proof.
  split; [|split].
  - intros s c input pid p Hc Ht Hg Hcon. unfold handleInput.
    rewrite Hc, Ht. cbn [negb]. rewrite Hg, Hcon. cbn [negb fst players set_players].
    rewrite get_update_same by reflexivity. rewrite Hg. reflexivity.
  - intros s now i p input Hg Hc Hh Hs Hi.
    exists (processPlayerInput (registry s) now p input). split.
    + rewrite (get_player_gameTick now s i p Hg). f_equal.
      unfold expireHug, hugExpired. rewrite Hh, andb_false_r. cbn [andb].
      unfold tickPlayer. rewrite Hc, Hh, Hs, Hi. reflexivity.
    + apply processPlayerInput_fields.
  - intros s es i p Hr Hg. apply run_get_seq; [|assumption].
    apply (reachable_Inv s Hr).
Qed.

Lemma C8_witness :
  reachable C8_state
  /\ (exists p,
         get_player "player_1010_a" (players (fst (handleInput 1 (Some (C8_packet 5)) C8_state)))
         = Some p
         /\ lastInput p = Some (C8_packet 5) /\ lastInputSeq p = 0%Z)
  /\ (exists p',
         get_player "player_1010_a"
           (players (fst (run C8_state
                            [ Message 1 1020 "" (InputMsg (Some (C8_packet 5)));
                              Tick 1050;
                              Message 1 1060 "" (InputMsg (Some (C8_packet 3)));
                              Tick 1100 ]))) = Some p'
         /\ (0 <= lastInputSeq p')%Z).
Proof.
  assert (Hr : reachable C8_state).
  { exists 1000%Z, "", [], [], [],
      [ Connect 1; Message 1 1010 "a" (Join (Some "Ada") "1" None) ].
    reflexivity. }
  split; [exact Hr|]. split.
  - eexists. split.
    + apply (proj1 C8_buffer_and_acknowledge C8_state 1%nat (Some (C8_packet 5))
               "player_1010_a"
               (p_set_pos (656 # 2) 176 (createPlayerState "player_1010_a" "Ada" "1" 1010)));
        reflexivity.
    + split; reflexivity.
  - apply (proj2 (proj2 C8_buffer_and_acknowledge) C8_state _ "player_1010_a"
             (p_set_pos (656 # 2) 176 (createPlayerState "player_1010_a" "Ada" "1" 1010)) Hr).
    reflexivity.
Defined.

(** ** C9: an unknown client-supplied identifier is not adopted *)

(** C9.  A join carrying an identifier that is not in the registry adds no
    record under that identifier: the only identifier that can enter the
    registry is the one the server generates, [fresh_player_id now rnd];
    when the join is accepted that identifier is registered, attached to
    the connection and returned in the welcome.  Over a whole run, every
    identifier of the registry comes from the persisted document or was
    generated by the server while handling a join. *)
Theorem C9_unknown_identifier_not_adopted :
  (forall c now rnd n ch pid s,
      has_player pid (players s) = false ->
      let s' := fst (handleJoin c now rnd n ch (Some pid) s) in
      let gen := fresh_player_id now rnd in
      (forall i, In i (map id (players s')) -> In i (map id (players s)) \/ i = gen)
      /\ (pid <> gen -> has_player pid (players s') = false)
      /\ ((connectedCount s < 2)%nat ->
          In gen (map id (players s'))
          /\ (is_open c s = true -> client_playerId c s' = Some gen)
          /\ exists t wp fo ob co rest,
               snd (handleJoin c now rnd n ch (Some pid) s)
               = Send c (Welcome gen t wp fo ob co) :: rest))
  /\ (forall now0 rnd0 saved tiles raws es i,
         In i (map id (players (fst (run (startServer now0 rnd0 saved tiles raws) es)))) ->
         In i (map sv_id saved) \/ issued es i).
Proof.
  split.
  - intros c now rnd n ch pid s Hnew s' gen.
    assert (Hids : forall i, In i (map id (players s')) ->
                             In i (map id (players s)) \/ i = gen).
    { intros i Hin. unfold s' in Hin.
      destruct (Nat.lt_ge_cases (connectedCount s) 2) as [Hlt | Hge].
      - destruct (handleJoin_accepted c now rnd n ch (Some pid) s Hlt)
          as (j & p & s1 & t & wp & fo & ob & co & rest & Heq & Hj & Hid & _ & Hps & _).
        rewrite Heq in Hin. cbn [fst] in Hin. rewrite Hps, player_set_ids in Hin.
        destruct Hin as [Hin | ->]; [left; assumption|]. right.
        rewrite Hid. destruct Hj as [-> | [Hp Hhas]]; [reflexivity|].
        injection Hp as ->. congruence.
      - left. unfold handleJoin in Hin. fold (connectedCount s) in Hin.
        assert (E : (MAX_PLAYERS <=? connectedCount s)%nat = true)
          by (apply Nat.leb_le; exact Hge).
        rewrite E in Hin. assumption. }
    split; [exact Hids|]. split.
    + intro Hne. destruct (has_player pid (players s')) eqn:E; [|reflexivity].
      apply has_player_In in E. destruct (Hids pid E) as [H | H]; [|contradiction].
      apply has_player_In in H. congruence.
    + intro Hlt.
      destruct (handleJoin_accepted c now rnd n ch (Some pid) s Hlt)
        as (j & p & s1 & t & wp & fo & ob & co & rest & Heq & Hj & Hid & _ & Hps & Hcl).
      assert (Hgen : j = gen).
      { destruct Hj as [-> | [Hp Hhas]]; [reflexivity|]. injection Hp as ->. congruence. }
      rewrite Hgen in Heq, Hcl, Hid. unfold s'. rewrite Heq. cbn [fst snd].
      split; [|split].
      * rewrite Hps, player_set_ids. right. symmetry. exact Hid.
      * exact Hcl.
      * exists t, wp, fo, ob, co, rest. reflexivity.
  - intros now0 rnd0 saved tiles raws es i Hin.
    destruct (restored_ids now0 saved []) as [Hnd Hsaved]; [constructor|].
    apply run_ids in Hin.
    + destruct Hin as [Hin | Hin]; [|right; assumption].
      rewrite players_startServer in Hin.
      destruct (Hsaved i Hin) as [[] | H]. left. assumption.
    + unfold uniqueIds. rewrite players_startServer. assumption.
Qed.

Lemma C9_witness :
  has_player "player_chosen_by_client" (players C9_state) = false
  /\ "player_chosen_by_client" <> fresh_player_id 1010 "k3x"
  /\ has_player "player_chosen_by_client"
       (players (fst (handleJoin 1 1010 "k3x" (Some "Ada") "1"
                        (Some "player_chosen_by_client") C9_state))) = false
  /\ In "player_1010_k3x"
       (map id (players (fst (handleJoin 1 1010 "k3x" (Some "Ada") "1"
                                (Some "player_chosen_by_client") C9_state)))).
Proof.
  assert (H0 : has_player "player_chosen_by_client" (players C9_state) = false)
    by reflexivity.
  assert (H1 : "player_chosen_by_client" <> fresh_player_id 1010 "k3x")
    by (vm_compute; discriminate).
  assert (H2 : (connectedCount C9_state < 2)%nat) by (vm_compute; lia).
  pose proof (proj1 C9_unknown_identifier_not_adopted 1%nat 1010%Z "k3x" (Some "Ada") "1"
                "player_chosen_by_client" C9_state H0) as H.
  cbv zeta in H. destruct H as (_ & Hno & Hyes).
  split; [exact H0|]. split; [exact H1|]. split; [exact (Hno H1)|].
  exact (proj1 (Hyes H2)).
Defined.

(** ** C10: the tick leaves disconnected occupants alone *)

(** C10.  In a reachable state, a tick returns every disconnected
    occupant's record unchanged, so [hugging] and [hugEndTime] keep their
    values whatever the clock reads, and emits no [hug_ended] for that
    occupant.  The same holds over any sequence of events, ticks included,
    that contains no join resurrecting the occupant: a disconnected
    embracing occupant stays embracing until it has reconnected. *)
Theorem C10_disconnected_embrace_persists :
  (forall s now i p,
      reachable s -> get_player i (players s) = Some p -> connected p = false ->
      (exists p',
          get_player i (players (fst (gameTick now s))) = Some p'
          /\ hugging p' = hugging p /\ hugEndTime p' = hugEndTime p /\ p' = p)
      /\ filter (isHugEnded i) (snd (gameTick now s)) = [])
  /\ (forall s es i p,
         reachable s -> get_player i (players s) = Some p -> connected p = false ->
         forallb (fun e => negb (rejoins i e)) es = true ->
         get_player i (players (fst (run s es))) = Some p
         /\ filter (isHugEnded i) (snd (run s es)) = []).
Proof.
  split.
  - intros s now i p Hr Hg Hc.
    destruct (reachable_Inv s Hr) as (Hnd & _).
    destruct (step_disconnected s (Tick now) i p Hnd Hg Hc eq_refl) as [H1 H2].
    cbn [step] in H1, H2. split; [|exact H2].
    exists p. repeat split. exact H1.
  - intros s es i p Hr Hg Hc Hes.
    destruct (reachable_Inv s Hr) as (Hnd & _).
    apply run_disconnected; assumption.
Qed.

Lemma C10_witness :
  reachable C10_state
  /\ get_player "player_1010_a" (players C10_state) = Some C10_A
  /\ (exists p',
         get_player "player_1010_a" (players (fst (gameTick 9000 C10_state))) = Some p'
         /\ hugging p' = true /\ hugEndTime p' = 4000%Z)
  /\ filter (isHugEnded "player_1010_a") (snd (gameTick 9000 C10_state)) = []
  /\ List.length (filter (isHugEnded "player_1020_b") (snd (gameTick 9000 C10_state))) = 1%nat.
Proof.
  assert (Hr : reachable C10_state).
  { exists 1000%Z, "", [], [], [],
      [ Connect 1; Connect 2;
        Message 1 1010 "a" (Join (Some "Ada") "1" None);
        Message 2 1020 "b" (Join (Some "Bob") "2" None);
        Message 1 2000 "" Hug;
        Close 1 ].
    reflexivity. }
  assert (Hg : get_player "player_1010_a" (players C10_state) = Some C10_A)
    by (vm_compute; reflexivity).
  split; [exact Hr|]. split; [exact Hg|].
  destruct (proj1 C10_disconnected_embrace_persists C10_state 9000%Z "player_1010_a"
              C10_A Hr Hg eq_refl) as [(p' & H1 & H2 & H3 & _) H4].
  split; [exists p'; repeat split; assumption|].
  split; [exact H4|].
  vm_compute. reflexivity.
Defined.

(** * Further properties of the server *)

(** ** Which events write which part of the state *)

Ltac split_fst :=
  repeat match goal with
  | |- context [fst (if ?b then _ else _)] => destruct b eqn:?
  | |- context [fst (match ?o with Some _ => _ | None => _ end)] => destruct o eqn:?
  | |- context [fst (let '(_, _) := ?u in _)] => destruct u eqn:?
  | |- context [fst (match ?l with [] => _ | _ :: _ => _ end)] => destruct l eqn:?
  end.

Ltac unfold_handlers :=
  unfold handleJoin, handleInput, handleResetPosition, handlePlaceCollider,
    handleRemoveCollider, handlePlaceObject, handleRemoveObject, handleHug,
    handleBenchSit, handleBenchStand, handleDisconnect;
  cbv zeta.

Lemma registry_assignFollowers (s : GameState) :
  registry (assignFollowersToPlayers s) = registry s.
Proof. unfold assignFollowersToPlayers. destruct (getConnectedPlayers s); reflexivity. Qed.

Lemma objects_assignFollowers (s : GameState) :
  objects (assignFollowersToPlayers s) = objects s.
Proof. unfold assignFollowersToPlayers. destruct (getConnectedPlayers s); reflexivity. Qed.

Lemma tick_assignFollowers (s : GameState) :
  tick (assignFollowersToPlayers s) = tick s.
Proof. unfold assignFollowersToPlayers. destruct (getConnectedPlayers s); reflexivity. Qed.

Ltac frame_cases e :=
  destruct e as [? | ? ? ? [] | ? | ?]; try discriminate; cbn [step];
  try match goal with |- context [is_open ?c ?s] => destruct (is_open c s) end;
  try reflexivity; cbn [handleMessage]; unfold_handlers; split_fst;
  cbn [fst]; rewrite ?registry_assignFollowers, ?objects_assignFollowers,
    ?tick_assignFollowers; try reflexivity.

Lemma step_tiles_frame (s : GameState) (e : Event) :
  touchesTiles e = false ->
  WorldMap.dynamicColliders (registry (fst (step s e)))
  = WorldMap.dynamicColliders (registry s).
Proof.
  intro H. frame_cases e.
  all: unfold addObjectColliderOf, WorldMap.addObjectCollider;
    try match goal with |- context [if ?b then _ else _] => destruct b end; reflexivity.
Qed.

Lemma step_objects_frame (s : GameState) (e : Event) :
  touchesObjects e = false ->
  objects (fst (step s e)) = objects s
  /\ WorldMap.objectColliders (registry (fst (step s e)))
     = WorldMap.objectColliders (registry s).
Proof.
  intro H. frame_cases e; try (split; reflexivity).
  - unfold WorldMap.addColliderTile in *.
    match goal with H : (if ?b then _ else _) = _ |- _ => destruct b; injection H as <- _ end;
      split; reflexivity.
  - unfold WorldMap.addColliderTile in *.
    match goal with H : (if ?b then _ else _) = _ |- _ => destruct b; injection H as <- _ end;
      split; reflexivity.
  - unfold WorldMap.removeColliderTile in *.
    match goal with H : (_, _) = _ |- _ => injection H as <- _ end. split; reflexivity.
  - unfold WorldMap.removeColliderTile in *.
    match goal with H : (_, _) = _ |- _ => injection H as <- _ end. split; reflexivity.
Qed.


Lemma step_followers_frame (s : GameState) (e : Event) :
  touchesFollowers e = false -> followers (fst (step s e)) = followers s.
Proof.
  intro H. frame_cases e.
Qed.

(** ** Obstacle tiles *)

Lemma tile_eqb_eq (a b : Z * Z) : WorldMap.tile_eqb a b = true <-> a = b.
Proof.
  destruct a as [a1 a2], b as [b1 b2]. unfold WorldMap.tile_eqb. simpl.
  rewrite andb_true_iff, !Z.eqb_eq. split; [intros [-> ->]; reflexivity | intro H; injection H; auto].
Qed.

Lemma hasColliderTile_In (r : WorldMap.Registry) (col row : Z) :
  WorldMap.hasColliderTile r col row = true <-> In (col, row) (WorldMap.dynamicColliders r).
Proof.
  unfold WorldMap.hasColliderTile. rewrite existsb_exists. split.
  - intros (t & Hin & Ht). apply tile_eqb_eq in Ht. subst t. assumption.
  - intro Hin. exists (col, row). split; [assumption | apply tile_eqb_eq; reflexivity].
Qed.

Lemma filter_tile_absent (t : Z * Z) (l : list (Z * Z)) :
  existsb (WorldMap.tile_eqb t) l = false ->
  filter (fun u => negb (WorldMap.tile_eqb t u)) l = l.
Proof.
  induction l as [|u l IH]; simpl; [reflexivity|].
  intro H. apply orb_false_iff in H. destruct H as [H1 H2].
  rewrite H1. simpl. rewrite IH by assumption. reflexivity.
Qed.

Lemma set_registry_same (s : GameState) : set_registry s (registry s) = s.
Proof. destruct s. reflexivity. Qed.

Lemma registry_eta (r : WorldMap.Registry) :
  WorldMap.mkRegistry (WorldMap.dynamicColliders r) (WorldMap.objectColliders r) = r.
Proof. destruct r. reflexivity. Qed.

Lemma tileInMap_dec (col row : Z) :
  ((col <? 0)%Z || (WorldMap.MAP_COLS <=? col)%Z || (row <? 0)%Z || (WorldMap.MAP_ROWS <=? row)%Z)
  = false <-> tileInMap col row.
Proof.
  unfold tileInMap. rewrite !orb_false_iff, !Z.ltb_ge, !Z.leb_gt. tauto.
Qed.

(** A point whose tile is registered is obstructed. *)
Lemma isCollidable_tile (r : WorldMap.Registry) (px py : Q) :
  WorldMap.hasColliderTile r (fst (WorldMap.toTileCoords px py))
    (snd (WorldMap.toTileCoords px py)) = true ->
  WorldMap.isCollidable r px py = true.
Proof.
  unfold WorldMap.isCollidable. destruct (WorldMap.toTileCoords px py) as [col row].
  simpl. intros ->. reflexivity.
Qed.

(** X1.  A [place_collider] for a tile of the map, from a joined
    connection, registers the tile, broadcasts [collider_placed] and
    persists the tile list (also when the tile was registered already);
    from then on every point of that tile is obstructed, the other tiles
    are as before, and occupants and display objects are untouched. *)
Theorem place_collider_blocks_tile :
  forall c col row s,
    truthy_opt (client_playerId c s) = true -> tileInMap col row ->
    let s' := fst (handlePlaceCollider c (Some col) (Some row) s) in
    snd (handlePlaceCollider c (Some col) (Some row) s)
    = [ Broadcast (ColliderPlaced col row);
        SaveColliders (WorldMap.getColliders (registry s')) ]
    /\ (forall px py, WorldMap.toTileCoords px py = (col, row) ->
                      WorldMap.isCollidable (registry s') px py = true)
    /\ (forall c2 r2, WorldMap.hasColliderTile (registry s') c2 r2
                      = WorldMap.hasColliderTile (registry s) c2 r2
                        || WorldMap.tile_eqb (col, row) (c2, r2))
    /\ players s' = players s /\ objects s' = objects s
    /\ WorldMap.objectColliders (registry s') = WorldMap.objectColliders (registry s).
Proof.
  intros c col row s Hauth Hin s'.
  assert (Hs' : handlePlaceCollider c (Some col) (Some row) s
                = (set_registry s
                     (WorldMap.mkRegistry
                        (if WorldMap.hasColliderTile (registry s) col row
                         then WorldMap.dynamicColliders (registry s)
                         else WorldMap.dynamicColliders (registry s) ++ [(col, row)])
                        (WorldMap.objectColliders (registry s))),
                   [ Broadcast (ColliderPlaced col row);
                     SaveColliders
                       (if WorldMap.hasColliderTile (registry s) col row
                        then WorldMap.dynamicColliders (registry s)
                        else WorldMap.dynamicColliders (registry s) ++ [(col, row)]) ])).
  { unfold handlePlaceCollider, WorldMap.addColliderTile. rewrite Hauth. cbn [negb].
    rewrite (proj2 (tileInMap_dec col row) Hin). reflexivity. }
  unfold s'. rewrite Hs'. cbn [fst snd registry set_registry players objects].
  assert (Hhas : forall c2 r2,
             WorldMap.hasColliderTile
               (WorldMap.mkRegistry
                  (if WorldMap.hasColliderTile (registry s) col row
                   then WorldMap.dynamicColliders (registry s)
                   else WorldMap.dynamicColliders (registry s) ++ [(col, row)])
                  (WorldMap.objectColliders (registry s))) c2 r2
             = WorldMap.hasColliderTile (registry s) c2 r2
               || WorldMap.tile_eqb (col, row) (c2, r2)).
  { intros c2 r2. unfold WorldMap.hasColliderTile at 1. cbn [WorldMap.dynamicColliders].
    destruct (WorldMap.hasColliderTile (registry s) col row) eqn:E.
    - fold (WorldMap.hasColliderTile (registry s) c2 r2).
      destruct (WorldMap.tile_eqb (col, row) (c2, r2)) eqn:E2; [|rewrite orb_false_r; reflexivity].
      apply tile_eqb_eq in E2. injection E2 as <- <-. rewrite E. reflexivity.
    - rewrite existsb_app. cbn [existsb]. rewrite orb_false_r.
      fold (WorldMap.hasColliderTile (registry s) c2 r2).
      f_equal. unfold WorldMap.tile_eqb. cbn [fst snd].
      rewrite (Z.eqb_sym c2 col), (Z.eqb_sym r2 row). reflexivity. }
  split; [reflexivity|]. split; [|split; [exact Hhas|repeat split]].
  intros px py Hxy. apply isCollidable_tile. rewrite Hxy. cbn [fst snd].
  rewrite Hhas. replace (WorldMap.tile_eqb (col, row) (col, row)) with true
    by (symmetry; apply tile_eqb_eq; reflexivity).
  apply orb_true_r.
Qed.

(** X2.  A [place_collider] for a tile outside the map grid, from a joined
    connection, is dropped without a trace: the state is unchanged and
    nothing is emitted, not even an error. *)
Theorem place_collider_outside_map_is_silent :
  forall c col row s,
    truthy_opt (client_playerId c s) = true -> ~ tileInMap col row ->
    handlePlaceCollider c (Some col) (Some row) s = (s, []).
Proof.
  intros c col row s Hauth Hout.
  unfold handlePlaceCollider, WorldMap.addColliderTile. rewrite Hauth. cbn [negb].
  destruct ((col <? 0)%Z || (WorldMap.MAP_COLS <=? col)%Z || (row <? 0)%Z
            || (WorldMap.MAP_ROWS <=? row)%Z) eqn:E.
  - cbn [negb]. rewrite set_registry_same. reflexivity.
  - apply tileInMap_dec in E. contradiction.
Qed.

(** X3.  A [remove_collider] for a tile that is not registered, from a
    joined connection, changes nothing and emits nothing. *)
Theorem remove_absent_collider_is_silent :
  forall c col row s,
    truthy_opt (client_playerId c s) = true ->
    WorldMap.hasColliderTile (registry s) col row = false ->
    handleRemoveCollider c (Some col) (Some row) s = (s, []).
Proof.
  intros c col row s Hauth Habs.
  unfold handleRemoveCollider, WorldMap.removeColliderTile. rewrite Hauth, Habs. cbn [negb].
  unfold WorldMap.hasColliderTile in Habs. rewrite (filter_tile_absent _ _ Habs).
  rewrite registry_eta, set_registry_same. reflexivity.
Qed.

(** X4.  A [remove_collider] for a registered tile, from a joined
    connection, unregisters it, broadcasts [collider_removed] and persists
    the tile list; the other tiles stay registered. *)
Theorem remove_present_collider :
  forall c col row s,
    truthy_opt (client_playerId c s) = true ->
    WorldMap.hasColliderTile (registry s) col row = true ->
    let s' := fst (handleRemoveCollider c (Some col) (Some row) s) in
    snd (handleRemoveCollider c (Some col) (Some row) s)
    = [ Broadcast (ColliderRemoved col row);
        SaveColliders (WorldMap.getColliders (registry s')) ]
    /\ WorldMap.hasColliderTile (registry s') col row = false
    /\ (forall c2 r2, (c2, r2) <> (col, row) ->
                      WorldMap.hasColliderTile (registry s') c2 r2
                      = WorldMap.hasColliderTile (registry s) c2 r2)
    /\ players s' = players s /\ objects s' = objects s.
Proof.
  intros c col row s Hauth Hpres s'. unfold s'.
  unfold handleRemoveCollider, WorldMap.removeColliderTile. rewrite Hauth, Hpres.
  cbn [negb fst snd registry set_registry players objects].
  split; [reflexivity|].
  assert (Hhas : forall c2 r2,
             WorldMap.hasColliderTile
               (WorldMap.mkRegistry
                  (filter (fun t => negb (WorldMap.tile_eqb (col, row) t))
                          (WorldMap.dynamicColliders (registry s)))
                  (WorldMap.objectColliders (registry s))) c2 r2
             = WorldMap.hasColliderTile (registry s) c2 r2
               && negb (WorldMap.tile_eqb (col, row) (c2, r2))).
  { intros c2 r2. apply eq_true_iff_eq.
    rewrite andb_true_iff, !hasColliderTile_In. cbn [WorldMap.dynamicColliders].
    rewrite filter_In. tauto. }
  split; [|split; [|split; reflexivity]].
  - rewrite Hhas. replace (WorldMap.tile_eqb (col, row) (col, row)) with true
      by (symmetry; apply tile_eqb_eq; reflexivity).
    apply andb_false_r.
  - intros c2 r2 Hne. rewrite Hhas.
    destruct (WorldMap.tile_eqb (col, row) (c2, r2)) eqn:E.
    + apply tile_eqb_eq in E. congruence.
    + apply andb_true_r.
Qed.

(** X5.  Placing a tile that was not registered and removing it again
    gives back the state one started from. *)
Theorem place_then_remove_collider :
  forall c col row s,
    truthy_opt (client_playerId c s) = true -> tileInMap col row ->
    WorldMap.hasColliderTile (registry s) col row = false ->
    fst (handleRemoveCollider c (Some col) (Some row)
           (fst (handlePlaceCollider c (Some col) (Some row) s))) = s.
Proof.
  intros c col row s Hauth Hin Habs.
  unfold handlePlaceCollider, WorldMap.addColliderTile. rewrite Hauth. cbn [negb].
  rewrite (proj2 (tileInMap_dec col row) Hin), Habs. cbn [negb fst].
  unfold handleRemoveCollider, WorldMap.removeColliderTile.
  replace (client_playerId c (set_registry s _)) with (client_playerId c s) by reflexivity.
  rewrite Hauth. cbn [negb].
  match goal with |- context [if negb ?b then _ else _] => destruct b end;
    cbn [negb fst registry set_registry WorldMap.dynamicColliders WorldMap.objectColliders];
    rewrite filter_app; cbn [filter];
    replace (WorldMap.tile_eqb (col, row) (col, row)) with true
      by (symmetry; apply tile_eqb_eq; reflexivity);
    cbn [negb]; rewrite app_nil_r;
    unfold WorldMap.hasColliderTile in Habs; rewrite (filter_tile_absent _ _ Habs);
    rewrite registry_eta; destruct s; reflexivity.
Qed.

Lemma addTile_OK (l : list (Z * Z)) (col row : Z) :
  NoDup l /\ Forall (fun t => tileInMap (fst t) (snd t)) l ->
  tileInMap col row -> existsb (WorldMap.tile_eqb (col, row)) l = false ->
  NoDup (l ++ [(col, row)])
  /\ Forall (fun t => tileInMap (fst t) (snd t)) (l ++ [(col, row)]).
Proof.
  intros [Hnd Hall] Hin Habs. split.
  - apply NoDup_app; [assumption | constructor; [intros [] | constructor] |].
    intros t Ht [<- | []].
    assert (existsb (WorldMap.tile_eqb (col, row)) l = true)
      by (apply existsb_exists; exists (col, row); split;
          [assumption | apply tile_eqb_eq; reflexivity]).
    congruence.
  - apply Forall_app. split; [assumption | constructor; [exact Hin | constructor]].
Qed.

Lemma setColliders_OK (r : WorldMap.Registry) (tiles : list (Z * Z)) :
  tilesOK (WorldMap.setColliders r tiles).
Proof.
  unfold WorldMap.setColliders.
  set (r0 := WorldMap.mkRegistry [] (WorldMap.objectColliders r)).
  assert (H0 : tilesOK r0) by (split; constructor).
  clearbody r0. revert r0 H0.
  induction tiles as [|[col row] tiles IH]; intros r0 H0; simpl; [exact H0|].
  apply IH.
  destruct ((0 <=? col)%Z && (col <? WorldMap.MAP_COLS)%Z && (0 <=? row)%Z
            && (row <? WorldMap.MAP_ROWS)%Z) eqn:E; [|exact H0].
  destruct (WorldMap.hasColliderTile r0 col row) eqn:Eh.
  - destruct r0; exact H0.
  - apply addTile_OK; try assumption.
    rewrite !andb_true_iff, !Z.leb_le, !Z.ltb_lt in E. unfold tileInMap. tauto.
Qed.

Lemma dynamic_initializeObjects (now : Z) (rnd : string) (raws : list RawObject)
  (s : GameState) :
  WorldMap.dynamicColliders (registry (initializeObjects now rnd raws s))
  = WorldMap.dynamicColliders (registry s).
Proof.
  unfold initializeObjects.
  set (s0 := set_registry (set_objects s []) _).
  change (WorldMap.dynamicColliders (registry s))
    with (WorldMap.dynamicColliders (registry s0)).
  clearbody s0. revert s0.
  induction raws as [|raw raws IH]; intro s0; simpl; [reflexivity|].
  rewrite IH.
  destruct (normalizeObjectData now rnd raw) as [o|]; [|reflexivity].
  destruct (get_object (o_id o) (objects s0)); [reflexivity|].
  unfold addObjectColliderOf, WorldMap.addObjectCollider. cbn [registry set_registry].
  destruct (negb (truthy (o_id o))); reflexivity.
Qed.

Lemma dynamic_startServer (now : Z) (rnd : string) (saved : list SavedPlayer)
  (tiles : list (Z * Z)) (raws : list RawObject) :
  WorldMap.dynamicColliders (registry (startServer now rnd saved tiles raws))
  = WorldMap.dynamicColliders
      (WorldMap.setColliders (WorldMap.mkRegistry [] []) tiles).
Proof.
  unfold startServer. rewrite registry_assignFollowers.
  unfold initializeFollowers. cbn [registry set_followers].
  rewrite dynamic_initializeObjects. reflexivity.
Qed.

Lemma step_tilesOK (s : GameState) (e : Event) :
  tilesOK (registry s) -> tilesOK (registry (fst (step s e))).
Proof.
  intro H. destruct (touchesTiles e) eqn:Et.
  - destruct e as [| c now rnd [] | |]; try discriminate; cbn [step];
      destruct (is_open c s); try exact H; cbn [handleMessage].
    + unfold handlePlaceCollider.
      destruct (negb (truthy_opt (client_playerId c s))); [exact H|].
      destruct col as [col|]; [|exact H]. destruct row as [row|]; [|exact H].
      unfold WorldMap.addColliderTile.
      destruct ((col <? 0)%Z || (WorldMap.MAP_COLS <=? col)%Z || (row <? 0)%Z
                || (WorldMap.MAP_ROWS <=? row)%Z) eqn:E;
        cbn [negb fst registry set_registry]; [exact H|].
      apply tileInMap_dec in E.
      destruct (WorldMap.hasColliderTile (registry s) col row) eqn:Eh.
      * exact H.
      * apply addTile_OK; assumption.
    + unfold handleRemoveCollider.
      destruct (negb (truthy_opt (client_playerId c s))); [exact H|].
      destruct col as [col|]; [|exact H]. destruct row as [row|]; [|exact H].
      unfold WorldMap.removeColliderTile.
      assert (Hf : tilesOK (WorldMap.mkRegistry
                              (filter (fun t => negb (WorldMap.tile_eqb (col, row) t))
                                      (WorldMap.dynamicColliders (registry s)))
                              (WorldMap.objectColliders (registry s)))).
      { destruct H as [Hnd Hall]. split; cbn [WorldMap.dynamicColliders].
        - apply NoDup_filter. assumption.
        - apply Forall_forall. intros t Ht. apply filter_In in Ht.
          rewrite Forall_forall in Hall. apply Hall. tauto. }
      destruct (negb (WorldMap.hasColliderTile (registry s) col row)); exact Hf.
  - unfold tilesOK. rewrite (step_tiles_frame s e Et). exact H.
Qed.

Lemma reachable_tilesOK (s : GameState) : reachable s -> tilesOK (registry s).
Proof.
  intros (now & rnd & saved & tiles & raws & es & ->).
  assert (H0 : tilesOK (registry (startServer now rnd saved tiles raws))).
  { unfold tilesOK. rewrite dynamic_startServer. apply setColliders_OK. }
  revert H0. generalize (startServer now rnd saved tiles raws) as s.
  induction es as [|e es IH]; intros s H0; simpl; [exact H0|].
  pose proof (step_tilesOK s e H0) as H1.
  destruct (step s e) as [s1 o1]. specialize (IH s1 H1).
  destruct (run s1 es). exact IH.
Qed.

(** X6.  In every reachable state the registered tiles are distinct tiles
    of the map, and no point whose tile lies outside the map grid is
    obstructed: the world border is not an obstacle of the oracle. *)
Theorem nothing_collides_outside_map :
  forall s px py,
    reachable s ->
    ~ tileInMap (fst (WorldMap.toTileCoords px py)) (snd (WorldMap.toTileCoords px py)) ->
    tilesOK (registry s) /\ WorldMap.isCollidable (registry s) px py = false.
Proof.
  intros s px py Hr Hout. pose proof (reachable_tilesOK s Hr) as HOK.
  split; [exact HOK|].
  unfold WorldMap.isCollidable, WorldMap.getTileAt.
  destruct (WorldMap.toTileCoords px py) as [col row] eqn:Et. cbn [fst snd] in Hout.
  destruct (WorldMap.hasColliderTile (registry s) col row) eqn:Eh.
  - apply hasColliderTile_In in Eh. destruct HOK as [_ Hall].
    rewrite Forall_forall in Hall. apply Hall in Eh. contradiction.
  - destruct ((row <? 0)%Z || (WorldMap.MAP_ROWS <=? row)%Z || (col <? 0)%Z
              || (WorldMap.MAP_COLS <=? col)%Z) eqn:E; [reflexivity|].
    exfalso. apply Hout. unfold tileInMap.
    rewrite !orb_false_iff, !Z.ltb_ge, !Z.leb_gt in E. tauto.
Qed.

Lemma setColliders_fold_id (acc : WorldMap.Registry) (l : list (Z * Z)) :
  NoDup (WorldMap.dynamicColliders acc ++ l) ->
  Forall (fun t => tileInMap (fst t) (snd t)) l ->
  WorldMap.dynamicColliders
    (fold_left
       (fun acc t =>
          let '(col, row) := t in
          if (0 <=? col)%Z && (col <? WorldMap.MAP_COLS)%Z && (0 <=? row)%Z
             && (row <? WorldMap.MAP_ROWS)%Z
          then WorldMap.mkRegistry
                 (if WorldMap.hasColliderTile acc col row then WorldMap.dynamicColliders acc
                  else WorldMap.dynamicColliders acc ++ [(col, row)])
                 (WorldMap.objectColliders acc)
          else acc)
       l acc)
  = WorldMap.dynamicColliders acc ++ l.
Proof.
  revert acc. induction l as [|[col row] l IH]; intros acc Hnd Hall; simpl.
  - rewrite app_nil_r. reflexivity.
  - inversion Hall as [|? ? [Hc Hr] Hall']; subst. cbn [fst snd] in *.
    assert (E : (0 <=? col)%Z && (col <? WorldMap.MAP_COLS)%Z && (0 <=? row)%Z
                && (row <? WorldMap.MAP_ROWS)%Z = true).
    { rewrite !andb_true_iff, !Z.leb_le, !Z.ltb_lt. tauto. }
    rewrite E.
    assert (Eh : WorldMap.hasColliderTile acc col row = false).
    { destruct (WorldMap.hasColliderTile acc col row) eqn:Eh; [|reflexivity].
      apply hasColliderTile_In in Eh. apply NoDup_remove_2 in Hnd.
      exfalso. apply Hnd. apply in_or_app. left. assumption. }
    rewrite Eh, IH; cbn [WorldMap.dynamicColliders].
    + rewrite <- app_assoc. reflexivity.
    + rewrite <- app_assoc. exact Hnd.
    + exact Hall'.
Qed.

(** X7.  The tile list of a reachable state survives a restart:
    [setColliders] applied to what [getColliders] returns registers the
    same tiles in the same order. *)
Theorem colliders_survive_restart :
  forall s r,
    reachable s ->
    WorldMap.getColliders (WorldMap.setColliders r (WorldMap.getColliders (registry s)))
    = WorldMap.getColliders (registry s).
Proof.
  intros s r Hr. destruct (reachable_tilesOK s Hr) as [Hnd Hall].
  unfold WorldMap.getColliders, WorldMap.setColliders.
  rewrite setColliders_fold_id; [reflexivity | exact Hnd | exact Hall].
Qed.

(** ** Display objects *)

Lemma objectsOverlap_self (a : DisplayObject) :
  Qltb 0 (o_width a) = true -> Qltb 0 (o_height a) = true -> objectsOverlap a a = true.
Proof.
  intros Hw Hh. apply Qltb_true_iff in Hw. apply Qltb_true_iff in Hh.
  unfold objectsOverlap, getObjectBounds. cbn [b_left b_right b_top b_bottom].
  assert (H1 : Qltb (o_x a - o_width a / 2) (o_x a + o_width a / 2) = true).
  { apply Qltb_true_iff.
    assert (E : o_width a / 2 == (1 # 2) * o_width a) by field. rewrite E. lra. }
  assert (H2 : Qltb (o_y a - o_height a) (o_y a) = true).
  { apply Qltb_true_iff. lra. }
  rewrite H1, H2. reflexivity.
Qed.

(** X8.  Overlap of display objects is symmetric: the order in which
    [handlePlaceObject] passes the existing and the new object to
    [objectsOverlap] does not matter. *)
Theorem objectsOverlap_symmetric :
  forall a b, objectsOverlap a b = objectsOverlap b a.
Proof.
  intros a b. unfold objectsOverlap. cbv zeta.
  destruct (Qltb (b_left (getObjectBounds a)) (b_right (getObjectBounds b)));
    destruct (Qltb (b_left (getObjectBounds b)) (b_right (getObjectBounds a)));
    destruct (Qltb (b_top (getObjectBounds a)) (b_bottom (getObjectBounds b)));
    destruct (Qltb (b_top (getObjectBounds b)) (b_bottom (getObjectBounds a)));
    reflexivity.
Qed.

Lemma objectsOverlap_sym (a b : DisplayObject) : objectsOverlap a b = objectsOverlap b a.
Proof.
  unfold objectsOverlap. cbv zeta.
  destruct (Qltb (b_left (getObjectBounds a)) (b_right (getObjectBounds b)));
    destruct (Qltb (b_left (getObjectBounds b)) (b_right (getObjectBounds a)));
    destruct (Qltb (b_top (getObjectBounds a)) (b_bottom (getObjectBounds b)));
    destruct (Qltb (b_top (getObjectBounds b)) (b_bottom (getObjectBounds a)));
    reflexivity.
Qed.

Lemma collider_set_map (o : DisplayObject) (l : list DisplayObject) :
  WorldMap.collider_set (colliderOf o) (map colliderOf l)
  = map colliderOf (object_set o l).
Proof.
  induction l as [|q l IH]; simpl; [reflexivity|].
  destruct (String.eqb (o_id q) (o_id o)); simpl; [reflexivity|].
  rewrite IH. reflexivity.
Qed.

Lemma collider_filter_map (i : string) (l : list DisplayObject) :
  filter (fun c => negb (String.eqb (WorldMap.c_id c) i)) (map colliderOf l)
  = map colliderOf (filter (fun o => negb (String.eqb (o_id o) i)) l).
Proof.
  induction l as [|q l IH]; simpl; [reflexivity|].
  destruct (String.eqb (o_id q) i); simpl; rewrite IH; reflexivity.
Qed.

Lemma addObjectColliderOf_sync (o : DisplayObject) (r : WorldMap.Registry)
  (l : list DisplayObject) :
  truthy (o_id o) = true ->
  WorldMap.objectColliders r = map colliderOf l ->
  WorldMap.objectColliders (addObjectColliderOf o r) = map colliderOf (object_set o l).
Proof.
  intros Ht Hs. unfold addObjectColliderOf, WorldMap.addObjectCollider.
  rewrite Ht. cbn [negb WorldMap.objectColliders]. rewrite Hs.
  apply (collider_set_map o l).
Qed.

Lemma truthy_fresh_object_id (now : Z) (rnd : string) :
  truthy (fresh_object_id now rnd) = true.
Proof. reflexivity. Qed.

Lemma normalize_id (now : Z) (rnd : string) (raw : RawObject) (o : DisplayObject) :
  normalizeObjectData now rnd raw = Some o ->
  o_id o = match r_id raw with Some i => i | None => fresh_object_id now rnd end.
Proof.
  unfold normalizeObjectData.
  destruct (match r_x raw, r_y raw with
            | Some px, Some py => Some (px, py)
            | _, _ => match r_col raw, r_row raw with
                      | Some col, Some row => _
                      | _, _ => None
                      end
            end) as [[px py]|]; [|discriminate].
  intro H. injection H as <-. reflexivity.
Qed.

Lemma step_objectsSynced (s : GameState) (e : Event) :
  objectsSynced s -> objectsSynced (fst (step s e)).
Proof.
  intro H. unfold objectsSynced in *. destruct (touchesObjects e) eqn:Et.
  - destruct e as [| c now rnd [] | |]; try discriminate; cbn [step];
      destruct (is_open c s); try exact H; cbn [handleMessage].
    + unfold handlePlaceObject.
      destruct (negb (truthy_opt (client_playerId c s))); [exact H|].
      destruct (normalizeObjectData now rnd (placeRaw raw)) as [o|] eqn:En; [|exact H].
      destruct (outOfWorld o); [exact H|].
      destruct (existsb _ (objects s)); [exact H|].
      cbn [fst registry set_registry objects set_objects].
      apply addObjectColliderOf_sync; [|exact H].
      cbn [o_id]. rewrite (normalize_id _ _ _ _ En). reflexivity.
    + unfold handleRemoveObject.
      destruct (negb (truthy_opt (client_playerId c s))); [exact H|].
      match goal with |- context [match ?o with Some _ => _ | None => (s, []) end] =>
        destruct o as [object|] end; [|exact H].
      cbn [fst registry set_registry objects set_objects].
      unfold WorldMap.removeObjectCollider. cbn [WorldMap.objectColliders].
      rewrite H. apply collider_filter_map.
  - destruct (step_objects_frame s e Et) as [-> ->]. exact H.
Qed.

Lemma initializeObjects_synced (now : Z) (rnd : string) (raws : list RawObject)
  (s : GameState) :
  Forall (fun raw => r_id raw <> Some "") raws ->
  objectsSynced (initializeObjects now rnd raws s).
Proof.
  intro Hraws. unfold initializeObjects.
  set (s0 := set_registry (set_objects s []) _).
  assert (H0 : objectsSynced s0) by reflexivity.
  clearbody s0. revert s0 H0.
  induction Hraws as [|raw raws Hraw _ IH]; intros s0 H0; simpl; [exact H0|].
  apply IH.
  destruct (normalizeObjectData now rnd raw) as [o|] eqn:En; [|exact H0].
  destruct (get_object (o_id o) (objects s0)); [exact H0|].
  unfold objectsSynced. cbn [registry set_registry objects set_objects].
  apply addObjectColliderOf_sync; [|exact H0].
  rewrite (normalize_id _ _ _ _ En).
  destruct (r_id raw) as [i|]; [|reflexivity].
  unfold truthy. apply negb_true_iff, String.eqb_neq. congruence.
Qed.

(** X9.  The object-derived obstacle set is, in every state of a run, the
    list of rectangles derived from the registered display objects, in the
    same order: placing an object adds its rectangle and removing it
    removes the rectangle in the same step.  (Persisted objects are taken
    to carry a non-empty id or none.) *)
Theorem object_colliders_follow_objects :
  forall now rnd saved tiles raws es,
    Forall (fun raw => r_id raw <> Some "") raws ->
    let s := fst (run (startServer now rnd saved tiles raws) es) in
    WorldMap.objectColliders (registry s) = map colliderOf (objects s).
Proof.
  intros now rnd saved tiles raws es Hraws.
  assert (H0 : objectsSynced (startServer now rnd saved tiles raws)).
  { unfold startServer, objectsSynced.
    rewrite registry_assignFollowers, objects_assignFollowers.
    unfold initializeFollowers. cbn [registry objects set_followers].
    apply initializeObjects_synced. exact Hraws. }
  revert H0. generalize (startServer now rnd saved tiles raws) as s0.
  induction es as [|e es IH]; intros s0 H0; simpl; [exact H0|].
  pose proof (step_objectsSynced s0 e H0) as H1.
  destruct (step s0 e) as [s1 o1]. specialize (IH s1 H1).
  destruct (run s1 es). exact IH.
Qed.

Lemma Forall_object_set (P : DisplayObject -> Prop) (o : DisplayObject)
  (l : list DisplayObject) :
  P o -> Forall P l -> Forall P (object_set o l).
Proof.
  intros Ho. induction l as [|q l IH]; simpl; intro H.
  - constructor; [assumption | constructor].
  - inversion H; subst. destruct (String.eqb (o_id q) (o_id o)); constructor; auto.
Qed.

Lemma pairwiseDisjoint_object_set (o : DisplayObject) (l : list DisplayObject) :
  pairwiseDisjoint l ->
  (forall e, In e l -> objectsOverlap e o = false) ->
  pairwiseDisjoint (object_set o l).
Proof.
  unfold pairwiseDisjoint. induction l as [|q l IH]; simpl; intros Hp Ho.
  - constructor; constructor.
  - inversion Hp as [|? ? Hq Hrest]; subst.
    destruct (String.eqb (o_id q) (o_id o)).
    + constructor; [|assumption].
      apply Forall_forall. intros e He. rewrite objectsOverlap_sym. apply Ho. right. assumption.
    + constructor.
      * apply Forall_object_set; [apply Ho; left; reflexivity | assumption].
      * apply IH; [assumption|]. intros e He. apply Ho. right. assumption.
Qed.

Lemma pairwiseDisjoint_filter (f : DisplayObject -> bool) (l : list DisplayObject) :
  pairwiseDisjoint l -> pairwiseDisjoint (filter f l).
Proof.
  unfold pairwiseDisjoint. induction 1 as [|q l Hq _ IH]; simpl; [constructor|].
  destruct (f q); [|assumption].
  constructor; [|assumption].
  apply Forall_forall. intros e He. apply filter_In in He.
  rewrite Forall_forall in Hq. apply Hq. tauto.
Qed.

Lemma overlap_ignores_stamps (e o : DisplayObject) (t1 t2 : Z) :
  objectsOverlap e
    (mkObject (o_id o) (o_x o) (o_y o) (o_width o) (o_height o)
       (o_imageSrc o) (o_text o) t1 t2)
  = objectsOverlap e o.
Proof. reflexivity. Qed.

Lemma step_pairwiseDisjoint (s : GameState) (e : Event) :
  pairwiseDisjoint (objects s) -> pairwiseDisjoint (objects (fst (step s e))).
Proof.
  intro H. destruct (touchesObjects e) eqn:Et.
  - destruct e as [| c now rnd [] | |]; try discriminate; cbn [step];
      destruct (is_open c s); try exact H; cbn [handleMessage].
    + unfold handlePlaceObject.
      destruct (negb (truthy_opt (client_playerId c s))); [exact H|].
      destruct (normalizeObjectData now rnd (placeRaw raw)) as [o|] eqn:En; [|exact H].
      destruct (outOfWorld o); [exact H|].
      destruct (existsb _ (objects s)) eqn:Hov; [exact H|].
      cbn [fst registry set_registry objects set_objects].
      apply pairwiseDisjoint_object_set; [exact H|].
      intros x Hx. rewrite overlap_ignores_stamps.
      apply (existsb_false_forall _ _ Hov x Hx).
    + unfold handleRemoveObject.
      destruct (negb (truthy_opt (client_playerId c s))); [exact H|].
      match goal with |- context [match ?o with Some _ => _ | None => (s, []) end] =>
        destruct o as [object|] end; [|exact H].
      cbn [fst registry set_registry objects set_objects].
      apply pairwiseDisjoint_filter. exact H.
  - destruct (step_objects_frame s e Et) as [-> _]. exact H.
Qed.

(** X10.  No event makes two registered display objects overlap: if no two
    objects of the registry overlap, the same holds after any sequence of
    events. *)
Theorem objects_stay_disjoint :
  forall s es,
    pairwiseDisjoint (objects s) -> pairwiseDisjoint (objects (fst (run s es))).
Proof.
  intros s es. revert s. induction es as [|e es IH]; intros s H0; simpl; [exact H0|].
  pose proof (step_pairwiseDisjoint s e H0) as H1.
  destruct (step s e) as [s1 o1]. specialize (IH s1 H1).
  destruct (run s1 es). exact IH.
Qed.

(** X11.  Placement is not repeatable: once a display object of positive
    width and height has been placed, the same [place_object] message sent
    again (at any later time) changes nothing and emits nothing. *)
Theorem place_object_twice_is_noop :
  forall c now rnd now2 rnd2 raw s s' o out,
    handlePlaceObject c now rnd raw s = (s', out) ->
    In (Broadcast (ObjectPlaced o)) out ->
    Qltb 0 (o_width o) = true -> Qltb 0 (o_height o) = true ->
    handlePlaceObject c now2 rnd2 raw s' = (s', []).
Proof.
  intros c now rnd now2 rnd2 raw s s' o out Heq Hplaced Hw Hh.
  revert Heq Hplaced. unfold handlePlaceObject at 1.
  destruct (negb (truthy_opt (client_playerId c s))) eqn:Hauth;
    [intros Heq; injection Heq as <- <-; intros [H | []]; discriminate|].
  destruct (normalizeObjectData now rnd (placeRaw raw)) as [od|] eqn:En;
    [|intros Heq; injection Heq as <- <-; intros [H | []]; discriminate].
  destruct (outOfWorld od) eqn:Hout;
    [intros Heq; injection Heq as <- <-; intros [H | []]; discriminate|].
  destruct (existsb _ (objects s)) eqn:Hov;
    [intros Heq; injection Heq as <- <-; intros []|].
  intros Heq. injection Heq as <- <-. intros [H | [H | []]]; [|discriminate].
  injection H as <-. cbn [o_width o_height] in Hw, Hh.
  set (placed := mkObject (o_id od) (o_x od) (o_y od) (o_width od) (o_height od)
                   (o_imageSrc od) (o_text od) now now) in *.
  set (s2 := set_registry _ _).
  unfold handlePlaceObject.
  replace (client_playerId c s2) with (client_playerId c s) by reflexivity.
  rewrite Hauth.
  (* the second normalisation differs from the first in id and stamps only *)
  unfold normalizeObjectData in En |- *. cbn [placeRaw r_id r_x r_y r_col r_row
    r_width r_height r_imageSrc r_text r_createdAt r_updatedAt] in En |- *.
  destruct (match r_x raw, r_y raw with
            | Some px, Some py => Some (px, py)
            | _, _ => match r_col raw, r_row raw with
                      | Some col, Some row => _
                      | _, _ => None
                      end
            end) as [[px py]|]; [|discriminate].
  injection En as <-. cbn [o_x o_y o_width o_height o_id o_imageSrc o_text] in *.
  unfold outOfWorld in Hout |- *. cbn [o_x o_y] in Hout |- *. rewrite Hout.
  assert (Hself : existsb
            (fun existing =>
               objectsOverlap existing
                 (mkObject (fresh_object_id now2 rnd2) px py
                    (match r_width raw with Some w => w | None => OBJECT_WIDTH end)
                    (match r_height raw with Some h => h | None => OBJECT_HEIGHT end)
                    (match r_imageSrc raw with Some i => i | None => "" end)
                    (match r_text raw with Some t => t | None => "" end)
                    (stamp_or None now2) (stamp_or None now2)))
            (objects s2) = true).
  { apply existsb_exists. exists placed. split.
    - unfold s2. cbn [objects set_registry set_objects]. apply In_object_set.
    - change (objectsOverlap placed placed = true).
      apply objectsOverlap_self; assumption. }
  rewrite Hself. reflexivity.
Qed.

Lemma get_object_id (i : string) (l : list DisplayObject) (o : DisplayObject) :
  get_object i l = Some o -> o_id o = i.
Proof.
  unfold get_object. intro H. apply find_some in H. destruct H as [_ H].
  apply String.eqb_eq in H. assumption.
Qed.

Lemma get_object_filter (i j : string) (l : list DisplayObject) :
  get_object j (filter (fun o => negb (String.eqb (o_id o) i)) l)
  = if String.eqb j i then None else get_object j l.
Proof.
  induction l as [|q l IH]; simpl.
  - destruct (String.eqb j i); reflexivity.
  - destruct (String.eqb (o_id q) i) eqn:E1; simpl.
    + rewrite IH. destruct (String.eqb j i) eqn:E2; [reflexivity|].
      apply String.eqb_eq in E1. apply String.eqb_neq in E2.
      assert (E3 : String.eqb (o_id q) j = false) by (apply String.eqb_neq; congruence).
      rewrite E3. reflexivity.
    + destruct (String.eqb (o_id q) j) eqn:E3.
      * apply String.eqb_eq in E3. apply String.eqb_neq in E1.
        assert (E2 : String.eqb j i = false) by (apply String.eqb_neq; congruence).
        rewrite E2. reflexivity.
      * exact IH.
Qed.

(** X12.  A [remove_object] naming a registered object by its id, from a
    joined connection, removes that object whatever coordinates the
    message also carries: the object and its derived rectangle are gone,
    [object_removed] is broadcast and the object list persisted; every
    other object, the occupants and the tiles are untouched. *)
Theorem remove_object_by_id :
  forall c i rx ry rcol rrow s o,
    truthy_opt (client_playerId c s) = true -> truthy i = true ->
    get_object i (objects s) = Some o ->
    let s' := fst (handleRemoveObject c (Some i) rx ry rcol rrow s) in
    snd (handleRemoveObject c (Some i) rx ry rcol rrow s)
    = [ Broadcast (ObjectRemoved i); SaveObjects (objects s') ]
    /\ get_object i (objects s') = None
    /\ (forall j, j <> i -> get_object j (objects s') = get_object j (objects s))
    /\ existsb (fun k => String.eqb (WorldMap.c_id k) i)
               (WorldMap.objectColliders (registry s')) = false
    /\ players s' = players s
    /\ WorldMap.dynamicColliders (registry s') = WorldMap.dynamicColliders (registry s).
Proof.
  intros c i rx ry rcol rrow s o Hauth Hi Hget s'. unfold s'.
  unfold handleRemoveObject. rewrite Hauth, Hi, Hget. cbn [negb].
  rewrite (get_object_id _ _ _ Hget).
  cbn [fst snd objects players registry set_registry set_objects].
  split; [reflexivity|]. split; [|split; [|split; [|split; reflexivity]]].
  - rewrite get_object_filter, String.eqb_refl. reflexivity.
  - intros j Hj. rewrite get_object_filter.
    assert (E : String.eqb j i = false) by (apply String.eqb_neq; assumption).
    rewrite E. reflexivity.
  - unfold WorldMap.removeObjectCollider. cbn [WorldMap.objectColliders].
    induction (WorldMap.objectColliders (registry s)) as [|k ks IH]; simpl; [reflexivity|].
    destruct (String.eqb (WorldMap.c_id k) i) eqn:E; simpl; [exact IH|].
    rewrite E. exact IH.
Qed.

Lemma normalize_rawOf (now : Z) (rnd : string) (o : DisplayObject) :
  o_createdAt o <> 0%Z -> o_updatedAt o <> 0%Z ->
  normalizeObjectData now rnd (rawOf o) = Some o.
Proof.
  intros Hc Hu. unfold normalizeObjectData, rawOf, stamp_or. simpl.
  apply Z.eqb_neq in Hc. apply Z.eqb_neq in Hu. rewrite Hc, Hu.
  destruct o. reflexivity.
Qed.

Lemma object_set_absent (o : DisplayObject) (l : list DisplayObject) :
  get_object (o_id o) l = None -> object_set o l = l ++ [o].
Proof.
  induction l as [|q l IH]; simpl; intro H; [reflexivity|].
  destruct (String.eqb (o_id q) (o_id o)); [discriminate|].
  rewrite IH by assumption. reflexivity.
Qed.

Lemma get_object_None (i : string) (l : list DisplayObject) :
  ~ In i (map o_id l) -> get_object i l = None.
Proof.
  induction l as [|q l IH]; simpl; intro H; [reflexivity|].
  assert (E : String.eqb (o_id q) i = false) by (apply String.eqb_neq; tauto).
  rewrite E. apply IH. tauto.
Qed.

Lemma initializeObjects_fold (now : Z) (rnd : string) (l : list DisplayObject)
  (acc : GameState) :
  NoDup (map o_id (objects acc ++ l)) ->
  Forall (fun o => o_createdAt o <> 0%Z /\ o_updatedAt o <> 0%Z) l ->
  objects
    (fold_left
       (fun acc raw =>
          match normalizeObjectData now rnd raw with
          | None => acc
          | Some normalized =>
              match get_object (o_id normalized) (objects acc) with
              | Some _ => acc
              | None =>
                  set_registry
                    (set_objects acc (object_set normalized (objects acc)))
                    (addObjectColliderOf normalized (registry acc))
              end
          end)
       (map rawOf l) acc)
  = objects acc ++ l.
Proof.
  revert acc. induction l as [|o l IH]; intros acc Hnd Hall; cbn [map fold_left].
  - rewrite app_nil_r. reflexivity.
  - inversion Hall as [|? ? [Hc Hu] Hall']; subst.
    rewrite (normalize_rawOf now rnd o Hc Hu).
    assert (Habs : get_object (o_id o) (objects acc) = None).
    { apply get_object_None. rewrite map_app in Hnd. simpl in Hnd.
      apply NoDup_remove_2 in Hnd. intro Hin. apply Hnd.
      apply in_or_app. left. assumption. }
    rewrite Habs, IH; cbn [objects set_registry set_objects];
      rewrite ?(object_set_absent o _ Habs), <- ?app_assoc; [reflexivity | exact Hnd | exact Hall'].
Qed.

(** X13.  Display objects survive a restart: [initializeObjects] applied
    to the entries [saveObjects] wrote for a list of objects with distinct
    non-empty ids (and non-zero timestamps) registers exactly that list,
    in order, together with the rectangles derived from it. *)
Theorem objects_survive_restart :
  forall now rnd l s0,
    NoDup (map o_id l) ->
    Forall (fun o => truthy (o_id o) = true) l ->
    Forall (fun o => o_createdAt o <> 0%Z /\ o_updatedAt o <> 0%Z) l ->
    let s := initializeObjects now rnd (map rawOf l) s0 in
    objects s = l
    /\ WorldMap.objectColliders (registry s) = map colliderOf l.
Proof.
  intros now rnd l s0 Hnd Hids Hstamps s.
  assert (Hobj : objects s = l).
  { unfold s, initializeObjects. rewrite initializeObjects_fold; [reflexivity | exact Hnd | exact Hstamps]. }
  split; [exact Hobj|]. rewrite <- Hobj.
  apply initializeObjects_synced.
  apply Forall_forall. intros raw Hraw. apply in_map_iff in Hraw.
  destruct Hraw as (o & <- & Ho). rewrite Forall_forall in Hids.
  specialize (Hids o Ho). cbn [rawOf r_id]. intro H. injection H as H.
  rewrite H in Hids. discriminate.
Qed.

(** ** Joining, leaving and acting before a join *)

(** X14.  Every request other than a join, arriving on a connection that
    has not joined, leaves the whole state unchanged and is answered by
    exactly one error, "Not authenticated". *)
Theorem requests_before_join_are_refused :
  forall c now rnd m s,
    needsJoin m = true -> truthy_opt (client_playerId c s) = false ->
    handleMessage c now rnd m s = (s, [Send c (Error "Not authenticated")]).
Proof.
  intros c now rnd m s Hm Hauth.
  destruct m; try discriminate; cbn [handleMessage];
    unfold handleInput, handleResetPosition, handlePlaceCollider, handleRemoveCollider,
      handlePlaceObject, handleRemoveObject, handleHug, handleBenchSit, handleBenchStand;
    try (rewrite Hauth; reflexivity).
  destruct (client_playerId c s) as [pid|]; [|reflexivity].
  cbn [truthy_opt] in Hauth. rewrite Hauth. reflexivity.
Qed.

Lemma player_set_ids_list (p : Player) (l : list Player) :
  map id (player_set p l)
  = if has_player (id p) l then map id l else map id l ++ [id p].
Proof.
  unfold has_player. induction l as [|q l IH]; simpl; [reflexivity|].
  destruct (String.eqb (id q) (id p)) eqn:E; simpl.
  - apply String.eqb_eq in E. rewrite E. reflexivity.
  - rewrite IH. destruct (get_player (id p) l); reflexivity.
Qed.

Lemma player_set_absent' (p : Player) (l : list Player) :
  get_player (id p) l = None -> player_set p l = l ++ [p].
Proof.
  induction l as [|r l IH]; simpl; intro Hget; [reflexivity|].
  destruct (String.eqb (id r) (id p)) eqn:E; [discriminate|].
  rewrite IH by assumption. reflexivity.
Qed.

(** X15.  Reconnection.  A join that names a registered identifier, while
    fewer than two occupants are connected, resurrects that occupant: the
    registry holds the same identifiers in the same order (no duplicate
    record), the occupant is connected and has kept its position, velocity,
    interaction flags and buffered input, every other occupant is
    untouched, and the connection is attached to the identifier. *)
Theorem rejoin_restores_occupant :
  forall c now rnd n ch pid s q,
    (connectedCount s < 2)%nat -> truthy pid = true ->
    get_player pid (players s) = Some q ->
    let s' := fst (handleJoin c now rnd n ch (Some pid) s) in
    map id (players s') = map id (players s)
    /\ (exists p,
           get_player pid (players s') = Some p
           /\ connected p = true
           /\ (x p = x q /\ y p = y q /\ vx p = vx q /\ vy p = vy q)
           /\ (hugging p = hugging q /\ hugEndTime p = hugEndTime q /\ sitting p = sitting q)
           /\ (lastInput p = lastInput q /\ lastInputSeq p = lastInputSeq q))
    /\ (forall j, j <> pid -> get_player j (players s') = get_player j (players s))
    /\ (is_open c s = true -> client_playerId c s' = Some pid).
Proof.
  intros c now rnd n ch pid s q Hlt Ht Hg s'.
  assert (Hhas : has_player pid (players s) = true) by (unfold has_player; rewrite Hg; reflexivity).
  pose proof (get_player_id _ _ _ Hg) as Hid.
  set (p := p_set_identity
              (match n with Some n0 => if truthy n0 then n0 else name q | None => name q end)
              (if String.eqb ch "1" || String.eqb ch "2" then ch else "1")
              (p_set_connected true q)).
  assert (Hs' : players s' = player_set p (players s)
                /\ (is_open c s = true -> client_playerId c s' = Some pid)).
  { unfold s', handleJoin. fold (connectedCount s).
    assert (E : (MAX_PLAYERS <=? connectedCount s)%nat = false) by (apply Nat.leb_gt; exact Hlt).
    rewrite E, Ht, Hhas. cbn [negb orb]. rewrite Hg. cbn [fst].
    split.
    - rewrite players_assignFollowers. reflexivity.
    - intro Hopen. unfold client_playerId, find_client. rewrite clients_assignFollowers.
      apply (client_playerId_set c pid (set_players s (player_set p (players s)))). exact Hopen. }
  destruct Hs' as [Hps Hcl]. rewrite Hps.
  assert (Hidp : id p = pid) by exact Hid.
  split; [|split; [|split; [|exact Hcl]]].
  - rewrite player_set_ids_list, Hidp, Hhas. reflexivity.
  - exists p. split; [rewrite <- Hidp at 1; apply get_player_set|].
    repeat split.
  - intros j Hj. apply get_player_set_other. congruence.
Qed.

(** X16.  A first join.  A join without identifier, accepted while the
    generated identifier is not registered, appends one new occupant to the
    registry: connected, at rest, neither embracing nor seated, placed on
    the spawn point chosen by the number of connected occupants,
    (328, 176) when nobody is connected and (344, 176) otherwise, and named
    "Player" when the message carries no name. *)
Theorem first_join_spawns_occupant :
  forall c now rnd ch s,
    (connectedCount s < 2)%nat ->
    has_player (fresh_player_id now rnd) (players s) = false ->
    let s' := fst (handleJoin c now rnd None ch None s) in
    exists p,
      players s' = players s ++ [p]
      /\ id p = fresh_player_id now rnd /\ name p = "Player"
      /\ connected p = true /\ hugging p = false /\ sitting p = false
      /\ (vx p = 0 /\ vy p = 0 /\ lastInput p = None)
      /\ y p == 176
      /\ x p == (if Nat.eqb (connectedCount s) 0 then 328 else 344).
Proof.
  intros c now rnd ch s Hlt Hfresh s'.
  assert (Hg : get_player (fresh_player_id now rnd) (players s) = None).
  { unfold has_player in Hfresh.
    destruct (get_player (fresh_player_id now rnd) (players s)); [discriminate | reflexivity]. }
  unfold s', handleJoin. fold (connectedCount s).
  assert (E : (MAX_PLAYERS <=? connectedCount s)%nat = false) by (apply Nat.leb_gt; exact Hlt).
  rewrite E, Hg.
  destruct (spawnPosition (connectedCount s)) as [sx sy] eqn:Hsp.
  eexists. cbn [fst]. rewrite players_assignFollowers. cbn [players set_client_playerId set_clients set_players].
  split; [apply player_set_absent'|].
  - cbn [id p_set_pos createPlayerState]. exact Hg.
  - cbn. repeat split.
    + assert (sy = snd (spawnPosition (connectedCount s))) by (rewrite Hsp; reflexivity).
      subst sy. unfold spawnPosition.
      destruct (connectedCount s) as [|[|k]]; reflexivity.
    + assert (sx = fst (spawnPosition (connectedCount s))) by (rewrite Hsp; reflexivity).
      subst sx. unfold spawnPosition.
      destruct (connectedCount s) as [|[|k]]; reflexivity.
Qed.

(** ** The occupant registry over a run *)

Lemma step_ids_grow (s : GameState) (e : Event) :
  uniqueIds s ->
  exists extra, map id (players (fst (step s e))) = map id (players s) ++ extra.
Proof.
  intro Hnd. destruct (isJoin e) eqn:Ej.
  - destruct e as [| c now rnd [jn jc jp| | | | | | | | | | |] | |]; try discriminate.
    cbn [step]. destruct (is_open c s); [|exists []; rewrite app_nil_r; reflexivity].
    cbn [handleMessage].
    destruct (handleJoin_players c now rnd jn jc jp s) as [-> | (_ & p & -> & _)].
    + exists []. rewrite app_nil_r. reflexivity.
    + rewrite player_set_ids_list. destruct (has_player (id p) (players s)).
      * exists []. rewrite app_nil_r. reflexivity.
      * exists [id p]. reflexivity.
  - exists []. rewrite app_nil_r. apply (Forall2_ids _ _ _ (step_mutation s e Hnd Ej)).
Qed.

(** X17.  Occupants are never removed and never reordered: after any
    sequence of events the list of registered identifiers is the former
    list followed by the identifiers that were added. *)
Theorem registry_only_grows :
  forall s es,
    uniqueIds s ->
    exists extra, map id (players (fst (run s es))) = map id (players s) ++ extra.
Proof.
  intros s es. revert s. induction es as [|e es IH]; intros s Hnd.
  - exists []. simpl. rewrite app_nil_r. reflexivity.
  - simpl. pose proof (step_uniqueIds s e Hnd) as Hnd1.
    destruct (step_ids_grow s e Hnd) as [x1 H1].
    destruct (step s e) as [s1 o1]. cbn [fst] in *.
    destruct (IH s1 Hnd1) as [x2 H2].
    destruct (run s1 es) as [s2 o2]. cbn [fst] in *.
    exists (x1 ++ x2). rewrite H2, H1, app_assoc. reflexivity.
Qed.


(** ** Closing a connection *)

Lemma find_client_closed (c : nat) (l : list Client) :
  find (fun k => Nat.eqb (cl_conn k) c)
       (filter (fun k => negb (Nat.eqb (cl_conn k) c)) l) = None.
Proof.
  induction l as [|k l IH]; simpl; [reflexivity|].
  destruct (Nat.eqb (cl_conn k) c) eqn:E; simpl; [exact IH|].
  rewrite E. exact IH.
Qed.

(** X19.  Closing the connection of a joined occupant keeps its record,
    marked disconnected and otherwise unchanged, leaves every other
    occupant untouched, forgets the connection, announces the departure to
    the other connections and persists the registry. *)
Theorem close_keeps_record :
  forall c s pid p,
    is_open c s = true -> client_playerId c s = Some pid -> truthy pid = true ->
    get_player pid (players s) = Some p ->
    let s' := fst (step s (Close c)) in
    is_open c s' = false
    /\ get_player pid (players s') = Some (p_set_connected false p)
    /\ (forall j, j <> pid -> get_player j (players s') = get_player j (players s))
    /\ snd (step s (Close c))
       = [BroadcastToOthers c (PlayerLeft pid); SaveState (map savedPlayer (players s'))].
Proof.
  intros c s pid p Hopen Hcl Ht Hg s'.
  unfold s'. cbn [step]. rewrite Hopen. unfold handleDisconnect.
  rewrite Hcl, Ht, Hg. cbn [negb fst snd].
  rewrite players_assignFollowers. cbn [players set_players set_clients].
  split; [|split; [|split]].
  - unfold is_open, find_client. rewrite clients_assignFollowers.
    cbn [clients set_players set_clients]. rewrite find_client_closed. reflexivity.
  - rewrite get_update_same, Hg by reflexivity. reflexivity.
  - intros j Hj. apply get_update_other; [reflexivity | exact Hj].
  - unfold saveState. rewrite players_assignFollowers. reflexivity.
Qed.

(** ** The bench, the reset and the embrace *)

Lemma client_playerId_set_players (c : nat) (s : GameState) (ps : list Player) :
  client_playerId c (set_players s ps) = client_playerId c s.
Proof. reflexivity. Qed.

(** X20.  Sitting down and standing up again.  An occupant within reach
    of a bench with a free seat, who sits down and then stands up, ends
    50 units beside the bench on the side of the seat it took, at the
    height of the bench, at rest and no longer seated: at (2810, 1511)
    after the first seat and at (2710, 1511) after the second. *)
Theorem sit_then_stand :
  forall c now now2 s pid p,
    client_playerId c s = Some pid -> truthy pid = true ->
    get_player pid (players s) = Some p ->
    connected p = true -> sitting p = false ->
    (x p - 2760) * (x p - 2760) + (y p - 1511) * (y p - 1511) <= 100 * 100 ->
    (sittingCount (players s) < 2)%nat ->
    let s' := fst (handleBenchStand c now2 (fst (handleBenchSit c now s))) in
    exists p',
      get_player pid (players s') = Some p'
      /\ sitting p' = false /\ vx p' = 0 /\ vy p' = 0
      /\ y p' == 1511
      /\ x p' == (if Nat.eqb (sittingCount (players s)) 0 then 2810 else 2710).
Proof.
  intros c now now2 s pid p Hcl Ht Hg Hc Hs Hd Hn s'.
  assert (Hauth : truthy_opt (client_playerId c s) = true) by (rewrite Hcl; exact Ht).
  set (off := if Nat.eqb (sittingCount (players s)) 0
              then BENCH_SEAT_OFFSET else - BENCH_SEAT_OFFSET).
  assert (Hsit : fst (handleBenchSit c now s)
                 = set_players s (update_player pid (sitDown off now) (players s))).
  { unfold handleBenchSit. rewrite Hauth, Hcl, Hg, Hc, Hs. cbn [negb].
    assert (E : Qltb 100 (Math_sqrt ((x p - BENCH_X) * (x p - BENCH_X)
                                     + (y p - BENCH_Y) * (y p - BENCH_Y))) = false).
    { apply Qltb_false_iff. apply (Math_sqrt_le_iff _ 100); [lia | exact Hd]. }
    rewrite E.
    assert (E2 : (2 <=? sittingCount (players s))%nat = false) by (apply Nat.leb_gt; exact Hn).
    rewrite E2. reflexivity. }
  unfold s'. rewrite Hsit. unfold handleBenchStand.
  rewrite client_playerId_set_players, Hauth, Hcl. cbn [negb players set_players].
  rewrite get_update_same, Hg by reflexivity. cbn [option_map].
  assert (Hc1 : connected (sitDown off now p) = true) by exact Hc.
  assert (Hs1 : sitting (sitDown off now p) = true) by reflexivity.
  rewrite Hc1, Hs1. cbn [negb fst players set_players].
  rewrite get_update_same by reflexivity.
  rewrite get_update_same, Hg by reflexivity. cbn [option_map].
  eexists. split; [reflexivity|].
  split; [reflexivity|]. split; [reflexivity|]. split; [reflexivity|].
  split; [reflexivity|].
  unfold off. destruct (Nat.eqb (sittingCount (players s)) 0); reflexivity.
Qed.

(** X21.  A reset moves a connected occupant to (1604.97, 802.74), inside
    the world and at rest, and changes nothing else about it: an occupant
    who was seated or embracing still is; every other occupant is
    untouched and the new state is broadcast. *)
Theorem reset_keeps_interaction :
  forall c now s pid p,
    client_playerId c s = Some pid -> truthy pid = true ->
    get_player pid (players s) = Some p -> connected p = true ->
    let s' := fst (handleResetPosition c now s) in
    (exists p',
        get_player pid (players s') = Some p'
        /\ x p' == 160497 / 100 /\ y p' == 80274 / 100 /\ inWorld p'
        /\ vx p' = 0 /\ vy p' = 0
        /\ sitting p' = sitting p /\ hugging p' = hugging p
        /\ hugEndTime p' = hugEndTime p /\ lastInput p' = lastInput p)
    /\ (forall j, j <> pid -> get_player j (players s') = get_player j (players s))
    /\ snd (handleResetPosition c now s) = broadcastState now s'.
Proof.
  intros c now s pid p Hcl Ht Hg Hc s'.
  assert (Hauth : truthy_opt (client_playerId c s) = true) by (rewrite Hcl; exact Ht).
  unfold s', handleResetPosition. rewrite Hauth, Hcl, Hg, Hc. cbn [negb fst snd players set_players].
  split; [|split; [|reflexivity]].
  - rewrite get_update_same, Hg by reflexivity. cbn [option_map].
    eexists. split; [reflexivity|].
    split; [reflexivity|]. split; [reflexivity|].
    split; [unfold inWorld; cbn; split; split; discriminate|].
    repeat split.
  - intros j Hj. apply get_update_other; [reflexivity | exact Hj].
Qed.

Lemma no_other_connected (l : list Player) (a : string) :
  (forall q, In q l -> connected q = true -> id q = a) ->
  filter (fun q => connected q && negb (String.eqb (id q) a)) l = [].
Proof.
  intro H. induction l as [|q l IH]; simpl; [reflexivity|].
  rewrite IH by (intros; apply H; [right|]; assumption).
  destruct (connected q) eqn:Ec; [|reflexivity].
  rewrite (H q (or_introl eq_refl) Ec), String.eqb_refl. reflexivity.
Qed.

(** X22.  The embrace is refused, silently and without any change, when
    the requester is already embracing, when no other occupant is
    connected, and when the other connected occupant is already embracing
    or farther away than 60 units. *)
Theorem hug_refused :
  forall c now s a A,
    (connectedCount s <= 2)%nat ->
    client_playerId c s = Some a -> truthy a = true ->
    get_player a (players s) = Some A -> connected A = true ->
    hugging A = true
    \/ (forall q, In q (players s) -> connected q = true -> id q = a)
    \/ (exists B, In B (players s) /\ connected B = true /\ id B <> a
                  /\ (hugging B = true
                      \/ 60 * 60 < (x A - x B) * (x A - x B) + (y A - y B) * (y A - y B))) ->
    handleHug c now s = (s, []).
Proof.
  intros c now s a A Hcnt Hcl Ht Hg Hc Hcase.
  assert (Hauth : truthy_opt (client_playerId c s) = true) by (rewrite Hcl; exact Ht).
  pose proof (get_player_id _ _ _ Hg) as Hid.
  unfold handleHug. rewrite Hauth, Hcl, Hg, Hc. cbn [negb].
  destruct (hugging A) eqn:Eh; [reflexivity|].
  destruct Hcase as [Hh | [Hnone | (B & HB & HcB & Hne & Hwhy)]]; [discriminate | |].
  - rewrite Hid, (no_other_connected _ _ Hnone). reflexivity.
  - rewrite (other_connected_player (players s) A B Hcnt
               (get_player_In _ _ _ Hg) HB (fun E => Hne (eq_trans (eq_sym E) Hid)) Hc HcB).
    destruct Hwhy as [HhB | Hfar].
    + rewrite HhB. destruct (Qltb _ _); reflexivity.
    + assert (E : Qltb HUG_PROXIMITY_THRESHOLD
                    (Math_sqrt ((x A - x B) * (x A - x B) + (y A - y B) * (y A - y B))) = true).
      { apply Qltb_true_iff. apply (Math_sqrt_gt_iff _ 60); [lia | exact Hfar]. }
      rewrite E. reflexivity.
Qed.

(** ** Movement on a tick *)

(** X23.  A connected occupant who is seated, or whose embrace has not
    yet run out, is held in place by the tick: its position is unchanged,
    its velocity is zero, and the buffered input is neither applied nor
    acknowledged. *)
Theorem tick_holds_seated_and_embracing :
  forall s now i p,
    get_player i (players s) = Some p -> connected p = true ->
    sitting p = true \/ (hugging p = true /\ (now < hugEndTime p)%Z) ->
    exists p',
      get_player i (players (fst (gameTick now s))) = Some p'
      /\ x p' = x p /\ y p' = y p /\ vx p' = 0 /\ vy p' = 0
      /\ lastInputSeq p' = lastInputSeq p /\ lastInput p' = lastInput p
      /\ sitting p' = sitting p.
Proof.
  intros s now i p Hg Hc Hcase.
  eexists. split; [apply get_player_gameTick; exact Hg|].
  assert (Hheld : hugging (expireHug now p) || sitting (expireHug now p) = true).
  { unfold expireHug, hugExpired. destruct Hcase as [Hs | [Hh Hlt]].
    - destruct (_ && _ && _ && _); cbn; rewrite Hs, ?orb_true_r; reflexivity.
    - assert (E : (hugEndTime p <=? now)%Z = false) by (apply Z.leb_gt; exact Hlt).
      rewrite E, andb_false_r. rewrite Hh. reflexivity. }
  destruct (expireHug_fields now p) as (_ & Hc' & Hs' & Hli & Hls & Hx & Hy).
  unfold tickPlayer. rewrite Hc', Hc, Hheld. cbn.
  repeat split; assumption.
Qed.

Lemma clamp_step (w a f d : Q) :
  0 <= a <= w -> Qabs (f - a) <= d -> Qabs (Math_max 0 (Math_min w f) - a) <= d.
Proof.
  intros [Ha0 Haw] Hd.
  apply Qabs_Qle_condition in Hd. destruct Hd as [Hd1 Hd2].
  apply Qabs_Qle_condition.
  unfold Math_max, Math_min.
  destruct (Qle_bool w f) eqn:E1.
  - apply Qle_bool_iff in E1.
    destruct (Qle_bool 0 w) eqn:E2.
    + split; lra.
    + apply Qle_bool_false_lt in E2. split; lra.
  - apply Qle_bool_false_lt in E1.
    destruct (Qle_bool 0 f) eqn:E2.
    + split; lra.
    + apply Qle_bool_false_lt in E2. split; lra.
Qed.

(** The requested velocity never exceeds the occupant speed, on either
    axis or in magnitude. *)
Lemma inputVelocity_bound (k : Keys) :
  Qabs (fst (inputVelocity k)) <= 125 /\ Qabs (snd (inputVelocity k)) <= 125
  /\ fst (inputVelocity k) * fst (inputVelocity k)
     + snd (inputVelocity k) * snd (inputVelocity k) <= 125 * 125.
Proof.
  destruct k as [[] [] [] [] [] [] [] [] ke];
    (split; [|split]); apply Qle_bool_iff; vm_compute; reflexivity.
Qed.

Lemma processPlayerInput_step (r : WorldMap.Registry) (now : Z) (p : Player)
  (input : Input) :
  inWorld p ->
  let p' := processPlayerInput r now p input in
  Qabs (x p' - x p) <= (25 # 4) /\ Qabs (y p' - y p) <= (25 # 4)
  /\ vx p' * vx p' + vy p' * vy p' <= 125 * 125.
Proof.
  intros [Hx Hy].
  pose proof (inputVelocity_bound (keys input)) as (Bx & By & Bm).
  unfold processPlayerInput.
  destruct (inputVelocity (keys input)) as [ivx ivy]. cbn [fst snd] in *.
  apply Qabs_Qle_condition in Bx. apply Qabs_Qle_condition in By.
  assert (Hdt : TICK_INTERVAL / 1000 == 1 # 20) by reflexivity.
  assert (Dx : Qabs (x p + ivx * (TICK_INTERVAL / 1000) - x p) <= (25 # 4)).
  { apply Qabs_Qle_condition. rewrite Hdt. split; lra. }
  assert (Dy : Qabs (y p + ivy * (TICK_INTERVAL / 1000) - y p) <= (25 # 4)).
  { apply Qabs_Qle_condition. rewrite Hdt. split; lra. }
  assert (Zx : Qabs (x p - x p) <= (25 # 4)) by (apply Qabs_Qle_condition; split; lra).
  assert (Zy : Qabs (y p - y p) <= (25 # 4)) by (apply Qabs_Qle_condition; split; lra).
  destruct (Qneqb ivx 0) eqn:Ex;
    [destruct (canMoveTo r (x p + ivx * (TICK_INTERVAL / 1000)) (y p))|];
    (destruct (Qneqb ivy 0) eqn:Ey;
      [match goal with |- context [canMoveTo ?r ?a ?b] => destruct (canMoveTo r a b) end|]);
    cbn [x y vx vy];
    (split; [apply clamp_step; assumption | split; [apply clamp_step; assumption | nra]]).
Qed.

(** X24.  The speed limit.  On one tick no occupant inside the world is
    displaced by more than 6.25 units along either axis, which is 125
    units per second at 20 ticks per second, and a connected occupant
    leaves the tick with a velocity of magnitude at most 125, whatever keys
    the buffered input holds. *)
Theorem tick_speed_limit :
  forall s now i p,
    get_player i (players s) = Some p -> inWorld p ->
    exists p',
      get_player i (players (fst (gameTick now s))) = Some p'
      /\ Qabs (x p' - x p) <= (25 # 4) /\ Qabs (y p' - y p) <= (25 # 4)
      /\ (connected p = true -> vx p' * vx p' + vy p' * vy p' <= 125 * 125).
Proof.
  intros s now i p Hg Hin.
  eexists. split; [apply get_player_gameTick; exact Hg|].
  destruct (expireHug_fields now p) as (_ & Hc' & _ & _ & _ & Hx & Hy).
  assert (Hin1 : inWorld (expireHug now p)) by (unfold inWorld; rewrite Hx, Hy; exact Hin).
  rewrite <- Hx, <- Hy, <- Hc'.
  set (q := expireHug now p) in *. clearbody q.
  assert (Zx : Qabs (x q - x q) <= 25 # 4) by (apply Qabs_Qle_condition; split; lra).
  assert (Zy : Qabs (y q - y q) <= 25 # 4) by (apply Qabs_Qle_condition; split; lra).
  unfold tickPlayer. destruct (connected q) eqn:Ec.
  - destruct (hugging q || sitting q).
    + cbn. repeat split; try assumption. intros _. lra.
    + destruct (lastInput q) as [input|].
      * destruct (processPlayerInput_step (registry s) now q input Hin1) as (H1 & H2 & H3).
        repeat split; try assumption. intros _. exact H3.
      * cbn. repeat split; try assumption. intros _. lra.
  - repeat split; try assumption. discriminate.
Qed.

(** ** Occupants across a restart *)

Lemma restore_fold (now : Z) (l acc : list Player) :
  NoDup (map id (acc ++ l)) ->
  fold_left (fun a sv => player_set (restorePlayer now sv) a) (map savedPlayer l) acc
  = acc ++ map (fun p => restorePlayer now (savedPlayer p)) l.
Proof.
  revert acc. induction l as [|p l IH]; intros acc Hnd; cbn [map fold_left].
  - rewrite app_nil_r. reflexivity.
  - rewrite player_set_absent'.
    + rewrite IH.
      * rewrite <- app_assoc. reflexivity.
      * rewrite <- app_assoc. cbn [app]. rewrite !map_app in *. exact Hnd.
    + cbn [id restorePlayer p_set_connected p_set_pos createPlayerState savedPlayer sv_id].
      apply get_player_None. rewrite map_app in Hnd. cbn [map] in Hnd.
      apply NoDup_remove_2 in Hnd. intro Hin. apply Hnd. apply in_or_app. left. exact Hin.
Qed.

(** X25.  What survives a restart.  Starting the server on the occupant
    document written from a registry with distinct identifiers rebuilds
    that registry in the same order, every occupant with its identifier,
    name and position (and its character, unless that was empty); all of
    them are disconnected, at rest, neither seated nor embracing, and
    without buffered input. *)
Theorem occupants_survive_restart :
  forall now rnd tiles raws l,
    NoDup (map id l) ->
    Forall2 restoredFrom l (players (startServer now rnd (map savedPlayer l) tiles raws)).
Proof.
  intros now rnd tiles raws l Hnd.
  rewrite players_startServer, (restore_fold now l []) by exact Hnd.
  cbn [app]. clear Hnd. induction l as [|p l IH]; cbn [map]; constructor; [|exact IH].
  unfold restoredFrom. cbn. repeat split. intro Ht. rewrite Ht. reflexivity.
Qed.

(** ** Followers *)

Lemma presence_update (i : string) (f : Player -> Player) (l : list Player) :
  (forall p, presence (f p) = presence p) ->
  map presence (update_player i f l) = map presence l.
Proof.
  intro Hf. induction l as [|q l IH]; simpl; [reflexivity|].
  destruct (String.eqb (id q) i); simpl; [rewrite Hf | rewrite IH]; reflexivity.
Qed.

Lemma presence_tick (r : WorldMap.Registry) (now : Z) (p : Player) :
  presence (tickPlayer r now (expireHug now p)) = presence p.
Proof.
  destruct (tickPlayer_fields r now (expireHug now p)) as (H1 & H2 & _).
  destruct (expireHug_fields now p) as (H3 & H4 & _).
  unfold presence. congruence.
Qed.

Lemma presence_gameTick (now : Z) (s : GameState) :
  map presence (players (fst (gameTick now s))) = map presence (players s).
Proof.
  rewrite players_gameTick, map_map. apply map_ext. intro p. apply presence_tick.
Qed.

(** Events other than a join and a close change neither the identifier
    nor the connection flag of any occupant. *)
Lemma step_presence (s : GameState) (e : Event) :
  reassigns e = false ->
  map presence (players (fst (step s e))) = map presence (players s).
Proof.
  intro H. destruct e as [c | c now rnd m | c | now]; try discriminate.
  - cbn [step]. destruct (is_open c s); reflexivity.
  - cbn [step]. destruct (is_open c s); [|reflexivity].
    destruct m; try discriminate; cbn [handleMessage]; unfold_handlers; split_fst;
      cbn [fst players set_players set_registry set_objects];
      rewrite ?presence_update; try reflexivity; intro; reflexivity.
  - apply presence_gameTick.
Qed.

Lemma get_player_presence (l l' : list Player) (i : string) :
  map presence l = map presence l' ->
  option_map connected (get_player i l) = option_map connected (get_player i l').
Proof.
  revert l'. induction l as [|p l IH]; intros [|p' l'] H; try discriminate; [reflexivity|].
  cbn [map] in H. unfold presence at 1 3 in H. injection H as Hid Hc Hl.
  simpl. rewrite Hid. destruct (String.eqb (id p') i); [simpl; congruence | apply IH; exact Hl].
Qed.

Lemma targetConnected_presence (l l' : list Player) (f : Follower) :
  map presence l = map presence l' -> targetConnected l f -> targetConnected l' f.
Proof.
  intros H. unfold targetConnected. destruct (f_targetPlayerId f) as [tid|]; [|trivial].
  intros (p & Hg & Hc). pose proof (get_player_presence l l' tid H) as E.
  rewrite Hg in E. destruct (get_player tid l') as [p'|]; [|discriminate].
  exists p'. split; [reflexivity|]. simpl in E. congruence.
Qed.

Lemma updateFollower_target (ps : list Player) (dt : Q) (f : Follower) :
  f_targetPlayerId (updateFollower ps dt f) = f_targetPlayerId f
  \/ f_targetPlayerId (updateFollower ps dt f) = None.
Proof.
  unfold updateFollower.
  destruct (f_targetPlayerId f) as [tid|] eqn:Et; [|left; simpl; first [reflexivity | exact Et]].
  destruct (negb (truthy tid)); [left; simpl; first [reflexivity | exact Et]|].
  destruct (get_player tid ps) as [target|]; [|right; reflexivity].
  destruct (negb (connected target)); [right; reflexivity|].
  cbv zeta.
  destruct (Qle_bool _ _); [left; simpl; first [reflexivity | exact Et]|].
  destruct (Qltb 0 _); [|left; first [reflexivity | exact Et]].
  destruct (clampToWorld _ _). left. simpl. first [reflexivity | exact Et].
Qed.

Lemma Forall_mapi_from {A B : Type} (P : B -> Prop) (f : nat -> A -> B) (l : list A) :
  forall n, (forall k a, In a l -> P (f k a)) -> Forall P (mapi_from n f l).
Proof.
  induction l as [|a l IH]; intros n H; simpl; constructor.
  - apply H. left. reflexivity.
  - apply IH. intros k b Hb. apply H. right. exact Hb.
Qed.

Lemma opt_string_eqb_eq (a : option string) (t : string) :
  opt_string_eqb a (Some t) = true -> a = Some t.
Proof.
  destruct a as [u|]; simpl; [|discriminate]. intro H. apply String.eqb_eq in H. congruence.
Qed.

(** After an assignment every follower has no target, or the identifier of
    a connected occupant. *)
Lemma assign_targets (s : GameState) :
  uniqueIds s ->
  Forall (targetConnected (players s)) (followers (assignFollowersToPlayers s)).
Proof.
  intro Hnd. unfold assignFollowersToPlayers.
  destruct (getConnectedPlayers s) as [|q0 qs] eqn:Hconn.
  - cbn [followers set_followers]. apply Forall_forall. intros f Hf.
    apply in_map_iff in Hf. destruct Hf as (f0 & <- & _). exact I.
  - cbn [followers set_followers]. apply Forall_mapi_from. intros k f _.
    set (ids := map id (q0 :: qs)).
    set (tid := nth (k mod List.length ids)%nat ids "").
    assert (Hin : In tid ids).
    { apply nth_In. apply Nat.mod_upper_bound. discriminate. }
    assert (Htc : exists p, get_player tid (players s) = Some p /\ connected p = true).
    { unfold ids in Hin. apply in_map_iff in Hin. destruct Hin as (q & Hq & Hin).
      rewrite <- Hconn in Hin. unfold getConnectedPlayers in Hin.
      apply filter_In in Hin. destruct Hin as [Hin Hc].
      exists q. split; [|exact Hc]. rewrite <- Hq. apply In_get_player; assumption. }
    unfold targetConnected. cbn [f_targetPlayerId].
    destruct (opt_string_eqb (f_targetPlayerId f) (Some tid)) eqn:E.
    + rewrite (opt_string_eqb_eq _ _ E). exact Htc.
    + destruct Htc as (p & Hg & Hc). rewrite Hg. cbn [f_targetPlayerId].
      exists p. split; assumption.
Qed.

(** A join or a close leaves occupants and followers as they are, or ends
    with an assignment of the followers. *)
Lemma step_reassign_cases (s : GameState) (e : Event) :
  reassigns e = true ->
  (players (fst (step s e)) = players s /\ followers (fst (step s e)) = followers s)
  \/ (exists s1, fst (step s e) = assignFollowersToPlayers s1 /\ followers s1 = followers s).
Proof.
  intro H. destruct e as [c | c now rnd [jn jc jp| | | | | | | | | | |] | c | now];
    try discriminate; cbn [step]; (destruct (is_open c s); [|left; split; reflexivity]).
  - cbn [handleMessage]. unfold handleJoin.
    destruct (MAX_PLAYERS <=? _)%nat; [left; split; reflexivity|].
    right. destruct (get_player _ (players s)).
    + eexists. cbn [fst]. split; reflexivity.
    + destruct (spawnPosition _). eexists. cbn [fst]. split; reflexivity.
  - unfold handleDisconnect.
    destruct (client_playerId c s) as [pid|]; [|left; split; reflexivity].
    destruct (negb (truthy pid)); [left; split; reflexivity|].
    destruct (get_player pid (players s)); [|left; split; reflexivity].
    right. eexists. cbn [fst]. split; reflexivity.
Qed.

Lemma followers_gameTick (now : Z) (s : GameState) :
  exists dt,
    followers (fst (gameTick now s))
    = map (updateFollower (players (fst (gameTick now s))) dt) (followers s).
Proof.
  exists (Math_min (Math_max (inject_Z (now - lastTick s)) TICK_INTERVAL)
                   (TICK_INTERVAL * 4) / 1000).
  unfold gameTick, updateFollowers. cbv zeta.
  cbn [fst followers players set_followers set_players registry]. reflexivity.
Qed.

Lemma step_targets (s : GameState) (e : Event) :
  uniqueIds s ->
  Forall (targetConnected (players s)) (followers s) ->
  Forall (targetConnected (players (fst (step s e)))) (followers (fst (step s e))).
Proof.
  intros Hnd HI. destruct (reassigns e) eqn:Er.
  - pose proof (step_uniqueIds s e Hnd) as Hnd'.
    destruct (step_reassign_cases s e Er) as [[-> ->] | (s1 & Heq & _)]; [exact HI|].
    rewrite Heq in *. rewrite players_assignFollowers.
    apply assign_targets. unfold uniqueIds in *. rewrite players_assignFollowers in Hnd'.
    exact Hnd'.
  - pose proof (step_presence s e Er) as Hp.
    assert (HI' : Forall (targetConnected (players (fst (step s e)))) (followers s)).
    { eapply Forall_impl; [|exact HI]. intros f. apply targetConnected_presence.
      symmetry. exact Hp. }
    destruct (touchesFollowers e) eqn:Et.
    + destruct e as [c | c now rnd [] | c | now]; try discriminate.
      cbn [step] in *. destruct (followers_gameTick now s) as [dt ->].
      apply Forall_forall. intros f' Hf'. apply in_map_iff in Hf'.
      destruct Hf' as (f & <- & Hf).
      pose proof (proj1 (Forall_forall _ _) HI' f Hf) as Hf0.
      unfold targetConnected in *.
      destruct (updateFollower_target (players (fst (gameTick now s))) dt f) as [-> | ->];
        [exact Hf0 | exact I].
    + rewrite (step_followers_frame s e Et). exact HI'.
Qed.

(** X26.  In every reachable state a follower either has no target or
    targets an occupant who is registered and connected: no follower ever
    trails an occupant who has left. *)
Theorem followers_target_connected_occupants :
  forall s,
    reachable s ->
    Forall (targetConnected (players s)) (followers s).
Proof.
  intros s (now & rnd & saved & tiles & raws & es & ->).
  assert (H0 : uniqueIds (startServer now rnd saved tiles raws)
               /\ Forall (targetConnected (players (startServer now rnd saved tiles raws)))
                    (followers (startServer now rnd saved tiles raws))).
  { split; [apply startServer_Inv|].
    pose proof (startServer_Inv now rnd saved tiles raws) as [Hnd _].
    unfold startServer in *. cbv zeta in *. rewrite players_assignFollowers.
    apply assign_targets. unfold uniqueIds in *.
    rewrite players_assignFollowers in Hnd. exact Hnd. }
  revert H0. generalize (startServer now rnd saved tiles raws).
  induction es as [|e es IH]; intros s [Hnd HI]; [exact HI|].
  simpl. pose proof (step_uniqueIds s e Hnd) as Hnd1.
  pose proof (step_targets s e Hnd HI) as HI1.
  destruct (step s e) as [s1 o1]. cbn [fst] in *.
  specialize (IH s1 (conj Hnd1 HI1)). destruct (run s1 es) as [s2 o2]. exact IH.
Qed.

Lemma Forall2_map_each {A : Type} (R : A -> A -> Prop) (h : A -> A) (l : list A) :
  (forall a, In a l -> R a (h a)) -> Forall2 R l (map h l).
Proof.
  induction l as [|a l IH]; simpl; intro H; constructor.
  - apply H. left. reflexivity.
  - apply IH. intros b Hb. apply H. right. assumption.
Qed.

Lemma updateFollower_inWorld (ps : list Player) (dt : Q) (f : Follower) :
  followerInWorld f -> followerInWorld (updateFollower ps dt f).
Proof.
  intro H. unfold updateFollower.
  destruct (f_targetPlayerId f) as [tid|]; [|exact H].
  destruct (negb (truthy tid)); [exact H|].
  destruct (get_player tid ps) as [target|]; [|exact H].
  destruct (negb (connected target)); [exact H|].
  cbv zeta.
  destruct (Qle_bool _ _); [exact H|].
  destruct (Qltb 0 _); [|exact H].
  unfold clampToWorld, followerInWorld. cbn [f_x f_y]. split.
  - apply Math_max_min_bounds, WORLD_WIDTH_nonneg.
  - apply Math_max_min_bounds, WORLD_HEIGHT_nonneg.
Qed.

Lemma assign_inWorld (s : GameState) :
  Forall inWorld (players s) -> Forall followerInWorld (followers s) ->
  Forall followerInWorld (followers (assignFollowersToPlayers s)).
Proof.
  intros Hp Hf. unfold assignFollowersToPlayers.
  destruct (getConnectedPlayers s) as [|q0 qs]; cbn [followers set_followers].
  - apply Forall_forall. intros f' Hin. apply in_map_iff in Hin.
    destruct Hin as (f & <- & Hin). exact (proj1 (Forall_forall _ _) Hf f Hin).
  - apply Forall_mapi_from. intros k f Hin.
    pose proof (proj1 (Forall_forall _ _) Hf f Hin) as Hfw.
    unfold followerInWorld. cbn [f_x f_y].
    destruct (opt_string_eqb _ _); [exact Hfw|].
    destruct (get_player _ (players s)) as [target|] eqn:Hg; cbn [f_x f_y]; [|exact Hfw].
    exact (proj1 (Forall_forall _ _) Hp target (get_player_In _ _ _ Hg)).
Qed.

Lemma followers_initializeObjects (now : Z) (rnd : string) (raws : list RawObject)
  (s : GameState) :
  followers (initializeObjects now rnd raws s) = followers s.
Proof.
  unfold initializeObjects.
  set (s0 := set_registry (set_objects s []) _).
  change (followers s) with (followers s0). clearbody s0.
  revert s0. induction raws as [|raw raws IH]; intro s0; simpl; [reflexivity|].
  rewrite IH.
  destruct (normalizeObjectData now rnd raw) as [o|]; [|reflexivity].
  destruct (get_object (o_id o) (objects s0)); reflexivity.
Qed.

Lemma startServer_followers_inWorld (now : Z) (rnd : string) (saved : list SavedPlayer)
  (tiles : list (Z * Z)) (raws : list RawObject) :
  Forall savedInWorld saved ->
  Forall followerInWorld (followers (startServer now rnd saved tiles raws)).
Proof.
  intro Hs. pose proof (startServer_inWorld now rnd saved tiles raws Hs) as Hp.
  unfold startServer in *. cbv zeta in *. rewrite players_assignFollowers in Hp.
  apply assign_inWorld; [exact Hp|].
  unfold initializeFollowers. cbn [followers set_followers].
  rewrite followers_initializeObjects. cbn.
  constructor; [|constructor]. split; split; discriminate.
Qed.

Lemma step_followers_inWorld (s : GameState) (e : Event) :
  uniqueIds s -> Forall inWorld (players s) -> Forall followerInWorld (followers s) ->
  Forall followerInWorld (followers (fst (step s e))).
Proof.
  intros Hnd Hp Hf. destruct (reassigns e) eqn:Er.
  - pose proof (step_inWorld s e Hnd Hp) as Hp'.
    destruct (step_reassign_cases s e Er) as [[_ ->] | (s1 & Heq & Hf1)]; [exact Hf|].
    rewrite Heq in *. rewrite players_assignFollowers in Hp'.
    apply assign_inWorld; [exact Hp' | rewrite Hf1; exact Hf].
  - destruct (touchesFollowers e) eqn:Et.
    + destruct e as [c | c now rnd [] | c | now]; try discriminate.
      cbn [step]. destruct (followers_gameTick now s) as [dt ->].
      apply Forall_forall. intros f' Hin. apply in_map_iff in Hin.
      destruct Hin as (f & <- & Hin). apply updateFollower_inWorld.
      exact (proj1 (Forall_forall _ _) Hf f Hin).
    + rewrite (step_followers_frame s e Et). exact Hf.
Qed.

(** X27.  Followers stay inside the world.  When the positions loaded at
    start-up lie in the world, every follower lies in the world after any
    sequence of events, whether it walked there or was moved onto a new
    target. *)
Theorem followers_within_world :
  forall now rnd saved tiles raws es,
    Forall savedInWorld saved ->
    Forall followerInWorld (followers (fst (run (startServer now rnd saved tiles raws) es))).
Proof.
  intros now rnd saved tiles raws es Hs.
  assert (H0 : uniqueIds (startServer now rnd saved tiles raws)
               /\ Forall inWorld (players (startServer now rnd saved tiles raws))
               /\ Forall followerInWorld (followers (startServer now rnd saved tiles raws))).
  { split; [apply startServer_Inv|]. split.
    - apply startServer_inWorld. exact Hs.
    - apply startServer_followers_inWorld. exact Hs. }
  revert H0. generalize (startServer now rnd saved tiles raws).
  induction es as [|e es IH]; intros s (Hnd & Hp & Hf); [exact Hf|].
  simpl. pose proof (step_uniqueIds s e Hnd) as Hnd1.
  pose proof (step_inWorld s e Hnd Hp) as Hp1.
  pose proof (step_followers_inWorld s e Hnd Hp Hf) as Hf1.
  destruct (step s e) as [s1 o1]. cbn [fst] in *.
  specialize (IH s1 (conj Hnd1 (conj Hp1 Hf1))). destruct (run s1 es) as [s2 o2]. exact IH.
Qed.

Lemma nobody_connected (l : list Player) :
  List.length (filter connected l) = 0%nat ->
  forall i p, get_player i l = Some p -> connected p = false.
Proof.
  intros H i p Hg. apply get_player_In in Hg.
  destruct (connected p) eqn:Ec; [|reflexivity].
  assert (Hin : In p (filter connected l)) by (apply filter_In; split; assumption).
  destruct (filter connected l); [contradiction | discriminate].
Qed.

(** X28.  With no occupant connected, a tick leaves every follower where
    it is and brings it to rest. *)
Theorem tick_without_occupants_rests_followers :
  forall s now,
    connectedCount s = 0%nat ->
    Forall2
      (fun f f' => f_id f' = f_id f /\ f_x f' = f_x f /\ f_y f' = f_y f
                   /\ f_vx f' = 0 /\ f_vy f' = 0)
      (followers s) (followers (fst (gameTick now s))).
Proof.
  intros s now Hcnt. destruct (followers_gameTick now s) as [dt ->].
  apply Forall2_map_each. intros f _.
  assert (Hoff : forall i p, get_player i (players (fst (gameTick now s))) = Some p ->
                             connected p = false).
  { intros i p Hg.
    pose proof (get_player_presence (players s) _ i (eq_sym (presence_gameTick now s))) as E.
    rewrite Hg in E. destruct (get_player i (players s)) as [q|] eqn:Hq; [|discriminate].
    simpl in E. injection E as E. rewrite <- E.
    apply (nobody_connected (players s) Hcnt i q Hq). }
  unfold updateFollower.
  destruct (f_targetPlayerId f) as [tid|]; [|repeat split].
  destruct (negb (truthy tid)); [repeat split|].
  destruct (get_player tid _) as [target|] eqn:Hg; [|repeat split].
  rewrite (Hoff tid target Hg). repeat split.
Qed.

Lemma Math_sqrt_nonneg (q : Q) : 0 <= Math_sqrt q.
Proof.
  unfold Math_sqrt, Qle. cbn [Qnum Qden].
  pose proof (Z.sqrt_up_nonneg (Qceiling (q * inject_Z (sqrt_scale * sqrt_scale)))). lia.
Qed.

(** The root is never below the exact one. *)
Lemma Math_sqrt_square (q : Q) : q <= Math_sqrt q * Math_sqrt q.
Proof.
  unfold Math_sqrt.
  set (S := sqrt_scale).
  assert (HS : (0 < S)%Z) by reflexivity.
  set (a := Qceiling (q * inject_Z (S * S))).
  assert (Ha : q * inject_Z (S * S) <= inject_Z a) by apply Qle_ceiling.
  assert (Hr : (a <= Z.sqrt_up a * Z.sqrt_up a)%Z).
  { destruct (Z.le_gt_cases a 0) as [Hneg | Hpos].
    - pose proof (Z.sqrt_up_nonneg a). nia.
    - pose proof (Z.sqrt_up_spec a Hpos) as [_ H]. cbv beta in H. nia. }
  set (r := Z.sqrt_up a) in *. clearbody r. clearbody a. clearbody S.
  destruct q as [n d]. unfold Qle, Qmult, inject_Z in *. cbn [Qnum Qden] in *.
  rewrite Pos2Z.inj_mul, Z2Pos.id by exact HS.
  rewrite Pos.mul_1_r, Z.mul_1_r in Ha.
  assert (Hd : (0 < Z.pos d)%Z) by lia.
  nia.
Qed.

Lemma unit_step (dx dy move m : Q) :
  0 < Math_sqrt (dx * dx + dy * dy) -> 0 <= move <= m ->
  Qabs (dx / Math_sqrt (dx * dx + dy * dy) * move) <= m.
Proof.
  intros HD [Hm0 Hm].
  pose proof (Math_sqrt_square (dx * dx + dy * dy)) as Hsq.
  set (D := Math_sqrt (dx * dx + dy * dy)) in *.
  assert (Hdx : - D <= dx <= D) by (split; nra).
  set (u := dx / D).
  assert (Hu : u * D == dx) by (unfold u; field; lra).
  assert (Hu1 : -1 <= u <= 1) by (split; nra).
  apply Qabs_Qle_condition. split; nra.
Qed.

Lemma updateFollower_step (ps : list Player) (dt : Q) (f : Follower) :
  0 <= dt <= (1 # 5) -> followerInWorld f ->
  Qabs (f_x (updateFollower ps dt f) - f_x f) <= 22
  /\ Qabs (f_y (updateFollower ps dt f) - f_y f) <= 22.
Proof.
  intros [Hdt0 Hdt] [Hx Hy].
  assert (Zx : Qabs (f_x f - f_x f) <= 22) by (apply Qabs_Qle_condition; split; lra).
  assert (Zy : Qabs (f_y f - f_y f) <= 22) by (apply Qabs_Qle_condition; split; lra).
  unfold updateFollower.
  destruct (f_targetPlayerId f) as [tid|]; [|split; assumption].
  destruct (negb (truthy tid)); [split; assumption|].
  destruct (get_player tid ps) as [target|]; [|split; assumption].
  destruct (negb (connected target)); [split; assumption|].
  cbv zeta.
  destruct (Qle_bool _ _); [split; assumption|].
  set (dx := x target + _ - f_x f).
  set (dy := y target + _ - f_y f).
  unfold Math_hypot.
  destruct (Qltb 0 (Math_sqrt (dx * dx + dy * dy))) eqn:Epos; [|split; assumption].
  apply Qltb_true_iff in Epos.
  set (speed := Math_max 60 (FOLLOWER_SPEED - _ * (15 # 100))).
  set (move := Math_min (speed * dt) (Math_max 0 _)).
  assert (Hspeed : 0 <= speed <= 110).
  { pose proof (Math_sqrt_nonneg (vx target * vx target + vy target * vy target)) as Ht.
    unfold speed, Math_max, FOLLOWER_SPEED.
    destruct (Qle_bool _ _) eqn:E; [apply Qle_bool_iff in E | apply Qle_bool_false_lt in E];
      split; lra. }
  assert (Hmove : 0 <= move <= 22).
  { assert (Hmax : 0 <= speed * dt <= 22) by (split; nra).
    unfold move, Math_min, Math_max.
    destruct (Qle_bool (speed * dt) _) eqn:E1; [exact Hmax|].
    apply Qle_bool_false_lt in E1.
    destruct (Qle_bool 0 _) eqn:E2; [apply Qle_bool_iff in E2; split; lra | split; lra]. }
  unfold clampToWorld. cbn [f_x f_y]. split.
  - apply clamp_step; [exact Hx|].
    assert (E : f_x f + dx / Math_sqrt (dx * dx + dy * dy) * move - f_x f
                == dx / Math_sqrt (dx * dx + dy * dy) * move) by ring.
    rewrite E. apply unit_step; assumption.
  - apply clamp_step; [exact Hy|].
    assert (E : f_y f + dy / Math_sqrt (dx * dx + dy * dy) * move - f_y f
                == dy / Math_sqrt (dx * dx + dy * dy) * move) by ring.
    rewrite E.
    pose proof (unit_step dy dx move 22) as U.
    assert (Ec : dy * dy + dx * dx == dx * dx + dy * dy) by ring.
    assert (Em : Math_sqrt (dy * dy + dx * dx) = Math_sqrt (dx * dx + dy * dy)).
    { unfold Math_sqrt. rewrite Ec. reflexivity. }
    rewrite Em in U. apply U; assumption.
Qed.

Lemma tick_delta_bounds (now last : Z) :
  0 <= Math_min (Math_max (inject_Z (now - last)) TICK_INTERVAL) (TICK_INTERVAL * 4) / 1000
    <= (1 # 5).
Proof.
  assert (E1 : TICK_INTERVAL == 50) by reflexivity.
  set (d := inject_Z (now - last)).
  assert (H : 50 <= Math_min (Math_max d TICK_INTERVAL) (TICK_INTERVAL * 4) <= 200).
  { unfold Math_min, Math_max.
    destruct (Qle_bool d TICK_INTERVAL) eqn:E2;
      [apply Qle_bool_iff in E2 | apply Qle_bool_false_lt in E2];
      (destruct (Qle_bool _ (TICK_INTERVAL * 4)) eqn:E3;
        [apply Qle_bool_iff in E3 | apply Qle_bool_false_lt in E3]);
      rewrite ?E1 in *; split; lra. }
  set (c := Math_min _ _) in *.
  assert (E : c / 1000 == c * (1 # 1000)) by reflexivity.
  rewrite E. split; lra.
Qed.

(** X29.  The pace of a follower.  On one tick a follower inside the
    world is displaced by at most 22 units along either axis: at most its
    speed of 110 units per second over the longest step of a fifth of a
    second. *)
Theorem follower_pace :
  forall s now,
    Forall followerInWorld (followers s) ->
    Forall2
      (fun f f' => Qabs (f_x f' - f_x f) <= 22 /\ Qabs (f_y f' - f_y f) <= 22)
      (followers s) (followers (fst (gameTick now s))).
Proof.
  intros s now Hf.
  unfold gameTick, updateFollowers. cbv zeta.
  cbn [fst followers players set_followers set_players registry].
  apply Forall2_map_each. intros f Hin.
  apply updateFollower_step; [apply tick_delta_bounds|].
  exact (proj1 (Forall_forall _ _) Hf f Hin).
Qed.

(** ** The client's key state *)

Lemma letters_follow_step (m : InputManager.State) (c : InputManager.Call) :
  lettersFollow (InputManager.keys m) ->
  lettersFollow (InputManager.keys (InputManager.dispatch m c)).
Proof.
  unfold lettersFollow. intros (Hw & Hs & Ha & Hd).
  destruct c as [k | k | now |]; cbn [InputManager.dispatch].
  - unfold InputManager.handleKeyDown. cbv zeta.
    repeat match goal with
    | |- context [if ?b then _ else _] => destruct b
    end; cbn; repeat split; intros; try reflexivity; auto.
  - unfold InputManager.handleKeyUp. cbv zeta.
    repeat match goal with
    | |- context [if ?b then _ else _] => destruct b
    end; cbn; repeat split; intros; try discriminate; auto.
  - cbn. repeat split; assumption.
  - unfold InputManager.wasEPressed. destruct (InputManager.eKeyPressed m);
      cbn; repeat split; assumption.
Qed.

Lemma inputVelocity_letters (k : InputManager.KeyState) :
  lettersFollow k ->
  inputVelocity (InputManager.wireKeys k) = inputVelocity (InputManager.arrowsOnly k).
Proof.
  intros (Hw & Hs & Ha & Hd). destruct k as [u dn l r w a s d e h q].
  cbn [InputManager.key_up InputManager.key_down InputManager.key_left InputManager.key_right
       InputManager.key_w InputManager.key_a InputManager.key_s InputManager.key_d] in *.
  unfold inputVelocity, InputManager.wireKeys, InputManager.arrowsOnly.
  cbn [k_up k_down k_left k_right k_w k_a k_s k_d
       InputManager.key_up InputManager.key_down InputManager.key_left InputManager.key_right
       InputManager.key_w InputManager.key_a InputManager.key_s InputManager.key_d
       InputManager.key_e].
  assert (Eu : u || w = u || false) by (destruct u, w; try reflexivity; discriminate (Hw eq_refl)).
  assert (Ed : dn || s = dn || false) by (destruct dn, s; try reflexivity; discriminate (Hs eq_refl)).
  assert (El : l || a = l || false) by (destruct l, a; try reflexivity; discriminate (Ha eq_refl)).
  assert (Er : r || d = r || false) by (destruct r, d; try reflexivity; discriminate (Hd eq_refl)).
  rewrite Eu, Ed, El, Er. reflexivity.
Qed.

(** X30.  The letter flags of the client's key state are redundant.
    After any sequence of key presses, key releases and polls, a letter
    flag ([w], [a], [s], [d]) is set only if the flag of its direction is
    set, so the velocity the server derives from the packet is the one it
    would derive from the four direction flags alone. *)
Theorem letter_keys_are_redundant :
  forall calls,
    let k := InputManager.keys (fold_left InputManager.dispatch calls InputManager.constructor) in
    lettersFollow k
    /\ inputVelocity (InputManager.wireKeys k) = inputVelocity (InputManager.arrowsOnly k).
Proof.
  intros calls k.
  assert (H : lettersFollow k).
  { unfold k. clear k.
    assert (H0 : lettersFollow (InputManager.keys InputManager.constructor))
      by (unfold lettersFollow; cbn; repeat split; discriminate).
    revert H0. generalize InputManager.constructor.
    induction calls as [|c calls IH]; intros m Hm; [exact Hm|].
    cbn [fold_left]. apply IH. apply letters_follow_step. exact Hm. }
  split; [exact H | apply inputVelocity_letters; exact H].
Qed.

(** ** The theorems above at concrete inputs *)

Lemma place_collider_blocks_tile_at_5_7 :
  WorldMap.isCollidable
    (registry (fst (handlePlaceCollider 1 (Some 5%Z) (Some 7%Z) adaJoined))) 88 120 = true.
Proof.
  assert (Hauth : truthy_opt (client_playerId 1 adaJoined) = true) by reflexivity.
  assert (Hin : tileInMap 5 7) by (unfold tileInMap; vm_compute; intuition discriminate).
  destruct (place_collider_blocks_tile 1%nat 5%Z 7%Z adaJoined Hauth Hin) as (_ & H & _).
  apply H. reflexivity.
Defined.

Lemma place_collider_outside_map_at_240_7 :
  handlePlaceCollider 1 (Some 240%Z) (Some 7%Z) adaJoined = (adaJoined, []).
Proof.
  assert (Hauth : truthy_opt (client_playerId 1 adaJoined) = true) by reflexivity.
  assert (Hout : ~ tileInMap 240 7).
  { unfold tileInMap. intros [[_ H] _]. vm_compute in H. discriminate H. }
  exact (place_collider_outside_map_is_silent 1%nat 240%Z 7%Z adaJoined Hauth Hout).
Defined.

Lemma remove_absent_collider_at_5_7 :
  handleRemoveCollider 1 (Some 5%Z) (Some 7%Z) adaJoined = (adaJoined, []).
Proof.
  assert (Hauth : truthy_opt (client_playerId 1 adaJoined) = true) by reflexivity.
  assert (Habs : WorldMap.hasColliderTile (registry adaJoined) 5 7 = false) by reflexivity.
  exact (remove_absent_collider_is_silent 1%nat 5%Z 7%Z adaJoined Hauth Habs).
Defined.

Lemma remove_present_collider_at_5_7 :
  WorldMap.hasColliderTile
    (registry (fst (handleRemoveCollider 1 (Some 5%Z) (Some 7%Z) adaTiled))) 5 7 = false.
Proof.
  assert (Hauth : truthy_opt (client_playerId 1 adaTiled) = true) by reflexivity.
  assert (Hpres : WorldMap.hasColliderTile (registry adaTiled) 5 7 = true) by reflexivity.
  exact (proj1 (proj2 (remove_present_collider 1%nat 5%Z 7%Z adaTiled Hauth Hpres))).
Defined.

Lemma place_then_remove_collider_at_5_7 :
  fst (handleRemoveCollider 1 (Some 5%Z) (Some 7%Z)
         (fst (handlePlaceCollider 1 (Some 5%Z) (Some 7%Z) adaJoined))) = adaJoined.
Proof.
  assert (Hauth : truthy_opt (client_playerId 1 adaJoined) = true) by reflexivity.
  assert (Hin : tileInMap 5 7) by (unfold tileInMap; vm_compute; intuition discriminate).
  assert (Habs : WorldMap.hasColliderTile (registry adaJoined) 5 7 = false) by reflexivity.
  exact (place_then_remove_collider 1%nat 5%Z 7%Z adaJoined Hauth Hin Habs).
Defined.

Lemma nothing_collides_left_of_map :
  WorldMap.isCollidable (registry adaTiled) (-5) 10 = false.
Proof.
  assert (Hr : reachable adaTiled).
  { exists 1000%Z, "", [], [(5, 7)%Z], [],
      [ Connect 1; Message 1 1010 "a" (Join (Some "Ada") "1" None) ]. reflexivity. }
  assert (Hout : ~ tileInMap (fst (WorldMap.toTileCoords (-5) 10))
                             (snd (WorldMap.toTileCoords (-5) 10))).
  { unfold tileInMap. intros [[H _] _]. vm_compute in H. apply H. reflexivity. }
  exact (proj2 (nothing_collides_outside_map adaTiled (-5) 10 Hr Hout)).
Defined.

Lemma colliders_survive_restart_of_adaTiled :
  WorldMap.getColliders
    (WorldMap.setColliders (WorldMap.mkRegistry [] []) (WorldMap.getColliders (registry adaTiled)))
  = WorldMap.getColliders (registry adaTiled).
Proof.
  assert (Hr : reachable adaTiled).
  { exists 1000%Z, "", [], [(5, 7)%Z], [],
      [ Connect 1; Message 1 1010 "a" (Join (Some "Ada") "1" None) ]. reflexivity. }
  exact (colliders_survive_restart adaTiled (WorldMap.mkRegistry [] []) Hr).
Defined.

Lemma object_colliders_follow_objects_after_placing :
  let s := fst (run (startServer 1000 "" [] [] [noteAt 100 100])
                  [ Connect 1; Message 1 1010 "a" (Join (Some "Ada") "1" None);
                    Message 1 1020 "o1" (PlaceObject (noteAt 500 500)) ]) in
  WorldMap.objectColliders (registry s) = map colliderOf (objects s).
Proof.
  assert (Hraws : Forall (fun raw => r_id raw <> Some "") [noteAt 100 100]).
  { constructor; [discriminate | constructor]. }
  exact (object_colliders_follow_objects 1000%Z "" [] [] [noteAt 100 100]
           [ Connect 1; Message 1 1010 "a" (Join (Some "Ada") "1" None);
             Message 1 1020 "o1" (PlaceObject (noteAt 500 500)) ] Hraws).
Defined.

Lemma objects_stay_disjoint_after_three_placements :
  pairwiseDisjoint
    (objects (fst (run adaJoined
                     [ Message 1 1020 "o1" (PlaceObject (noteAt 500 500));
                       Message 1 1030 "o2" (PlaceObject (noteAt 520 530));
                       Message 1 1040 "o3" (PlaceObject (noteAt 700 700)) ]))).
Proof.
  assert (H0 : pairwiseDisjoint (objects adaJoined)).
  { assert (E : objects adaJoined = []) by reflexivity. rewrite E. constructor. }
  exact (objects_stay_disjoint adaJoined
           [ Message 1 1020 "o1" (PlaceObject (noteAt 500 500));
             Message 1 1030 "o2" (PlaceObject (noteAt 520 530));
             Message 1 1040 "o3" (PlaceObject (noteAt 700 700)) ] H0).
Defined.

Lemma place_object_twice_at_500_500 :
  handlePlaceObject 1 1030 "zz" (noteAt 500 500)
    (fst (handlePlaceObject 1 1020 "o1" (noteAt 500 500) adaJoined))
  = (fst (handlePlaceObject 1 1020 "o1" (noteAt 500 500) adaJoined), []).
Proof.
  assert (Hplaced : In (Broadcast (ObjectPlaced placedNote))
                       (snd (handlePlaceObject 1 1020 "o1" (noteAt 500 500) adaJoined))).
  { left. vm_compute. reflexivity. }
  assert (Hw : Qltb 0 (o_width placedNote) = true) by reflexivity.
  assert (Hh : Qltb 0 (o_height placedNote) = true) by reflexivity.
  exact (place_object_twice_is_noop 1%nat 1020%Z "o1" 1030%Z "zz" (noteAt 500 500) adaJoined
           (fst (handlePlaceObject 1 1020 "o1" (noteAt 500 500) adaJoined))
           placedNote
           (snd (handlePlaceObject 1 1020 "o1" (noteAt 500 500) adaJoined))
           (surjective_pairing _) Hplaced Hw Hh).
Defined.

Lemma remove_placed_note_by_id :
  get_object (o_id placedNote)
    (objects (fst (handleRemoveObject 1 (Some (o_id placedNote)) None None None None
                     (fst (handlePlaceObject 1 1020 "o1" (noteAt 500 500) adaJoined)))))
  = None.
Proof.
  set (s := fst (handlePlaceObject 1 1020 "o1" (noteAt 500 500) adaJoined)).
  assert (Hauth : truthy_opt (client_playerId 1 s) = true) by reflexivity.
  assert (Hi : truthy (o_id placedNote) = true) by reflexivity.
  assert (Hget : get_object (o_id placedNote) (objects s) = Some placedNote)
    by (vm_compute; reflexivity).
  exact (proj1 (proj2 (remove_object_by_id 1%nat (o_id placedNote) None None None None s
                         placedNote Hauth Hi Hget))).
Defined.

Lemma shelf_survives_restart :
  objects (initializeObjects 1000 "" (map rawOf shelf) (createGameState 1000)) = shelf.
Proof.
  assert (Hnd : NoDup (map o_id shelf)).
  { constructor; [intros [H | []]; discriminate H|].
    constructor; [intros []|]. constructor. }
  assert (Hids : Forall (fun o => truthy (o_id o) = true) shelf).
  { repeat constructor. }
  assert (Hst : Forall (fun o => o_createdAt o <> 0%Z /\ o_updatedAt o <> 0%Z) shelf).
  { repeat constructor; discriminate. }
  exact (proj1 (objects_survive_restart 1000%Z "" shelf (createGameState 1000) Hnd Hids Hst)).
Defined.

Lemma hug_before_join_is_refused :
  handleMessage 1 1010 "" Hug visitor = (visitor, [Send 1 (Error "Not authenticated")]).
Proof.
  assert (Hm : needsJoin Hug = true) by reflexivity.
  assert (Hauth : truthy_opt (client_playerId 1 visitor) = false) by reflexivity.
  exact (requests_before_join_are_refused 1%nat 1010%Z "" Hug visitor Hm Hauth).
Defined.

Lemma rejoin_of_saved_occupant :
  map id (players (fst (handleJoin 1 1010 "r" None "2" (Some "p1") returning)))
  = map id (players returning).
Proof.
  assert (Hlt : (connectedCount returning < 2)%nat) by (vm_compute; lia).
  assert (Ht : truthy "p1" = true) by reflexivity.
  assert (Hg : get_player "p1" (players returning) = Some (restorePlayer 1000 savedAda))
    by (vm_compute; reflexivity).
  exact (proj1 (rejoin_restores_occupant 1%nat 1010%Z "r" None "2" "p1" returning
                  (restorePlayer 1000 savedAda) Hlt Ht Hg)).
Defined.

Lemma first_join_of_visitor :
  exists p,
    players (fst (handleJoin 1 1010 "a" None "1" None visitor)) = players visitor ++ [p]
    /\ name p = "Player" /\ x p == 328 /\ y p == 176.
Proof.
  assert (Hlt : (connectedCount visitor < 2)%nat) by (vm_compute; lia).
  assert (Hfresh : has_player (fresh_player_id 1010 "a") (players visitor) = false)
    by reflexivity.
  destruct (first_join_spawns_occupant 1%nat 1010%Z "a" "1" visitor Hlt Hfresh)
    as (p & H1 & _ & H2 & _ & _ & _ & _ & Hy & Hx).
  exists p. split; [exact H1|]. split; [exact H2|]. split; [exact Hx | exact Hy].
Defined.

Lemma registry_grows_over_a_visit :
  exists extra,
    map id (players (fst (run adaJoined
                            [ Connect 2; Message 2 1020 "b" (Join (Some "Bob") "2" None);
                              Close 1; Tick 1050 ])))
    = map id (players adaJoined) ++ extra.
Proof.
  assert (Hnd : uniqueIds adaJoined).
  { unfold uniqueIds.
    assert (E : map id (players adaJoined) = ["player_1010_a"]) by (vm_compute; reflexivity).
    rewrite E. constructor; [intros [] | constructor]. }
  exact (registry_only_grows adaJoined
           [ Connect 2; Message 2 1020 "b" (Join (Some "Bob") "2" None); Close 1; Tick 1050 ]
           Hnd).
Defined.

Lemma close_of_ada :
  get_player "player_1010_a" (players (fst (step adaJoined (Close 1))))
  = Some (p_set_connected false adaRecord).
Proof.
  assert (Hopen : is_open 1 adaJoined = true) by reflexivity.
  assert (Hcl : client_playerId 1 adaJoined = Some "player_1010_a") by (vm_compute; reflexivity).
  assert (Ht : truthy "player_1010_a" = true) by reflexivity.
  assert (Hg : get_player "player_1010_a" (players adaJoined) = Some adaRecord)
    by (vm_compute; reflexivity).
  exact (proj1 (proj2 (close_keeps_record 1%nat adaJoined "player_1010_a" adaRecord
                         Hopen Hcl Ht Hg))).
Defined.

Lemma sit_then_stand_at_bench :
  exists p',
    get_player "A" (players (fst (handleBenchStand 1 1030
                                    (fst (handleBenchSit 1 1020 benchVisitor))))) = Some p'
    /\ sitting p' = false /\ x p' == 2810 /\ y p' == 1511.
Proof.
  assert (Hcl : client_playerId 1 benchVisitor = Some "A") by (vm_compute; reflexivity).
  assert (Ht : truthy "A" = true) by reflexivity.
  assert (Hg : get_player "A" (players benchVisitor) = Some benchRecord)
    by (vm_compute; reflexivity).
  assert (Hc : connected benchRecord = true) by reflexivity.
  assert (Hs : sitting benchRecord = false) by reflexivity.
  assert (Hd : (x benchRecord - 2760) * (x benchRecord - 2760)
               + (y benchRecord - 1511) * (y benchRecord - 1511) <= 100 * 100)
    by (apply Qle_bool_iff; vm_compute; reflexivity).
  assert (Hn : (sittingCount (players benchVisitor) < 2)%nat) by (vm_compute; lia).
  destruct (sit_then_stand 1%nat 1020%Z 1030%Z benchVisitor "A" benchRecord
              Hcl Ht Hg Hc Hs Hd Hn) as (p' & H1 & H2 & _ & _ & Hy & Hx).
  exists p'. split; [exact H1|]. split; [exact H2|]. split; [|exact Hy].
  assert (E : Nat.eqb (sittingCount (players benchVisitor)) 0 = true) by (vm_compute; reflexivity).
  rewrite E in Hx. exact Hx.
Defined.

Lemma reset_of_seated_occupant :
  exists p',
    get_player "A" (players (fst (handleResetPosition 1 1030 benchSeated))) = Some p'
    /\ sitting p' = true /\ x p' == 160497 / 100.
Proof.
  assert (Hcl : client_playerId 1 benchSeated = Some "A") by (vm_compute; reflexivity).
  assert (Ht : truthy "A" = true) by reflexivity.
  assert (Hg : get_player "A" (players benchSeated)
               = Some (sitDown BENCH_SEAT_OFFSET 1020 benchRecord))
    by (vm_compute; reflexivity).
  assert (Hc : connected (sitDown BENCH_SEAT_OFFSET 1020 benchRecord) = true) by reflexivity.
  destruct (reset_keeps_interaction 1%nat 1030%Z benchSeated "A"
              (sitDown BENCH_SEAT_OFFSET 1020 benchRecord) Hcl Ht Hg Hc)
    as ((p' & H1 & Hx & _ & _ & _ & _ & Hs & _) & _).
  exists p'. split; [exact H1|]. split; [rewrite Hs; reflexivity | exact Hx].
Defined.

Lemma hug_alone_is_refused :
  handleHug 1 1020 adaJoined = (adaJoined, []).
Proof.
  assert (Hcnt : (connectedCount adaJoined <= 2)%nat) by (vm_compute; lia).
  assert (Hcl : client_playerId 1 adaJoined = Some "player_1010_a") by (vm_compute; reflexivity).
  assert (Ht : truthy "player_1010_a" = true) by reflexivity.
  assert (Hg : get_player "player_1010_a" (players adaJoined) = Some adaRecord)
    by (vm_compute; reflexivity).
  assert (Hc : connected adaRecord = true) by reflexivity.
  assert (Halone : forall q, In q (players adaJoined) -> connected q = true ->
                             id q = "player_1010_a").
  { assert (E : players adaJoined = [adaRecord]) by (vm_compute; reflexivity).
    rewrite E. intros q [<- | []] _. reflexivity. }
  exact (hug_refused 1%nat 1020%Z adaJoined "player_1010_a" adaRecord Hcnt Hcl Ht Hg Hc
           (or_intror (or_introl Halone))).
Defined.

Lemma tick_holds_seated_occupant :
  exists p',
    get_player "A" (players (fst (gameTick 1050 benchSeated))) = Some p'
    /\ x p' = x (sitDown BENCH_SEAT_OFFSET 1020 benchRecord)
    /\ y p' = y (sitDown BENCH_SEAT_OFFSET 1020 benchRecord)
    /\ vx p' = 0 /\ vy p' = 0.
Proof.
  assert (Hg : get_player "A" (players benchSeated)
               = Some (sitDown BENCH_SEAT_OFFSET 1020 benchRecord))
    by (vm_compute; reflexivity).
  assert (Hc : connected (sitDown BENCH_SEAT_OFFSET 1020 benchRecord) = true) by reflexivity.
  assert (Hs : sitting (sitDown BENCH_SEAT_OFFSET 1020 benchRecord) = true) by reflexivity.
  destruct (tick_holds_seated_and_embracing benchSeated 1050%Z "A"
              (sitDown BENCH_SEAT_OFFSET 1020 benchRecord) Hg Hc (or_introl Hs))
    as (p' & H1 & H2 & H3 & H4 & H5 & _).
  exists p'. repeat split; assumption.
Defined.

Lemma tick_speed_limit_while_walking :
  exists p',
    get_player "player_1010_a" (players (fst (gameTick 1050 adaWalking))) = Some p'
    /\ Qabs (x p' - 328) <= (25 # 4)
    /\ vx p' * vx p' + vy p' * vy p' <= 125 * 125.
Proof.
  set (p := p_set_lastInput (Some (mkInput eastKeys 1 1020)) adaRecord).
  assert (Hg : get_player "player_1010_a" (players adaWalking) = Some p)
    by (vm_compute; reflexivity).
  assert (Hin : inWorld p).
  { unfold inWorld. repeat split; apply Qle_bool_iff; vm_compute; reflexivity. }
  destruct (tick_speed_limit adaWalking 1050%Z "player_1010_a" p Hg Hin)
    as (p' & H1 & H2 & _ & H4).
  exists p'. split; [exact H1|]. split; [|apply H4; reflexivity].
  assert (E : x p' - 328 == x p' - x p) by (apply Qplus_comp; [reflexivity | vm_compute; reflexivity]).
  rewrite E. exact H2.
Defined.

Lemma ada_survives_restart :
  Forall2 restoredFrom [adaRecord]
    (players (startServer 2000 "" (map savedPlayer [adaRecord]) [] [])).
Proof.
  assert (Hnd : NoDup (map id [adaRecord])).
  { constructor; [intros [] | constructor]. }
  exact (occupants_survive_restart 2000%Z "" [] [] [adaRecord] Hnd).
Defined.

Lemma follower_of_ada_targets_connected :
  Forall (targetConnected (players adaJoined)) (followers adaJoined).
Proof.
  assert (Hr : reachable adaJoined).
  { exists 1000%Z, "", [], [], [],
      [ Connect 1; Message 1 1010 "a" (Join (Some "Ada") "1" None) ]. reflexivity. }
  exact (followers_target_connected_occupants adaJoined Hr).
Defined.

Lemma followers_within_world_after_rejoin :
  Forall followerInWorld
    (followers (fst (run (startServer 1000 "" [savedAda] [] [])
                       [ Connect 1; Message 1 1010 "r" (Join None "1" (Some "p1"));
                         Tick 1050 ]))).
Proof.
  assert (Hs : Forall savedInWorld [savedAda]).
  { constructor; [|constructor]. unfold savedInWorld.
    repeat split; apply Qle_bool_iff; vm_compute; reflexivity. }
  exact (followers_within_world 1000%Z "" [savedAda] [] []
           [ Connect 1; Message 1 1010 "r" (Join None "1" (Some "p1")); Tick 1050 ] Hs).
Defined.

Lemma followers_rest_in_empty_world :
  Forall2
    (fun f f' => f_id f' = f_id f /\ f_x f' = f_x f /\ f_y f' = f_y f
                 /\ f_vx f' = 0 /\ f_vy f' = 0)
    (followers (startServer 1000 "" [] [] []))
    (followers (fst (gameTick 1050 (startServer 1000 "" [] [] [])))).
Proof.
  assert (Hcnt : connectedCount (startServer 1000 "" [] [] []) = 0%nat) by reflexivity.
  exact (tick_without_occupants_rests_followers (startServer 1000 "" [] [] []) 1050%Z Hcnt).
Defined.

Lemma follower_pace_behind_ada :
  Forall2
    (fun f f' => Qabs (f_x f' - f_x f) <= 22 /\ Qabs (f_y f' - f_y f) <= 22)
    (followers adaWalking) (followers (fst (gameTick 1050 adaWalking))).
Proof.
  assert (Hf : Forall followerInWorld (followers adaWalking)).
  { apply Forall_forall. intros f Hin. vm_compute in Hin. destruct Hin as [<- | []].
    unfold followerInWorld.
    repeat split; apply Qle_bool_iff; vm_compute; reflexivity. }
  exact (follower_pace adaWalking 1050%Z Hf).
Defined.
